(** * ProgramShaderCache (OGL video backend)

    A shallow embedding of
    [Source/Core/VideoBackends/OGL/ProgramShaderCache.cpp]: the in-memory
    program cache ([SetShader]), the compilation pipeline
    ([CompileShader], [CompileSingleShader]), program binding
    ([SHADER::Bind]), the replay of the disk cache
    ([ProgramShaderCacheInserter::Read]), the constant upload
    ([UploadConstants]) and start-up / tear-down ([Init], [Shutdown]).

    The file-scope and class-static variables of the translation unit are
    the fields of one [state] record that every function threads through.
    The OpenGL driver and the other collaborators are not part of the
    program: each call made to them is appended to a chronological
    [trace], and every value they hand back is read from an oracle that
    sees the whole history of calls, so that a statement proved here holds
    whatever the driver answers. *)

From Stdlib Require Import ZArith String Ascii List.
From stdpp Require Import base decidable countable option list gmap strings.

Local Open Scope string_scope.
Local Open Scope list_scope.
Local Open Scope Z_scope.

(** ** OpenGL names used by the translation unit *)

Inductive shader_type : Type :=
  | GL_VERTEX_SHADER
  | GL_FRAGMENT_SHADER
  | GL_GEOMETRY_SHADER.

Inductive gl_pname : Type :=
  | GL_COMPILE_STATUS
  | GL_INFO_LOG_LENGTH
  | GL_LINK_STATUS
  | GL_DELETE_STATUS
  | GL_PROGRAM_BINARY_LENGTH
  | GL_PROGRAM_BINARY_RETRIEVABLE_HINT
  | GL_UNIFORM_BUFFER_OFFSET_ALIGNMENT
  | GL_NUM_PROGRAM_BINARY_FORMATS.

Inductive gl_target : Type :=
  | GL_UNIFORM_BUFFER.

Definition GL_TRUE : Z := 1.
Definition GL_FALSE : Z := 0.
Definition GL_NO_ERROR : Z := 0.

(** [sizeof(GLenum)] *)
Definition sizeof_GLenum : Z := 4.

(** The three constant sources copied by [UploadConstants]. *)
Inductive constant_source : Type :=
  | PixelConstants
  | VertexConstants
  | GeometryConstants.

(** Which pause point [GFX_DEBUGGER_PAUSE_AT] names. *)
Inductive pause_event : Type :=
  | NEXT_PIXEL_SHADER_CHANGE
  | NEXT_ERROR.

(** What a dump file is called: [StringFromFormat] builds the name from the
    dump directory, a fixed stem and a running number; the stem and the
    number are kept apart here. *)
Record dump_name : Type := DumpName { dump_stem : string; dump_index : Z }.

(** The three uid classes and the types of [xfmem] and [bpmem] are
    declared outside this translation unit.  A uid is only compared and
    used as a map key. *)
Class Uids : Type := {
  PixelShaderUid : Type;
  VertexShaderUid : Type;
  GeometryShaderUid : Type;
  #[global] PixelShaderUid_eq_dec :: EqDecision PixelShaderUid;
  #[global] VertexShaderUid_eq_dec :: EqDecision VertexShaderUid;
  #[global] GeometryShaderUid_eq_dec :: EqDecision GeometryShaderUid;
  #[global] PixelShaderUid_countable :: Countable PixelShaderUid;
  #[global] VertexShaderUid_countable :: Countable VertexShaderUid;
  #[global] GeometryShaderUid_countable :: Countable GeometryShaderUid;
  XFMemory : Type;
  BPMemory : Type
}.

Section ProgramShaderCache.

Context {U : Uids}.

Record SHADERUID : Type := mkSHADERUID {
  puid : PixelShaderUid;
  vuid : VertexShaderUid;
  guid : GeometryShaderUid
}.

#[global] Instance SHADERUID_eq_dec : EqDecision SHADERUID.
Proof. solve_decision. Defined.

#[global] Instance SHADERUID_countable : Countable SHADERUID :=
  inj_countable'
    (fun u => (puid u, vuid u, guid u))
    (fun t => mkSHADERUID t.1.1 t.1.2 t.2)
    (fun u => match u with mkSHADERUID _ _ _ => eq_refl end).

(** ** Calls that leave the translation unit *)

Inductive event : Type :=
  (* queries *)
  | glGetIntegerv (pname : gl_pname)
  | glGetError
  (* shader objects *)
  | glCreateShader (type : shader_type)
  | glShaderSource (shader : Z) (count : Z) (src : list string)
  | glCompileShader (shader : Z)
  | glGetShaderiv (shader : Z) (pname : gl_pname)
  | glGetShaderInfoLog (shader : Z) (length : Z)
  | glDeleteShader (shader : Z)
  (* program objects *)
  | glCreateProgram
  | glAttachShader (program shader : Z)
  | glProgramParameteri (program : Z) (pname : gl_pname) (value : Z)
  | glBindFragDataLocationIndexed (program colorNumber index : Z) (name : string)
  | glBindAttribLocation (program index : Z) (name : string)
  | glLinkProgram (program : Z)
  | glGetProgramiv (program : Z) (pname : gl_pname)
  | glGetProgramInfoLog (program : Z) (length : Z)
  | glDeleteProgram (program : Z)
  | glUseProgram (program : Z)
  | glProgramBinary (program : Z) (format binary : list Z) (length : Z)
  | glGetProgramBinary (program : Z) (bufSize : Z)
  (* uniforms *)
  | glGetUniformBlockIndex (program : Z) (name : string)
  | glUniformBlockBinding (program index binding : Z)
  | glGetUniformLocation (program : Z) (name : string)
  | glUniform1i (location value : Z)
  | glBindBufferRange (target : gl_target) (index buffer offset size : Z)
  (* StreamBuffer *)
  | StreamBuffer_Create (target : gl_target) (size : Z)
  | StreamBuffer_Map (size align : Z)
  | StreamBuffer_Unmap (used_size : Z)
  | StreamBuffer_delete
  | memcpy (dst : Z) (src : constant_source) (n : Z)
  (* logging, alerts, dumps, debugger *)
  | ERROR_LOG (msg : string)
  | PanicAlert (msg : string) (file : dump_name) (infoLog : string)
  | DumpFile (file : dump_name) (contents : string)
  | SaveData (file : dump_name) (contents : string)
  | GFX_DEBUGGER_PAUSE_AT (what : pause_event)
  (* uid checkers *)
  | AddToIndexAndCheck_pixel (code : string) (uid : PixelShaderUid)
  | AddToIndexAndCheck_vertex (code : string) (uid : VertexShaderUid)
  | AddToIndexAndCheck_geometry (code : string) (uid : GeometryShaderUid)
  | Invalidate_pixel_uid_checker
  | Invalidate_vertex_uid_checker
  (* file system and the disk cache file *)
  | File_Exists_shader_cache_dir
  | File_CreateDir_shader_cache_dir
  | disk_cache_OpenAndRead
  | disk_cache_Sync
  | disk_cache_Close.

(** ** What a draw call asks for

    The arguments of [SetShader] together with the two register files the
    uid and source generators read. *)
Record pipeline_state : Type := mkPipeline {
  dstAlphaMode : Z;
  components : Z;
  primitive_type : Z;
  xfmem : XFMemory;
  bpmem : BPMemory
}.

(** ** Collaborators and configuration

    Everything the translation unit reads but does not define. *)
Record Env : Type := mkEnv {
  (* uid and source generators *)
  GetPixelShaderUidGL : Z -> Z -> XFMemory -> BPMemory -> PixelShaderUid;
  GetVertexShaderUidGL : Z -> XFMemory -> BPMemory -> VertexShaderUid;
  GetGeometryShaderUid : Z -> XFMemory -> GeometryShaderUid;
  IsPassthrough : GeometryShaderUid -> bool;
  GeneratePixelShaderCodeGL : Z -> Z -> XFMemory -> BPMemory -> string;
  GenerateVertexShaderCodeGL : Z -> XFMemory -> BPMemory -> string;
  GenerateGeometryShaderCode : Z -> XFMemory -> string;
  (* the driver: the integer, the text or the bytes handed back by the
     call that ends the history *)
  gl_answer : list event -> Z;
  gl_text : list event -> string;
  gl_bytes : list event -> list Z;
  (* whether the query that ends the history stored its result at all *)
  gl_stores : list event -> bool;
  (* g_ActiveConfig.backend_info, g_ActiveConfig, g_Config, g_ogl_config *)
  bSupportsBindingLayout : bool;
  bSupportsDualSourceBlend : bool;
  bSupportsGeometryShaders : bool;
  bSupportsEarlyZ : bool;
  bSupportsBBox : bool;
  bSupportsGSInstancing : bool;
  bSupportsPaletteConversion : bool;
  bEnableShaderDebugging : bool;
  g_Config_bEnableShaderDebugging : bool;
  CONF_SAVESHADERS_logged : bool;
  bSupportsMSAA : bool;
  bSupportSampleShading : bool;
  bSupportsAEP : bool;
  SupportedESPointSize : Z;
  eSupportedGLSLVersion : Z;
  (* enum GLSL_VERSION *)
  GLSL_130 : Z;
  GLSL_140 : Z;
  GLSL_150 : Z;
  GLSLES_300 : Z;
  GLSLES_310 : Z;
  GLSLES_320 : Z;
  (* DriverDetails::HasBug *)
  BUG_BROKENINFOLOG : bool;
  BUG_BROKENTEXTURESIZE : bool;
  BUG_BROKENCENTROID : bool;
  (* macros and constants *)
  DEBUG_GLSL : bool;
  ROUND_UP : Z -> Z -> Z;
  SHADER_POSITION_ATTRIB : Z;
  SHADER_POSMTX_ATTRIB : Z;
  SHADER_COLOR0_ATTRIB : Z;
  SHADER_COLOR1_ATTRIB : Z;
  SHADER_NORM0_ATTRIB : Z;
  SHADER_NORM1_ATTRIB : Z;
  SHADER_NORM2_ATTRIB : Z;
  SHADER_TEXTURE0_ATTRIB : Z;
  (* PixelShaderManager::ConstantBufferSize * sizeof(float) and its kin *)
  pixel_buffer_size : Z;
  vertex_buffer_size : Z;
  sizeof_GeometryShaderConstants : Z;
  (* the value the SHADER constructor gives [glprogid] *)
  SHADER_initial_glprogid : Z
}.

Existing Class Env.

(** ** Data owned by the cache *)

Record SHADER : Type := mkSHADER {
  glprogid : Z;
  strvprog : string;
  strpprog : string;
  strgprog : string
}.

Record PCacheEntry : Type := mkPCacheEntry {
  shader : SHADER;
  in_cache : bool
}.

(** [StreamBuffer] is a class of another translation unit; the one member
    read here is the name of its buffer object. *)
Record StreamBuffer : Type := mkStreamBuffer { m_buffer : Z }.

(** [static const u32 UBO_LENGTH = 32*1024*1024;] *)
Definition UBO_LENGTH : Z := 32 * 1024 * 1024.

(** The variables of the translation unit.  [last_entry] points at a node
    of [pshaders]; nodes of the map do not move, so the pointer is the key
    of the node it points at, and it dangles when that key has left the
    map.  The dirty flags belong to the three constant managers. *)
#[projections(primitive)]
Record state : Type := mkState {
  trace : list event;
  s_ubo_buffer_size : Z;
  s_ubo_align : Z;
  s_buffer : option StreamBuffer;
  num_failures : Z;
  CurrentProgram : Z;
  pshaders : gmap SHADERUID PCacheEntry;
  last_entry : option SHADERUID;
  last_uid : SHADERUID;
  s_glsl_header : string;
  bSupportsGLSLCache : bool;
  numShaderChanges : Z;
  numPixelShadersCreated : Z;
  numPixelShadersAlive : Z;
  bytesUniformStreamed : Z;
  pixel_dirty : bool;
  vertex_dirty : bool;
  geometry_dirty : bool;
  g_program_disk_cache : list (SHADERUID * list Z);
  save_counter : Z
}.

Definition set_trace (v : list event) (st : state) : state :=
  let '(mkState _ a2 a3 a4 a5 a6 a7 a8 a9 a10 a11 a12 a13 a14 a15 a16 a17 a18 a19 a20) := st in
  mkState v a2 a3 a4 a5 a6 a7 a8 a9 a10 a11 a12 a13 a14 a15 a16 a17 a18 a19 a20.
Definition set_s_ubo_buffer_size (v : Z) (st : state) : state :=
  let '(mkState a1 _ a3 a4 a5 a6 a7 a8 a9 a10 a11 a12 a13 a14 a15 a16 a17 a18 a19 a20) := st in
  mkState a1 v a3 a4 a5 a6 a7 a8 a9 a10 a11 a12 a13 a14 a15 a16 a17 a18 a19 a20.
Definition set_s_ubo_align (v : Z) (st : state) : state :=
  let '(mkState a1 a2 _ a4 a5 a6 a7 a8 a9 a10 a11 a12 a13 a14 a15 a16 a17 a18 a19 a20) := st in
  mkState a1 a2 v a4 a5 a6 a7 a8 a9 a10 a11 a12 a13 a14 a15 a16 a17 a18 a19 a20.
Definition set_s_buffer (v : option StreamBuffer) (st : state) : state :=
  let '(mkState a1 a2 a3 _ a5 a6 a7 a8 a9 a10 a11 a12 a13 a14 a15 a16 a17 a18 a19 a20) := st in
  mkState a1 a2 a3 v a5 a6 a7 a8 a9 a10 a11 a12 a13 a14 a15 a16 a17 a18 a19 a20.
Definition set_num_failures (v : Z) (st : state) : state :=
  let '(mkState a1 a2 a3 a4 _ a6 a7 a8 a9 a10 a11 a12 a13 a14 a15 a16 a17 a18 a19 a20) := st in
  mkState a1 a2 a3 a4 v a6 a7 a8 a9 a10 a11 a12 a13 a14 a15 a16 a17 a18 a19 a20.
Definition set_CurrentProgram (v : Z) (st : state) : state :=
  let '(mkState a1 a2 a3 a4 a5 _ a7 a8 a9 a10 a11 a12 a13 a14 a15 a16 a17 a18 a19 a20) := st in
  mkState a1 a2 a3 a4 a5 v a7 a8 a9 a10 a11 a12 a13 a14 a15 a16 a17 a18 a19 a20.
Definition set_pshaders (v : gmap SHADERUID PCacheEntry) (st : state) : state :=
  let '(mkState a1 a2 a3 a4 a5 a6 _ a8 a9 a10 a11 a12 a13 a14 a15 a16 a17 a18 a19 a20) := st in
  mkState a1 a2 a3 a4 a5 a6 v a8 a9 a10 a11 a12 a13 a14 a15 a16 a17 a18 a19 a20.
Definition set_last_entry (v : option SHADERUID) (st : state) : state :=
  let '(mkState a1 a2 a3 a4 a5 a6 a7 _ a9 a10 a11 a12 a13 a14 a15 a16 a17 a18 a19 a20) := st in
  mkState a1 a2 a3 a4 a5 a6 a7 v a9 a10 a11 a12 a13 a14 a15 a16 a17 a18 a19 a20.
Definition set_last_uid (v : SHADERUID) (st : state) : state :=
  let '(mkState a1 a2 a3 a4 a5 a6 a7 a8 _ a10 a11 a12 a13 a14 a15 a16 a17 a18 a19 a20) := st in
  mkState a1 a2 a3 a4 a5 a6 a7 a8 v a10 a11 a12 a13 a14 a15 a16 a17 a18 a19 a20.
Definition set_s_glsl_header (v : string) (st : state) : state :=
  let '(mkState a1 a2 a3 a4 a5 a6 a7 a8 a9 _ a11 a12 a13 a14 a15 a16 a17 a18 a19 a20) := st in
  mkState a1 a2 a3 a4 a5 a6 a7 a8 a9 v a11 a12 a13 a14 a15 a16 a17 a18 a19 a20.
Definition set_bSupportsGLSLCache (v : bool) (st : state) : state :=
  let '(mkState a1 a2 a3 a4 a5 a6 a7 a8 a9 a10 _ a12 a13 a14 a15 a16 a17 a18 a19 a20) := st in
  mkState a1 a2 a3 a4 a5 a6 a7 a8 a9 a10 v a12 a13 a14 a15 a16 a17 a18 a19 a20.
Definition set_numShaderChanges (v : Z) (st : state) : state :=
  let '(mkState a1 a2 a3 a4 a5 a6 a7 a8 a9 a10 a11 _ a13 a14 a15 a16 a17 a18 a19 a20) := st in
  mkState a1 a2 a3 a4 a5 a6 a7 a8 a9 a10 a11 v a13 a14 a15 a16 a17 a18 a19 a20.
Definition set_numPixelShadersCreated (v : Z) (st : state) : state :=
  let '(mkState a1 a2 a3 a4 a5 a6 a7 a8 a9 a10 a11 a12 _ a14 a15 a16 a17 a18 a19 a20) := st in
  mkState a1 a2 a3 a4 a5 a6 a7 a8 a9 a10 a11 a12 v a14 a15 a16 a17 a18 a19 a20.
Definition set_numPixelShadersAlive (v : Z) (st : state) : state :=
  let '(mkState a1 a2 a3 a4 a5 a6 a7 a8 a9 a10 a11 a12 a13 _ a15 a16 a17 a18 a19 a20) := st in
  mkState a1 a2 a3 a4 a5 a6 a7 a8 a9 a10 a11 a12 a13 v a15 a16 a17 a18 a19 a20.
Definition set_bytesUniformStreamed (v : Z) (st : state) : state :=
  let '(mkState a1 a2 a3 a4 a5 a6 a7 a8 a9 a10 a11 a12 a13 a14 _ a16 a17 a18 a19 a20) := st in
  mkState a1 a2 a3 a4 a5 a6 a7 a8 a9 a10 a11 a12 a13 a14 v a16 a17 a18 a19 a20.
Definition set_pixel_dirty (v : bool) (st : state) : state :=
  let '(mkState a1 a2 a3 a4 a5 a6 a7 a8 a9 a10 a11 a12 a13 a14 a15 _ a17 a18 a19 a20) := st in
  mkState a1 a2 a3 a4 a5 a6 a7 a8 a9 a10 a11 a12 a13 a14 a15 v a17 a18 a19 a20.
Definition set_vertex_dirty (v : bool) (st : state) : state :=
  let '(mkState a1 a2 a3 a4 a5 a6 a7 a8 a9 a10 a11 a12 a13 a14 a15 a16 _ a18 a19 a20) := st in
  mkState a1 a2 a3 a4 a5 a6 a7 a8 a9 a10 a11 a12 a13 a14 a15 a16 v a18 a19 a20.
Definition set_geometry_dirty (v : bool) (st : state) : state :=
  let '(mkState a1 a2 a3 a4 a5 a6 a7 a8 a9 a10 a11 a12 a13 a14 a15 a16 a17 _ a19 a20) := st in
  mkState a1 a2 a3 a4 a5 a6 a7 a8 a9 a10 a11 a12 a13 a14 a15 a16 a17 v a19 a20.
Definition set_g_program_disk_cache (v : list (SHADERUID * list Z)) (st : state) : state :=
  let '(mkState a1 a2 a3 a4 a5 a6 a7 a8 a9 a10 a11 a12 a13 a14 a15 a16 a17 a18 _ a20) := st in
  mkState a1 a2 a3 a4 a5 a6 a7 a8 a9 a10 a11 a12 a13 a14 a15 a16 a17 a18 v a20.
Definition set_save_counter (v : Z) (st : state) : state :=
  let '(mkState a1 a2 a3 a4 a5 a6 a7 a8 a9 a10 a11 a12 a13 a14 a15 a16 a17 a18 a19 _) := st in
  mkState a1 a2 a3 a4 a5 a6 a7 a8 a9 a10 a11 a12 a13 a14 a15 a16 a17 a18 a19 v.

(** ** Sequencing

    A statement of the source is a function from the variables of the
    translation unit to a result and their new values. *)
Definition St (A : Type) : Type := state -> A * state.

Definition ret {A} (a : A) : St A := fun st => (a, st).
Definition bind {A B} (c : St A) (k : A -> St B) : St B :=
  fun st => let '(a, st') := c st in k a st'.
Definition get {A} (f : state -> A) : St A := fun st => (f st, st).
Definition modify (f : state -> state) : St unit := fun st => (tt, f st).

Notation "x <- c ;; k" := (bind c (fun x => k))
  (at level 100, c at next level, right associativity).
Notation "c ;;; k" := (bind c (fun _ => k))
  (at level 100, right associativity).

Definition when (b : bool) (c : St unit) : St unit :=
  if b then c else ret tt.

Context {E : Env}.

(** A call whose result, if any, is not used. *)
Definition call (e : event) : St unit :=
  modify (fun st => set_trace (trace st ++ [e]) st).

(** A call whose integer result is used: the call is recorded and the
    driver answers knowing everything that was asked so far. *)
Definition ask (e : event) : St Z :=
  fun st => let t := trace st ++ [e] in (gl_answer E t, set_trace t st).

(** A query that stores its result into a variable which already has a
    value: when the driver stores nothing, the variable keeps it. *)
Definition ask_into (e : event) (old : Z) : St Z :=
  fun st =>
    let t := trace st ++ [e] in
    ((if gl_stores E t then gl_answer E t else old), set_trace t st).

Definition ask_text (e : event) : St string :=
  fun st => let t := trace st ++ [e] in (gl_text E t, set_trace t st).

Definition ask_bytes (e : event) : St (list Z) :=
  fun st => let t := trace st ++ [e] in (gl_bytes E t, set_trace t st).

(** [INCSTAT], [ADDSTAT] and [SETSTAT] are macros over the counters of the
    statistics record; the record and the macros are declared elsewhere,
    the counters are kept as integers. *)

(** ** SHADER::Bind *)
Definition Bind (s : SHADER) : St unit :=
  cur <- get CurrentProgram ;;
  if bool_decide (cur <> glprogid s) then
    modify (fun st => set_numShaderChanges (numShaderChanges st + 1) st) ;;;
    call (glUseProgram (glprogid s)) ;;;
    modify (set_CurrentProgram (glprogid s))
  else ret tt.

(** [for (...) body]: the body once for every value of the loop variable,
    in order. *)
Fixpoint for_each {A} (l : list A) (body : A -> St unit) : St unit :=
  match l with
  | [] => ret tt
  | a :: l' => body a ;;; for_each l' body
  end.

(** What [snprintf] prints for ["%d"] when the number has one digit. *)
Definition digit (a : Z) : string :=
  String (ascii_of_nat (48 + Z.to_nat a)) EmptyString.

Definition newline : string := String (ascii_of_nat 10) EmptyString.

(** ** SHADER::SetProgramVariables *)
Definition SetProgramVariables (s : SHADER) : St unit :=
  if negb (bSupportsBindingLayout E) then
    Bind s ;;;
    PSBlock_id <- ask (glGetUniformBlockIndex (glprogid s) "PSBlock") ;;
    VSBlock_id <- ask (glGetUniformBlockIndex (glprogid s) "VSBlock") ;;
    GSBlock_id <- ask (glGetUniformBlockIndex (glprogid s) "GSBlock") ;;
    when (negb (PSBlock_id =? -1))
      (call (glUniformBlockBinding (glprogid s) PSBlock_id 1)) ;;;
    when (negb (VSBlock_id =? -1))
      (call (glUniformBlockBinding (glprogid s) VSBlock_id 2)) ;;;
    when (negb (GSBlock_id =? -1))
      (call (glUniformBlockBinding (glprogid s) GSBlock_id 3)) ;;;
    for_each (seqZ 0 10) (fun a =>
      loc <- ask (glGetUniformLocation (glprogid s) ("samp" +:+ digit a)) ;;
      when (negb (loc =? -1)) (call (glUniform1i loc a)))
  else ret tt.

(** ** SHADER::SetProgramBindings *)
Definition SetProgramBindings (s : SHADER) : St unit :=
  when (bSupportsDualSourceBlend E)
    (call (glBindFragDataLocationIndexed (glprogid s) 0 0 "ocol0") ;;;
     call (glBindFragDataLocationIndexed (glprogid s) 0 1 "ocol1")) ;;;
  call (glBindAttribLocation (glprogid s) (SHADER_POSITION_ATTRIB E) "rawpos") ;;;
  call (glBindAttribLocation (glprogid s) (SHADER_POSMTX_ATTRIB E) "fposmtx") ;;;
  call (glBindAttribLocation (glprogid s) (SHADER_COLOR0_ATTRIB E) "color0") ;;;
  call (glBindAttribLocation (glprogid s) (SHADER_COLOR1_ATTRIB E) "color1") ;;;
  call (glBindAttribLocation (glprogid s) (SHADER_NORM0_ATTRIB E) "rawnorm0") ;;;
  call (glBindAttribLocation (glprogid s) (SHADER_NORM1_ATTRIB E) "rawnorm1") ;;;
  call (glBindAttribLocation (glprogid s) (SHADER_NORM2_ATTRIB E) "rawnorm2") ;;;
  for_each (seqZ 0 8) (fun i =>
    call (glBindAttribLocation (glprogid s) (SHADER_TEXTURE0_ATTRIB E + i)
            ("tex" +:+ digit i))).

(** ** ProgramShaderCache::CompileSingleShader

    [macros] is the array of [count] macro strings; [count] is its
    length.  The result is the name of the shader object, or 0. *)
Definition stage_tag (type : shader_type) : string :=
  match type with
  | GL_VERTEX_SHADER => "VS"
  | GL_FRAGMENT_SHADER => "PS"
  | GL_GEOMETRY_SHADER => "GS"
  end.

Definition stage_stem (type : shader_type) : string :=
  match type with
  | GL_VERTEX_SHADER => "bad_vs"
  | GL_FRAGMENT_SHADER => "bad_ps"
  | GL_GEOMETRY_SHADER => "bad_gs"
  end.

Definition stage_name (type : shader_type) : string :=
  match type with
  | GL_VERTEX_SHADER => "vertex"
  | GL_FRAGMENT_SHADER => "pixel"
  | GL_GEOMETRY_SHADER => "geometry"
  end.

(** Everything after [GLuint result = glCreateShader(type);]. *)
Definition CompileSingleShader_source (type : shader_type) (code : string)
    (macros : list string) (result : Z) : St Z :=
  header <- get s_glsl_header ;;
  let count := Z.of_nat (List.length macros) in
  let src := header :: macros ++ [code] in
  call (glShaderSource result (count + 2) src) ;;;
  call (glCompileShader result) ;;;
  compileStatus <- ask (glGetShaderiv result GL_COMPILE_STATUS) ;;
  reported <- ask_into (glGetShaderiv result GL_INFO_LOG_LENGTH) 0 ;;
  let length := if BUG_BROKENINFOLOG E then 1024 else reported in
  when (negb (compileStatus =? GL_TRUE) || ((1 <? length) && DEBUG_GLSL E))
    (infoLog <- ask_text (glGetShaderInfoLog result length) ;;
     call (ERROR_LOG (stage_tag type +:+ " Shader info log:" +:+ newline
                        +:+ infoLog)) ;;;
     n <- get num_failures ;;
     modify (set_num_failures (n + 1)) ;;;
     let filename := DumpName (stage_stem type) n in
     call (DumpFile filename (header +:+ code +:+ infoLog)) ;;;
     when (negb (compileStatus =? GL_TRUE))
       (call (PanicAlert ("Failed to compile " +:+ stage_name type
                            +:+ " shader") filename infoLog))) ;;;
  if negb (compileStatus =? GL_TRUE) then
    call (ERROR_LOG "Shader compilation failed; see info log") ;;;
    call (glDeleteShader result) ;;;
    ret 0
  else ret result.

Definition CompileSingleShader (type : shader_type) (code : string)
    (macros : list string) : St Z :=
  result <- ask (glCreateShader type) ;;
  CompileSingleShader_source type code macros result.

(** ** ProgramShaderCache::CompileShader

    [shader] is passed by reference in the source: the value handed in is
    the object referred to and the value handed back is that object
    afterwards.  [gcode] is [None] for a null pointer. *)
Definition set_glprogid (v : Z) (s : SHADER) : SHADER :=
  mkSHADER v (strvprog s) (strpprog s) (strgprog s).

Definition CompileShader (shader : SHADER) (vcode pcode : string)
    (gcode : option string) (macros : list string) : St (bool * SHADER) :=
  vsid <- CompileSingleShader GL_VERTEX_SHADER vcode macros ;;
  psid <- CompileSingleShader GL_FRAGMENT_SHADER pcode macros ;;
  gsid <- match gcode with
          | Some g => CompileSingleShader GL_GEOMETRY_SHADER g macros
          | None => ret 0
          end ;;
  if (vsid =? 0) || (psid =? 0) || (bool_decide (is_Some gcode) && (gsid =? 0))
  then
    call (glDeleteShader vsid) ;;;
    call (glDeleteShader psid) ;;;
    call (glDeleteShader gsid) ;;;
    ret (false, shader)
  else
    pid <- ask glCreateProgram ;;
    let shader := set_glprogid pid shader in
    call (glAttachShader pid vsid) ;;;
    call (glAttachShader pid psid) ;;;
    when (negb (gsid =? 0)) (call (glAttachShader pid gsid)) ;;;
    cache <- get bSupportsGLSLCache ;;
    when cache
      (call (glProgramParameteri pid GL_PROGRAM_BINARY_RETRIEVABLE_HINT GL_TRUE)) ;;;
    SetProgramBindings shader ;;;
    call (glLinkProgram pid) ;;;
    call (glDeleteShader vsid) ;;;
    call (glDeleteShader psid) ;;;
    call (glDeleteShader gsid) ;;;
    linkStatus <- ask (glGetProgramiv pid GL_LINK_STATUS) ;;
    length <- ask_into (glGetProgramiv pid GL_INFO_LOG_LENGTH) 0 ;;
    when (negb (linkStatus =? GL_TRUE) || ((1 <? length) && DEBUG_GLSL E))
      (infoLog <- ask_text (glGetProgramInfoLog pid length) ;;
       call (ERROR_LOG ("Program info log:" +:+ newline +:+ infoLog)) ;;;
       n <- get num_failures ;;
       modify (set_num_failures (n + 1)) ;;;
       let filename := DumpName "bad_p" n in
       header <- get s_glsl_header ;;
       call (DumpFile filename
               (header +:+ vcode +:+ header +:+ pcode
                +:+ match gcode with
                    | Some g => header +:+ g
                    | None => ""
                    end
                +:+ infoLog)) ;;;
       when (negb (linkStatus =? GL_TRUE))
         (call (PanicAlert "Failed to link shaders" filename infoLog))) ;;;
    if negb (linkStatus =? GL_TRUE) then
      call (ERROR_LOG "Program linking failed; see info log") ;;;
      call (glDeleteProgram pid) ;;;
      ret (false, shader)
    else
      SetProgramVariables shader ;;;
      ret (true, shader).

(** ** Functions that can leave defined behaviour

    [SetShader], [UploadConstants] and [GetShaderProgram] go through
    pointers; where the pointer is null, or points at a map node that is
    gone, the call has no result. *)
Inductive fault : Type :=
  | NullPointerDereference
  | DanglingPointerDereference.

Inductive outcome (A : Type) : Type :=
  | Returns (a : A) (st : state)
  | Faults (f : fault).
Arguments Returns {A} a st.
Arguments Faults {A} f.

Definition returns {A} (c : St A) : state -> outcome A :=
  fun st => let '(a, st') := c st in Returns a st'.

(** ** ProgramShaderCache::GetShaderId *)
Definition GetShaderId (p : pipeline_state) : St SHADERUID :=
  let uid :=
    mkSHADERUID
      (GetPixelShaderUidGL E (dstAlphaMode p) (components p) (xfmem p) (bpmem p))
      (GetVertexShaderUidGL E (components p) (xfmem p) (bpmem p))
      (GetGeometryShaderUid E (primitive_type p) (xfmem p)) in
  when (bEnableShaderDebugging E)
    (call (AddToIndexAndCheck_pixel
             (GeneratePixelShaderCodeGL E (dstAlphaMode p) (components p)
                (xfmem p) (bpmem p)) (puid uid)) ;;;
     call (AddToIndexAndCheck_vertex
             (GenerateVertexShaderCodeGL E (components p) (xfmem p) (bpmem p))
             (vuid uid)) ;;;
     call (AddToIndexAndCheck_geometry
             (GenerateGeometryShaderCode E (primitive_type p) (xfmem p))
             (guid uid))) ;;;
  ret uid.

(** ** ProgramShaderCache::SetShader

    The result is the pointer handed back: [None] for [nullptr], [Some k]
    for the address of the [shader] member of the map node of key [k]. *)

(** The three returns that bind [last_entry->shader] and hand it back. *)
Definition bind_last_entry (st : state) : outcome (option SHADERUID) :=
  match last_entry st with
  | None => Faults NullPointerDereference
  | Some k =>
      match pshaders st !! k with
      | None => Faults DanglingPointerDereference
      | Some entry =>
          returns
            (call (GFX_DEBUGGER_PAUSE_AT NEXT_PIXEL_SHADER_CHANGE) ;;;
             Bind (shader entry) ;;;
             ret (Some k)) st
      end
  end.

(** The value a map node is created with by [pshaders[uid]]. *)
Definition new_PCacheEntry : PCacheEntry :=
  mkPCacheEntry (mkSHADER (SHADER_initial_glprogid E) "" "" "") false.

Definition set_shader (s : SHADER) (e : PCacheEntry) : PCacheEntry :=
  mkPCacheEntry s (in_cache e).

(** The dumps made in debug builds when [CONF_SAVESHADERS] is logged. *)
Definition save_shaders (vcode pcode : string) (gcode : option string)
    : St unit :=
  when (CONF_SAVESHADERS_logged E)
    (c <- get save_counter ;;
     modify (set_save_counter (c + 1)) ;;;
     call (SaveData (DumpName "vs" c) vcode) ;;;
     c <- get save_counter ;;
     modify (set_save_counter (c + 1)) ;;;
     call (SaveData (DumpName "ps" c) pcode) ;;;
     match gcode with
     | Some g =>
         c <- get save_counter ;;
         modify (set_save_counter (c + 1)) ;;;
         call (SaveData (DumpName "gs" c) g)
     | None => ret tt
     end).

(** The three sources generated on a miss.  A [ShaderCode] nothing was
    written to has a null buffer: [gcode] is [None] then. *)
Definition vcode_of (p : pipeline_state) : string :=
  GenerateVertexShaderCodeGL E (components p) (xfmem p) (bpmem p).

Definition pcode_of (p : pipeline_state) : string :=
  GeneratePixelShaderCodeGL E (dstAlphaMode p) (components p) (xfmem p)
    (bpmem p).

Definition gcode_of (p : pipeline_state) (uid : SHADERUID) : option string :=
  if bSupportsGeometryShaders E && negb (IsPassthrough E (guid uid))
  then Some (GenerateGeometryShaderCode E (primitive_type p) (xfmem p))
  else None.

(** Where the first part of [SetShader], up to the call of
    [CompileShader], leaves the call: at one of the returns that bind
    [last_entry->shader], or with a new map node whose shader is about to
    be compiled, or nowhere defined. *)
Inductive lookup_result : Type :=
  | Found (st : state)
  | Missing (uid : SHADERUID) (newentry_shader : SHADER) (st : state)
  | Undefined (f : fault).

(** From [PCacheEntry& newentry = pshaders[uid]] to the debug dumps.
    Assigning the null buffer of [gcode] to [strgprog] is undefined. *)
Definition SetShader_new_entry (p : pipeline_state) (uid : SHADERUID)
    (st : state) : lookup_result :=
  let st := set_pshaders (<[uid := new_PCacheEntry]> (pshaders st)) st in
  let st := set_last_entry (Some uid) st in
  let vcode := vcode_of p in
  let pcode := pcode_of p in
  let gcode := gcode_of p uid in
  let captured :=
    if bEnableShaderDebugging E then
      match gcode with
      | Some g =>
          Some (mkSHADER (glprogid (shader new_PCacheEntry)) vcode pcode g)
      | None => None
      end
    else Some (shader new_PCacheEntry) in
  match captured with
  | None => Undefined NullPointerDereference
  | Some sh =>
      let st :=
        set_pshaders (<[uid := set_shader sh new_PCacheEntry]> (pshaders st)) st in
      let '(_, st) := save_shaders vcode pcode gcode st in
      Missing uid sh st
  end.

Definition SetShader_lookup (p : pipeline_state) (st : state)
    : lookup_result :=
  let '(uid, st) := GetShaderId p st in
  if bool_decide (is_Some (last_entry st)) && bool_decide (uid = last_uid st)
  then Found st
  else
    let st := set_last_uid uid st in
    match pshaders st !! uid with
    | Some _ => Found (set_last_entry (Some uid) st)
    | None => SetShader_new_entry p uid st
    end.

(** From [if (!CompileShader(newentry.shader, ...))] to the end.
    [newentry.shader] is the shader of the node of [uid]; what
    [CompileShader] did to it is stored back into the node. *)
Definition SetShader_compile (p : pipeline_state) (uid : SHADERUID)
    (sh : SHADER) (st : state) : outcome (option SHADERUID) :=
  let '((ok, sh'), st) :=
    CompileShader sh (vcode_of p) (pcode_of p) (gcode_of p uid) [] st in
  let st :=
    set_pshaders (<[uid := set_shader sh' new_PCacheEntry]> (pshaders st)) st in
  if negb ok then
    returns (call (GFX_DEBUGGER_PAUSE_AT NEXT_ERROR) ;;; ret None) st
  else
    let st := set_numPixelShadersCreated (numPixelShadersCreated st + 1) st in
    let st := set_numPixelShadersAlive (Z.of_nat (size (pshaders st))) st in
    bind_last_entry st.

Definition SetShader (p : pipeline_state) (st : state)
    : outcome (option SHADERUID) :=
  match SetShader_lookup p st with
  | Found st => bind_last_entry st
  | Missing uid sh st => SetShader_compile p uid sh st
  | Undefined f => Faults f
  end.

(** ** ProgramShaderCache::GetShaderProgram: [return *last_entry;] *)
Definition GetShaderProgram (st : state) : outcome PCacheEntry :=
  match last_entry st with
  | None => Faults NullPointerDereference
  | Some k =>
      match pshaders st !! k with
      | None => Faults DanglingPointerDereference
      | Some entry => Returns entry st
      end
  end.

(** ** ProgramShaderCache::GetCurrentProgram *)
Definition GetCurrentProgram (st : state) : Z := CurrentProgram st.

(** One [SetShader] call after the other, for a list of pipeline states;
    the pointers handed back are dropped. *)
Fixpoint SetShader_seq (ps : list pipeline_state) (st : state) : outcome unit :=
  match ps with
  | [] => Returns tt st
  | p :: ps' =>
      match SetShader p st with
      | Returns _ st' => SetShader_seq ps' st'
      | Faults f => Faults f
      end
  end.

(** ** The constant managers *)

(** Modelled from the spec: [IsDirty] of [PixelShaderManager],
    [VertexShaderManager] and [GeometryShaderManager] is not in this
    translation unit.  A source "reports unflushed changes": one flag per
    source, which [IsDirty] reads. *)
Definition PixelShaderManager_IsDirty : St bool := get pixel_dirty.
Definition VertexShaderManager_IsDirty : St bool := get vertex_dirty.
Definition GeometryShaderManager_IsDirty : St bool := get geometry_dirty.

(** Modelled from the spec: [Clear] of the three managers is not in this
    translation unit.  After an upload the sources "are marked clean":
    [Clear] resets the flag of its source. *)
Definition PixelShaderManager_Clear : St unit := modify (set_pixel_dirty false).
Definition VertexShaderManager_Clear : St unit := modify (set_vertex_dirty false).
Definition GeometryShaderManager_Clear : St unit :=
  modify (set_geometry_dirty false).

(** ** ProgramShaderCache::UploadConstants

    [Map] hands back a pointer and an offset; [memcpy] destinations are
    recorded as distances from that pointer, and the offset is what the
    oracle answers.  The condition is evaluated left to right and stops at
    the first source that is dirty. *)
Definition any_constants_dirty : St bool :=
  p <- PixelShaderManager_IsDirty ;;
  if p then ret true else
  v <- VertexShaderManager_IsDirty ;;
  if v then ret true else GeometryShaderManager_IsDirty.

Definition UploadConstants (st : state) : outcome unit :=
  let '(dirty, st) := any_constants_dirty st in
  if dirty then
    match s_buffer st with
    | None => Faults NullPointerDereference
    | Some buf =>
        returns
          (size <- get s_ubo_buffer_size ;;
           align <- get s_ubo_align ;;
           buffer_second <- ask (StreamBuffer_Map size align) ;;
           let dst := 0 in
           call (memcpy 0 PixelConstants (pixel_buffer_size E)) ;;;
           let dst := dst + ROUND_UP E (pixel_buffer_size E) align in
           call (memcpy dst VertexConstants (vertex_buffer_size E)) ;;;
           let dst := dst + ROUND_UP E (vertex_buffer_size E) align in
           call (memcpy dst GeometryConstants (sizeof_GeometryShaderConstants E)) ;;;
           call (StreamBuffer_Unmap size) ;;;
           call (glBindBufferRange GL_UNIFORM_BUFFER 1 (m_buffer buf)
                   buffer_second
                   (pixel_buffer_size E)) ;;;
           call (glBindBufferRange GL_UNIFORM_BUFFER 2 (m_buffer buf)
                   (buffer_second + ROUND_UP E (pixel_buffer_size E) align)
                   (vertex_buffer_size E)) ;;;
           call (glBindBufferRange GL_UNIFORM_BUFFER 3 (m_buffer buf)
                   (buffer_second + ROUND_UP E (pixel_buffer_size E) align
                    + ROUND_UP E (vertex_buffer_size E) align)
                   (sizeof_GeometryShaderConstants E)) ;;;
           PixelShaderManager_Clear ;;;
           VertexShaderManager_Clear ;;;
           GeometryShaderManager_Clear ;;;
           modify (fun st =>
             set_bytesUniformStreamed (bytesUniformStreamed st + size) st)) st
    end
  else Returns tt st.

(** ** ProgramShaderCacheInserter::Read

    [value] is the blob of [value_size] bytes; its first [sizeof(GLenum)]
    bytes are the format tag.  [binary_size] is a [GLint]. *)
Definition to_s32 (z : Z) : Z := (z + 2 ^ 31) mod 2 ^ 32 - 2 ^ 31.
Definition to_u32 (z : Z) : Z := z mod 2 ^ 32.

Definition Read (key : SHADERUID) (value : list Z) : St unit :=
  let value_size := Z.of_nat (List.length value) in
  let binary := drop (Z.to_nat sizeof_GLenum) value in
  let prog_format := take (Z.to_nat sizeof_GLenum) value in
  let binary_size := to_s32 (value_size - sizeof_GLenum) in
  pid <- ask glCreateProgram ;;
  let entry := mkPCacheEntry (set_glprogid pid (shader new_PCacheEntry)) true in
  call (glProgramBinary pid prog_format binary binary_size) ;;;
  success <- ask (glGetProgramiv pid GL_LINK_STATUS) ;;
  if negb (success =? 0) then
    modify (fun st => set_pshaders (<[key := entry]> (pshaders st)) st) ;;;
    SetProgramVariables (shader entry)
  else
    call (glDeleteProgram pid).

(** ** The disk cache file *)

(** Modelled from the spec: [LinearDiskCache::OpenAndRead] is not in this
    translation unit.  The file is "a sequence of variable-length
    records, each (Uid Key, blob)", and start-up "replays every record":
    each record is handed to the reader, in file order. *)
Definition OpenAndRead (reader : SHADERUID -> list Z -> St unit) : St unit :=
  call disk_cache_OpenAndRead ;;;
  records <- get g_program_disk_cache ;;
  for_each records (fun r => reader r.1 r.2).

(** Modelled from the spec: [LinearDiskCache::Append] is not in this
    translation unit.  Shut-down "appends the (key, blob) record to the
    disk log": the record goes behind the ones the file has. *)
Definition Append (key : SHADERUID) (value : list Z) : St unit :=
  modify (fun st =>
    set_g_program_disk_cache (g_program_disk_cache st ++ [(key, value)]) st).

(** ** ProgramShaderCache::CreateHeader *)
Definition GetGLSLVersionString : string :=
  let v := eSupportedGLSLVersion E in
  if v =? GLSLES_300 E then "#version 300 es"
  else if v =? GLSLES_310 E then "#version 310 es"
  else if v =? GLSLES_320 E then "#version 320 es"
  else if v =? GLSL_130 E then "#version 130"
  else if v =? GLSL_140 E then "#version 140"
  else if v =? GLSL_150 E then "#version 150"
  else "#version ERROR".

Definition opt (b : bool) (text : string) : string := if b then text else "".

Definition header_lines : list string :=
  let v := eSupportedGLSLVersion E in
  let is_glsles := GLSLES_300 E <=? v in
  let SupportedESPointSize_text :=
    if SupportedESPointSize E =? 1
    then "#extension GL_OES_geometry_point_size : enable"
    else if SupportedESPointSize E =? 2
    then "#extension GL_EXT_geometry_point_size : enable"
    else "" in
  [ GetGLSLVersionString;
    opt (v <? GLSL_140 E) "#extension GL_ARB_uniform_buffer_object : enable";
    opt (negb is_glsles && bSupportsEarlyZ E)
      "#extension GL_ARB_shader_image_load_store : enable";
    opt (bSupportsBindingLayout E && (v <? GLSLES_310 E))
      "#extension GL_ARB_shading_language_420pack : enable";
    opt (bSupportsMSAA E && (v <? GLSL_150 E))
      "#extension GL_ARB_texture_multisample : enable";
    opt (bSupportSampleShading E) "#extension GL_ARB_sample_shading : enable";
    (if bSupportsBindingLayout E
     then "#define SAMPLER_BINDING(x) layout(binding = x)"
     else "#define SAMPLER_BINDING(x)");
    opt (bSupportsBBox E)
      "#extension GL_ARB_shader_storage_buffer_object : enable";
    opt (negb is_glsles && bSupportsGSInstancing E)
      "#extension GL_ARB_gpu_shader5 : enable";
    SupportedESPointSize_text;
    opt (bSupportsAEP E) "#extension GL_ANDROID_extension_pack_es31a : enable";
    opt ((v <? GLSL_140 E) && bSupportsPaletteConversion E)
      "#extension GL_ARB_texture_buffer_object : enable";
    opt is_glsles "precision highp float;";
    opt is_glsles "precision highp int;";
    opt is_glsles "precision highp sampler2DArray;";
    "#define float2 vec2";
    "#define float3 vec3";
    "#define float4 vec4";
    "#define uint2 uvec2";
    "#define uint3 uvec3";
    "#define uint4 uvec4";
    "#define int2 ivec2";
    "#define int3 ivec3";
    "#define int4 ivec4";
    "#define float1x1 mat1";
    "#define float2x2 mat2";
    "#define float3x3 mat3";
    "#define float4x4 mat4";
    "#define float4x3 mat4x3";
    "#define float3x4 mat3x4";
    "#define frac fract";
    "#define lerp mix";
    "#define saturate(x) clamp(x, 0.0, 1.0)";
    "#define mul(x, y) (y * x)";
    opt (BUG_BROKENTEXTURESIZE E) "#define textureSize(x, y) ivec2(1, 1)";
    opt (BUG_BROKENCENTROID E) "#define centroid" ].

(** [snprintf] into [char s_glsl_header[1024]]: every line is followed by
    a line feed and at most 1023 characters are kept. *)
Definition CreateHeader : St unit :=
  modify (set_s_glsl_header
    (String.substring 0 1023
       (fold_right (fun line rest => line +:+ newline +:+ rest) "" header_lines))).

(** ** ProgramShaderCache::Init *)
Definition ubo_buffer_size (align : Z) : Z :=
  ROUND_UP E (pixel_buffer_size E) align
  + ROUND_UP E (vertex_buffer_size E) align
  + ROUND_UP E (sizeof_GeometryShaderConstants E) align.

(** The alignment query, the size of one upload and the stream buffer. *)
Definition Init_stream_buffer : St unit :=
  old <- get s_ubo_align ;;
  align <- ask_into (glGetIntegerv GL_UNIFORM_BUFFER_OFFSET_ALIGNMENT) old ;;
  modify (set_s_ubo_align align) ;;;
  modify (set_s_ubo_buffer_size (to_u32 (ubo_buffer_size align))) ;;;
  created <- ask (StreamBuffer_Create GL_UNIFORM_BUFFER UBO_LENGTH) ;;
  modify (set_s_buffer (Some (mkStreamBuffer created))).

(** [// Read our shader cache, only if supported] *)
Definition Init_shader_cache : St unit :=
  cache <- get bSupportsGLSLCache ;;
  when (cache && negb (g_Config_bEnableShaderDebugging E))
    (Supported <- ask (glGetIntegerv GL_NUM_PROGRAM_BINARY_FORMATS) ;;
     (if Supported =? 0 then
        call (ERROR_LOG "GL_ARB_get_program_binary is supported, but no binary format is known. So disable shader cache.") ;;;
        modify (set_bSupportsGLSLCache false)
      else
        present <- ask File_Exists_shader_cache_dir ;;
        when (present =? 0) (call File_CreateDir_shader_cache_dir) ;;;
        OpenAndRead Read) ;;;
     modify (fun st =>
       set_numPixelShadersAlive (Z.of_nat (size (pshaders st))) st)).

(** Everything [Init] does once the stream buffer exists. *)
Definition Init_after_stream_buffer : St unit :=
  Init_shader_cache ;;;
  CreateHeader ;;;
  modify (set_CurrentProgram 0) ;;;
  modify (set_last_entry None).

Definition Init : St unit :=
  Init_stream_buffer ;;;
  Init_after_stream_buffer.

(** ** ProgramShaderCache::Shutdown *)

(** Modelled from the spec: [PCacheEntry::Destroy] is declared in the
    header, which is not among the sources.  Teardown "destroys each GPU
    program object": [Destroy] deletes the program of the entry. *)
Definition Destroy (entry : PCacheEntry) : St unit :=
  call (glDeleteProgram (glprogid (shader entry))).

(** One turn of the loop that stores the programs not yet on disk.  The
    map is walked in the order [map_to_list] gives. *)
Definition store_entry (kv : SHADERUID * PCacheEntry) : St unit :=
  let entry := kv.2 in
  _ <- ask glGetError ;;
  if in_cache entry then ret tt else
  let id := glprogid (shader entry) in
  link_status <- ask_into (glGetProgramiv id GL_LINK_STATUS) GL_FALSE ;;
  delete_status <- ask_into (glGetProgramiv id GL_DELETE_STATUS) GL_TRUE ;;
  binary_size <- ask_into (glGetProgramiv id GL_PROGRAM_BINARY_LENGTH) 0 ;;
  err <- ask glGetError ;;
  if negb (err =? GL_NO_ERROR) || (link_status =? GL_FALSE)
     || (delete_status =? GL_TRUE) || (binary_size =? 0)
  then ret tt else
  written <- ask_bytes (glGetProgramBinary id binary_size) ;;
  let data := resize (Z.to_nat (binary_size + sizeof_GLenum)) 0 written in
  err <- ask glGetError ;;
  if negb (err =? GL_NO_ERROR) then ret tt else
  Append kv.1 data.

(** [// store all shaders in cache on disk] *)
Definition Shutdown_disk_cache : St unit :=
  cache <- get bSupportsGLSLCache ;;
  when (cache && negb (g_Config_bEnableShaderDebugging E))
    (entries <- get (fun st => map_to_list (pshaders st)) ;;
     for_each entries store_entry ;;;
     call disk_cache_Sync ;;;
     call disk_cache_Close).

Definition Shutdown : St unit :=
  Shutdown_disk_cache ;;;
  call (glUseProgram 0) ;;;
  entries <- get (fun st => map_to_list (pshaders st)) ;;
  for_each entries (fun kv => Destroy kv.2) ;;;
  modify (set_pshaders ∅) ;;;
  call Invalidate_pixel_uid_checker ;;;
  call Invalidate_vertex_uid_checker ;;;
  buf <- get s_buffer ;;
  when (bool_decide (is_Some buf)) (call StreamBuffer_delete) ;;;
  modify (set_s_buffer None).

(** * Vocabulary of the properties *)

(** [keeps R c]: whatever the state, running [c] relates the state before
    to the state after by [R]. *)
Definition keeps (R : state -> state -> Prop) {A} (c : St A) : Prop :=
  forall st, R st (c st).2.

(** [same f]: the part of the state read by [f] is the same. *)
Definition same {X} (f : state -> X) (a b : state) : Prop := f a = f b.

(** [grows ok]: the history was only added to, and every call that was
    added passes [ok]. *)
Definition grows (ok : event -> bool) (a b : state) : Prop :=
  exists new, trace b = trace a ++ new /\ forallb ok new = true.

(** The variables of the cache proper. *)
Definition cache_vars (st : state) :=
  (pshaders st, last_entry st, last_uid st).

(** The variables that size and hold the uniform stream buffer. *)
Definition ubo_vars (st : state) :=
  (s_ubo_buffer_size st, s_ubo_align st, s_buffer st).

(** How many calls of a history are of a given kind. *)
Fixpoint count_calls (kind : event -> bool) (t : list event) : nat :=
  match t with
  | [] => 0
  | e :: t' => ((if kind e then 1 else 0) + count_calls kind t')%nat
  end.

(** The driver is asked to make a program current. *)
Definition is_bind_call (e : event) : bool :=
  match e with
  | glUseProgram _ => true
  | _ => false
  end.

Definition bind_calls : list event -> nat := count_calls is_bind_call.

(** Some constant source reports changes that were not uploaded. *)
Definition constants_dirty (st : state) : bool :=
  pixel_dirty st || vertex_dirty st || geometry_dirty st.

(** What one upload asks of the stream buffer and of the driver, given
    the offset [Map] answered. *)
Definition upload_calls (buf : StreamBuffer) (size align offset : Z)
    : list event :=
  [ StreamBuffer_Map size align;
    memcpy 0 PixelConstants (pixel_buffer_size E);
    memcpy (ROUND_UP E (pixel_buffer_size E) align) VertexConstants
      (vertex_buffer_size E);
    memcpy (ROUND_UP E (pixel_buffer_size E) align
            + ROUND_UP E (vertex_buffer_size E) align) GeometryConstants
      (sizeof_GeometryShaderConstants E);
    StreamBuffer_Unmap size;
    glBindBufferRange GL_UNIFORM_BUFFER 1 (m_buffer buf) offset
      (pixel_buffer_size E);
    glBindBufferRange GL_UNIFORM_BUFFER 2 (m_buffer buf)
      (offset + ROUND_UP E (pixel_buffer_size E) align)
      (vertex_buffer_size E);
    glBindBufferRange GL_UNIFORM_BUFFER 3 (m_buffer buf)
      (offset + ROUND_UP E (pixel_buffer_size E) align
       + ROUND_UP E (vertex_buffer_size E) align)
      (sizeof_GeometryShaderConstants E) ].

(** Calls that map, copy into, unmap or bind ranges of the stream buffer. *)
Definition is_upload_work (e : event) : bool :=
  match e with
  | StreamBuffer_Map _ _ | StreamBuffer_Unmap _ | memcpy _ _ _
  | glBindBufferRange _ _ _ _ _ => true
  | _ => false
  end.

(** A state in which the stream buffer exists and one upload has the size
    [Init] computed for the alignment in force. *)
Definition ubo_ready (st : state) : Prop :=
  is_Some (s_buffer st) /\
  s_ubo_buffer_size st = to_u32 (ubo_buffer_size (s_ubo_align st)).

(** The key [GetShaderId] derives: a function of the pipeline state. *)
Definition uid_of (p : pipeline_state) : SHADERUID :=
  mkSHADERUID
    (GetPixelShaderUidGL E (dstAlphaMode p) (components p) (xfmem p) (bpmem p))
    (GetVertexShaderUidGL E (components p) (xfmem p) (bpmem p))
    (GetGeometryShaderUid E (primitive_type p) (xfmem p)).

(** The calls by which the compilation pipeline creates, feeds, compiles
    and links shader and program objects.  [CompileShader] starts with
    one of them whatever its arguments. *)
Definition is_compile_call (e : event) : bool :=
  match e with
  | glCreateShader _ | glShaderSource _ _ _ | glCompileShader _
  | glCreateProgram | glAttachShader _ _ | glLinkProgram _ => true
  | _ => false
  end.

Definition not_compile_call (e : event) : bool := negb (is_compile_call e).

(** A pointer into the map that can be followed: [last_entry] is null or
    points at the node of [last_uid]. *)
Definition cache_wf (st : state) : Prop :=
  match last_entry st with
  | None => True
  | Some k => k = last_uid st /\ is_Some (pshaders st !! k)
  end.


(** The driver is asked for the uniform-buffer offset alignment. *)
Definition is_alignment_query (e : event) : bool :=
  match e with
  | glGetIntegerv GL_UNIFORM_BUFFER_OFFSET_ALIGNMENT => true
  | _ => false
  end.

Definition not_alignment_query (e : event) : bool :=
  negb (is_alignment_query e).

(** Calls other than the ones that create a shader object or create,
    populate or link a program object. *)
Definition stage_body_call (e : event) : bool :=
  match e with
  | glCreateShader _ | glCreateProgram | glAttachShader _ _
  | glLinkProgram _ => false
  | _ => true
  end.

(** Every shader object created by the calls [new], made after the
    history [h], is deleted by a later one of these calls. *)
Definition stage_objects_deleted (h new : list event) : Prop :=
  forall pre type post,
    new = pre ++ glCreateShader type :: post ->
    let id := gl_answer E (h ++ pre ++ [glCreateShader type]) in
    id <> 0 -> glDeleteShader id ∈ post.

(** Calls on program objects that [CompileShader] makes once every stage
    has compiled. *)
Definition is_link_call (e : event) : bool :=
  match e with
  | glCreateProgram | glAttachShader _ _ | glLinkProgram _ => true
  | _ => false
  end.

(** The program object a record is loaded into, whether the driver then
    reports it as linked, and the map node made for it. *)
Definition Read_program (st : state) : Z :=
  gl_answer E (trace st ++ [glCreateProgram]).

Definition Read_loads (value : list Z) (st : state) : bool :=
  let pid := Read_program st in
  negb (gl_answer E
          (trace st ++
             [ glCreateProgram;
               glProgramBinary pid (take (Z.to_nat sizeof_GLenum) value)
                 (drop (Z.to_nat sizeof_GLenum) value)
                 (to_s32 (Z.of_nat (List.length value) - sizeof_GLenum));
               glGetProgramiv pid GL_LINK_STATUS ]) =? 0).

Definition loaded_entry (pid : Z) : PCacheEntry :=
  mkPCacheEntry (mkSHADER pid "" "" "") true.

(** The program of the last record of key [k] that loads, when the
    records are replayed in order from [st]. *)
Fixpoint last_loaded (k : SHADERUID) (records : list (SHADERUID * list Z))
    (st : state) : option Z :=
  match records with
  | [] => None
  | r :: rest =>
      match last_loaded k rest (Read r.1 r.2 st).2 with
      | Some pid => Some pid
      | None =>
          if bool_decide (r.1 = k) && Read_loads r.2 st
          then Some (Read_program st)
          else None
      end
  end.

(** The variables the disk part of [Shutdown] does not write. *)
Definition teardown_vars (st : state) :=
  (pshaders st, last_entry st, CurrentProgram st, s_buffer st).

(** The calls that destroy the programs of a map, in the order in which
    the map is walked. *)
Definition destroy_calls (m : gmap SHADERUID PCacheEntry) : list event :=
  map (fun kv : SHADERUID * PCacheEntry =>
         glDeleteProgram (glprogid (shader kv.2)))
      (map_to_list m).

(** The program the driver has as current after the calls [t]: the one of
    the last [glUseProgram], and 0 when there was none. *)
Definition driver_program (t : list event) : Z :=
  fold_left (fun cur e => match e with
                          | glUseProgram id => id
                          | _ => cur
                          end) t 0.

(** The tracked current program is the one the driver has as current. *)
Definition tracking_ok (st : state) : Prop :=
  CurrentProgram st = driver_program (trace st).

Definition tracked (a b : state) : Prop := tracking_ok a -> tracking_ok b.

Definition not_bind_call (e : event) : bool := negb (is_bind_call e).

(** Calls to the debugger and to the uid checkers. *)
Definition is_debug_call (e : event) : bool :=
  match e with
  | GFX_DEBUGGER_PAUSE_AT _ | AddToIndexAndCheck_pixel _ _
  | AddToIndexAndCheck_vertex _ _ | AddToIndexAndCheck_geometry _ _ => true
  | _ => false
  end.

(** The two statistics [SetShader] keeps of the programs it made. *)
Definition shader_stats (st : state) :=
  (numPixelShadersCreated st, numPixelShadersAlive st).

(** The keys of the nodes that did not come from the disk cache file, in
    the order in which the map is walked. *)
Definition unsaved (m : gmap SHADERUID PCacheEntry) : list SHADERUID :=
  (filter (fun kv : SHADERUID * PCacheEntry => in_cache kv.2 = false)
     (map_to_list m)).*1.

(** Every node of the map came from the disk cache file. *)
Definition all_in_cache (m : gmap SHADERUID PCacheEntry) : Prop :=
  map_Forall (fun _ entry => in_cache entry = true) m.

Definition in_cache_stays (a b : state) : Prop :=
  all_in_cache (pshaders a) -> all_in_cache (pshaders b).

(** A driver that reports no error, stores what it is asked for, and
    reports every program as linked, not flagged for deletion and with a
    binary of positive length. *)
Definition every_program_retrievable : Prop :=
  (forall t, gl_stores E t = true) /\
  (forall t, last t = Some glGetError -> gl_answer E t = GL_NO_ERROR) /\
  (forall t id, last t = Some (glGetProgramiv id GL_LINK_STATUS) ->
                gl_answer E t <> GL_FALSE) /\
  (forall t id, last t = Some (glGetProgramiv id GL_DELETE_STATUS) ->
                gl_answer E t <> GL_TRUE) /\
  (forall t id, last t = Some (glGetProgramiv id GL_PROGRAM_BINARY_LENGTH) ->
                0 < gl_answer E t).

(** The driver is asked to delete a program object. *)
Definition is_program_delete (e : event) : bool :=
  match e with
  | glDeleteProgram _ => true
  | _ => false
  end.

(** [CompileShader] in four parts: the stages; the program object from
    [glCreateProgram] to the deletion of the stage objects; the link
    status with its report; and what is done with the status. *)
Definition CompileShader_stages (vcode pcode : string) (gcode : option string)
    (macros : list string) : St (Z * Z * Z) :=
  vsid <- CompileSingleShader GL_VERTEX_SHADER vcode macros ;;
  psid <- CompileSingleShader GL_FRAGMENT_SHADER pcode macros ;;
  gsid <- match gcode with
          | Some g => CompileSingleShader GL_GEOMETRY_SHADER g macros
          | None => ret 0
          end ;;
  ret (vsid, psid, gsid).

Definition CompileShader_link (shader : SHADER) (vsid psid gsid : Z) : St Z :=
  pid <- ask glCreateProgram ;;
  call (glAttachShader pid vsid) ;;;
  call (glAttachShader pid psid) ;;;
  when (negb (gsid =? 0)) (call (glAttachShader pid gsid)) ;;;
  cache <- get bSupportsGLSLCache ;;
  when cache
    (call (glProgramParameteri pid GL_PROGRAM_BINARY_RETRIEVABLE_HINT GL_TRUE)) ;;;
  SetProgramBindings (set_glprogid pid shader) ;;;
  call (glLinkProgram pid) ;;;
  call (glDeleteShader vsid) ;;;
  call (glDeleteShader psid) ;;;
  call (glDeleteShader gsid) ;;;
  ret pid.

Definition CompileShader_link_status (pid : Z) (vcode pcode : string)
    (gcode : option string) : St Z :=
  linkStatus <- ask (glGetProgramiv pid GL_LINK_STATUS) ;;
  length <- ask_into (glGetProgramiv pid GL_INFO_LOG_LENGTH) 0 ;;
  when (negb (linkStatus =? GL_TRUE) || ((1 <? length) && DEBUG_GLSL E))
    (infoLog <- ask_text (glGetProgramInfoLog pid length) ;;
     call (ERROR_LOG ("Program info log:" +:+ newline +:+ infoLog)) ;;;
     n <- get num_failures ;;
     modify (set_num_failures (n + 1)) ;;;
     let filename := DumpName "bad_p" n in
     header <- get s_glsl_header ;;
     call (DumpFile filename
             (header +:+ vcode +:+ header +:+ pcode
              +:+ match gcode with
                  | Some g => header +:+ g
                  | None => ""
                  end
              +:+ infoLog)) ;;;
     when (negb (linkStatus =? GL_TRUE))
       (call (PanicAlert "Failed to link shaders" filename infoLog))) ;;;
  ret linkStatus.

Definition CompileShader_finish (shader : SHADER) (pid linkStatus : Z)
    : St (bool * SHADER) :=
  if negb (linkStatus =? GL_TRUE) then
    call (ERROR_LOG "Program linking failed; see info log") ;;;
    call (glDeleteProgram pid) ;;;
    ret (false, shader)
  else
    SetProgramVariables shader ;;;
    ret (true, shader).

(** A stage is missing: the condition under which [CompileShader] gives
    up before it creates a program. *)
Definition stage_missing (gcode : option string) (ids : Z * Z * Z) : bool :=
  (ids.1.1 =? 0) || (ids.1.2 =? 0)
  || (bool_decide (is_Some gcode) && (ids.2 =? 0)).

(** Calls other than the one that creates a shader object. *)
Definition not_create_shader (e : event) : bool :=
  match e with
  | glCreateShader _ => false
  | _ => true
  end.

(** Calls that neither create, link nor delete a shader or program
    object. *)
Definition not_object_call (e : event) : bool :=
  match e with
  | glCreateShader _ | glDeleteShader _ | glCreateProgram | glLinkProgram _
  | glDeleteProgram _ => false
  | _ => true
  end.

(** Nothing but the history differs. *)
Definition only_trace (a b : state) : Prop := b = set_trace (trace b) a.

(** Calls that neither touch the lifetime of an object nor make a program
    current. *)
Definition plain_call (e : event) : bool :=
  not_object_call e && not_bind_call e.

(** The numbers of the dump files written by the calls [t], in order. *)
Definition dump_indices (t : list event) : list Z :=
  omap (fun e => match e with
                 | DumpFile file _ => Some (dump_index file)
                 | _ => None
                 end) t.

(** The dumps written between two states are numbered from the failure
    counter onwards, and the counter has advanced by their number. *)
Definition dumps_numbered (a b : state) : Prop :=
  exists new,
    trace b = trace a ++ new /\
    dump_indices new
      = seqZ (num_failures a) (Z.of_nat (List.length (dump_indices new))) /\
    num_failures b
      = num_failures a + Z.of_nat (List.length (dump_indices new)).

Definition not_program_delete (e : event) : bool := negb (is_program_delete e).

(** A dump file is written. *)
Definition is_dump (e : event) : bool :=
  match e with
  | DumpFile _ _ => true
  | _ => false
  end.

(** The calls [SHADER::SetProgramBindings] makes, in order. *)
Definition binding_calls (s : SHADER) : list event :=
  (if bSupportsDualSourceBlend E
   then [ glBindFragDataLocationIndexed (glprogid s) 0 0 "ocol0";
          glBindFragDataLocationIndexed (glprogid s) 0 1 "ocol1" ]
   else [])
  ++ [ glBindAttribLocation (glprogid s) (SHADER_POSITION_ATTRIB E) "rawpos";
       glBindAttribLocation (glprogid s) (SHADER_POSMTX_ATTRIB E) "fposmtx";
       glBindAttribLocation (glprogid s) (SHADER_COLOR0_ATTRIB E) "color0";
       glBindAttribLocation (glprogid s) (SHADER_COLOR1_ATTRIB E) "color1";
       glBindAttribLocation (glprogid s) (SHADER_NORM0_ATTRIB E) "rawnorm0";
       glBindAttribLocation (glprogid s) (SHADER_NORM1_ATTRIB E) "rawnorm1";
       glBindAttribLocation (glprogid s) (SHADER_NORM2_ATTRIB E) "rawnorm2" ]
  ++ map (fun i => glBindAttribLocation (glprogid s)
                     (SHADER_TEXTURE0_ATTRIB E + i) ("tex" +:+ digit i))
       (seqZ 0 8).

(** A location of a vertex attribute or of a fragment output is bound. *)
Definition is_location_binding (e : event) : bool :=
  match e with
  | glBindAttribLocation _ _ _ | glBindFragDataLocationIndexed _ _ _ _ => true
  | _ => false
  end.

Definition not_location_binding (e : event) : bool :=
  negb (is_location_binding e).

(** Calls other than the one that links a program. *)
Definition not_link_program (e : event) : bool :=
  match e with
  | glLinkProgram _ => false
  | _ => true
  end.

(** Calls other than location bindings and links. *)
Definition behind_link_call (e : event) : bool :=
  not_location_binding e && not_link_program e.

(** A uniform block binding or a sampler assignment with an index or a
    location other than -1; any other call. *)
Definition found_uniform (e : event) : bool :=
  match e with
  | glUniformBlockBinding _ index _ => negb (index =? -1)
  | glUniform1i location _ => negb (location =? -1)
  | _ => true
  end.

(** Every location binding among the calls [new] comes before the link of
    the program, and all the bindings of [SetProgramBindings] are there. *)
Definition locations_bound_before_link (sh : SHADER) (new : list event)
    : Prop :=
  forall pre id post,
    new = pre ++ glLinkProgram id :: post ->
    count_calls is_location_binding post = 0%nat /\
    forall e, e ∈ binding_calls (set_glprogid id sh) -> e ∈ pre.

End ProgramShaderCache.

Arguments Returns {U A} a st.
Arguments Faults {U A} f.

(** * A concrete driver and concrete states

    One setting in which the functions above can be run: uids are
    integers, the driver hands out the length of the history as the name
    of each new object, and three of its answers can be chosen. *)

(** Modelled from the spec: the macro [ROUND_UP] comes from a header that
    is not among the sources.  A block is "rounded up to the
    driver-reported uniform-buffer alignment": to the least multiple of
    the alignment that is not below the size. *)
Definition round_up (x a : Z) : Z := (x + a - 1) / a * a.

#[global] Instance sample_uids : Uids := {|
  PixelShaderUid := Z;
  VertexShaderUid := Z;
  GeometryShaderUid := Z;
  XFMemory := unit;
  BPMemory := unit
|}.

Definition sample_driver (align compile_status link_status : Z)
    (t : list event) : Z :=
  match last t with
  | Some (glGetIntegerv GL_UNIFORM_BUFFER_OFFSET_ALIGNMENT) => align
  | Some (glGetIntegerv GL_NUM_PROGRAM_BINARY_FORMATS) => 1
  | Some (glCreateShader _) => Z.of_nat (List.length t)
  | Some glCreateProgram => Z.of_nat (List.length t)
  | Some (glGetShaderiv _ GL_COMPILE_STATUS) => compile_status
  | Some (glGetProgramiv _ GL_LINK_STATUS) => link_status
  | Some (glGetProgramiv _ GL_PROGRAM_BINARY_LENGTH) => 4
  | Some (StreamBuffer_Create _ _) => 7
  | Some (StreamBuffer_Map _ _) => 4096
  | Some File_Exists_shader_cache_dir => 1
  | _ => 0
  end.

Definition sample_env (align compile_status link_status : Z) : Env := {|
  GetPixelShaderUidGL := fun dst comps _ _ => dst;
  GetVertexShaderUidGL := fun comps _ _ => comps;
  GetGeometryShaderUid := fun prim _ => prim;
  IsPassthrough := fun g => g =? 0;
  GeneratePixelShaderCodeGL := fun _ _ _ _ => "void main() { ocol0 = colors_0; }";
  GenerateVertexShaderCodeGL := fun _ _ _ => "void main() { gl_Position = rawpos; }";
  GenerateGeometryShaderCode := fun _ _ => "void main() { EmitVertex(); }";
  gl_answer := sample_driver align compile_status link_status;
  gl_text := fun _ => "0:1: error";
  gl_bytes := fun _ => [1; 0; 0; 0; 42; 43; 44; 45];
  gl_stores := fun _ => true;
  bSupportsBindingLayout := true;
  bSupportsDualSourceBlend := true;
  bSupportsGeometryShaders := true;
  bSupportsEarlyZ := false;
  bSupportsBBox := false;
  bSupportsGSInstancing := false;
  bSupportsPaletteConversion := false;
  bEnableShaderDebugging := false;
  g_Config_bEnableShaderDebugging := false;
  CONF_SAVESHADERS_logged := false;
  bSupportsMSAA := false;
  bSupportSampleShading := false;
  bSupportsAEP := false;
  SupportedESPointSize := 0;
  eSupportedGLSLVersion := 2;
  GLSL_130 := 0;
  GLSL_140 := 1;
  GLSL_150 := 2;
  GLSLES_300 := 3;
  GLSLES_310 := 4;
  GLSLES_320 := 5;
  BUG_BROKENINFOLOG := false;
  BUG_BROKENTEXTURESIZE := false;
  BUG_BROKENCENTROID := false;
  DEBUG_GLSL := false;
  ROUND_UP := round_up;
  SHADER_POSITION_ATTRIB := 0;
  SHADER_POSMTX_ATTRIB := 1;
  SHADER_COLOR0_ATTRIB := 2;
  SHADER_COLOR1_ATTRIB := 3;
  SHADER_NORM0_ATTRIB := 4;
  SHADER_NORM1_ATTRIB := 5;
  SHADER_NORM2_ATTRIB := 6;
  SHADER_TEXTURE0_ATTRIB := 8;
  pixel_buffer_size := 1000;
  vertex_buffer_size := 2500;
  sizeof_GeometryShaderConstants := 48;
  SHADER_initial_glprogid := 0
|}.

(** A driver that compiles and links everything and reports an alignment
    of 256; one that compiles nothing; one that reports an alignment of
    zero. *)
Definition env_ok : Env := sample_env 256 1 1.
Definition env_no_compile : Env := sample_env 256 0 1.
Definition env_zero_alignment : Env := sample_env 0 1 1.

(** The variables as they are when the process starts, with the
    configured support for program binaries and the records of the disk
    cache file. *)
Definition boot (cache : bool) (disk : list (SHADERUID * list Z)) : state :=
  mkState [] 0 0 None 0 0 ∅ None (mkSHADERUID 0 0 0) "" cache 0 0 0 0
    false false false disk 0.

Definition state_A : pipeline_state := mkPipeline 0 1 0 tt tt.
Definition state_B : pipeline_state := mkPipeline 1 1 0 tt tt.

(** The state a call ended in. *)
Definition state_after {A} (o : outcome A) (otherwise : state) : state :=
  match o with
  | Returns _ st => st
  | Faults _ => otherwise
  end.



(** After [Init] with the driver that compiles everything; after a first
    [SetShader] for [state_A]; after one more for [state_B]. *)
Definition started : state := (Init (E := env_ok) (boot false [])).2.
Definition after_A : state :=
  state_after (SetShader (E := env_ok) state_A started) started.
Definition after_A_B : state :=
  state_after (SetShader_seq (E := env_ok) [state_B] after_A) after_A.

(** After [Init] with the driver that compiles nothing. *)
Definition started_no_compile : state :=
  (Init (E := env_no_compile) (boot false [])).2.

(** A disk cache file with two records for one key. *)
Definition key_A : SHADERUID := mkSHADERUID 0 1 0.
Definition two_records : list (SHADERUID * list Z) :=
  [ (key_A, [1; 0; 0; 0; 10; 11]); (key_A, [1; 0; 0; 0; 20; 21]) ].

(** A driver that compiles every stage and links nothing. *)
Definition env_no_link : Env := sample_env 256 1 0.

(** A state as it can be before [Shutdown]: the program of [key_A] was
    compiled in this run, the one of [key_B] came from the disk cache
    file, and [key_A] was resolved last. *)
Definition key_B : SHADERUID := mkSHADERUID 1 1 0.
Definition before_Shutdown : state :=
  mkState [] 3840 256 (Some (mkStreamBuffer 7)) 0 5
    (<[key_A := mkPCacheEntry (mkSHADER 5 "" "" "") false]>
       {[key_B := loaded_entry 9]})
    (Some key_A) key_A "" true 0 1 2 0 false false false
    [(key_B, [1; 0; 0; 0; 42])] 0.

(** [SetShader] for [state_A] with the driver that compiles nothing, from
    the variables as they are when the process starts. *)
Definition failed_A : state :=
  state_after (SetShader (E := env_no_compile) state_A (boot false []))
    (boot false []).

(** [CompileShader] of two stages with the driver that links nothing, and
    with the one that compiles and links everything. *)
Definition unlinked : bool * SHADER * state :=
  CompileShader (E := env_no_link) (mkSHADER 0 "" "" "") "vertex" "pixel"
    None [] (boot false []).
Definition linked : bool * SHADER * state :=
  CompileShader (E := env_ok) (mkSHADER 0 "" "" "") "vertex" "pixel"
    None [] (boot false []).

(** The setting of [env_ok] with another driver and with the active
    configuration's shader debugging switched on or off. *)
Definition sample_env_with (driver : list event -> Z) (debugging : bool)
    : Env :=
  let e := sample_env 256 1 1 in {|
  GetPixelShaderUidGL := GetPixelShaderUidGL e;
  GetVertexShaderUidGL := GetVertexShaderUidGL e;
  GetGeometryShaderUid := GetGeometryShaderUid e;
  IsPassthrough := IsPassthrough e;
  GeneratePixelShaderCodeGL := GeneratePixelShaderCodeGL e;
  GenerateVertexShaderCodeGL := GenerateVertexShaderCodeGL e;
  GenerateGeometryShaderCode := GenerateGeometryShaderCode e;
  gl_answer := driver;
  gl_text := gl_text e;
  gl_bytes := gl_bytes e;
  gl_stores := gl_stores e;
  bSupportsBindingLayout := bSupportsBindingLayout e;
  bSupportsDualSourceBlend := bSupportsDualSourceBlend e;
  bSupportsGeometryShaders := bSupportsGeometryShaders e;
  bSupportsEarlyZ := bSupportsEarlyZ e;
  bSupportsBBox := bSupportsBBox e;
  bSupportsGSInstancing := bSupportsGSInstancing e;
  bSupportsPaletteConversion := bSupportsPaletteConversion e;
  bEnableShaderDebugging := debugging;
  g_Config_bEnableShaderDebugging := g_Config_bEnableShaderDebugging e;
  CONF_SAVESHADERS_logged := CONF_SAVESHADERS_logged e;
  bSupportsMSAA := bSupportsMSAA e;
  bSupportSampleShading := bSupportSampleShading e;
  bSupportsAEP := bSupportsAEP e;
  SupportedESPointSize := SupportedESPointSize e;
  eSupportedGLSLVersion := eSupportedGLSLVersion e;
  GLSL_130 := GLSL_130 e;
  GLSL_140 := GLSL_140 e;
  GLSL_150 := GLSL_150 e;
  GLSLES_300 := GLSLES_300 e;
  GLSLES_310 := GLSLES_310 e;
  GLSLES_320 := GLSLES_320 e;
  BUG_BROKENINFOLOG := BUG_BROKENINFOLOG e;
  BUG_BROKENTEXTURESIZE := BUG_BROKENTEXTURESIZE e;
  BUG_BROKENCENTROID := BUG_BROKENCENTROID e;
  DEBUG_GLSL := DEBUG_GLSL e;
  ROUND_UP := ROUND_UP e;
  SHADER_POSITION_ATTRIB := SHADER_POSITION_ATTRIB e;
  SHADER_POSMTX_ATTRIB := SHADER_POSMTX_ATTRIB e;
  SHADER_COLOR0_ATTRIB := SHADER_COLOR0_ATTRIB e;
  SHADER_COLOR1_ATTRIB := SHADER_COLOR1_ATTRIB e;
  SHADER_NORM0_ATTRIB := SHADER_NORM0_ATTRIB e;
  SHADER_NORM1_ATTRIB := SHADER_NORM1_ATTRIB e;
  SHADER_NORM2_ATTRIB := SHADER_NORM2_ATTRIB e;
  SHADER_TEXTURE0_ATTRIB := SHADER_TEXTURE0_ATTRIB e;
  pixel_buffer_size := pixel_buffer_size e;
  vertex_buffer_size := vertex_buffer_size e;
  sizeof_GeometryShaderConstants := sizeof_GeometryShaderConstants e;
  SHADER_initial_glprogid := SHADER_initial_glprogid e
|}.

(** Shader debugging switched on, with the driver that compiles and links
    everything. *)
Definition env_debugging : Env := sample_env_with (sample_driver 256 1 1) true.




(** * Properties *)

Section Properties.

Context {U : Uids} {E : Env}.

Notation "x <- c ;; k" := (bind c (fun x => k))
  (at level 100, c at next level, right associativity).
Notation "c ;;; k" := (bind c (fun _ => k))
  (at level 100, right associativity).

(** ** What a sequence of statements leaves alone

    For a reflexive and transitive [R], [keeps R] goes through
    sequencing, conditionals and loops, so that it is enough to look at
    the primitive statements. *)

Section Frames.
Context (R : state -> state -> Prop) `{!PreOrder R}.

Lemma keeps_ret {A} (a : A) : keeps R (ret a).
Proof. intros st. reflexivity. Qed.

Lemma keeps_get {A} (f : state -> A) : keeps R (get f).
Proof. intros st. reflexivity. Qed.

Lemma keeps_bind {A B} (c : St A) (k : A -> St B) :
  keeps R c -> (forall a, keeps R (k a)) -> keeps R (bind c k).
Proof.
  intros Hc Hk st. unfold bind. specialize (Hc st).
  destruct (c st) as [a st1]. etrans; [exact Hc | apply Hk].
Qed.

Lemma keeps_when (b : bool) (c : St unit) : keeps R c -> keeps R (when b c).
Proof. intros Hc. destruct b; [exact Hc | apply keeps_ret]. Qed.

Lemma keeps_for_each {A} (l : list A) (body : A -> St unit) :
  (forall a, keeps R (body a)) -> keeps R (for_each l body).
Proof.
  intros Hb. induction l as [|a l IH]; cbn [for_each].
  - apply keeps_ret.
  - apply keeps_bind; [apply Hb | intros _; exact IH].
Qed.

Lemma keeps_modify (f : state -> state) :
  (forall st, R st (f st)) -> keeps R (modify f).
Proof. intros Hf st. apply Hf. Qed.

(** Running [c] from [st] when the result is named. *)
Lemma keeps_run {A} (c : St A) st a st' :
  keeps R c -> c st = (a, st') -> R st st'.
Proof. intros Hc Hrun. specialize (Hc st). by rewrite Hrun in Hc. Qed.
End Frames.

#[global] Instance same_preorder {X} (f : state -> X) : PreOrder (same f).
Proof. split; unfold same; [intros a | intros a b c]; congruence. Qed.

#[global] Instance grows_preorder ok : PreOrder (grows ok).
Proof.
  split.
  - intros a. exists []. by rewrite app_nil_r.
  - intros a b c [n1 [H1 F1]] [n2 [H2 F2]]. exists (n1 ++ n2). split.
    + by rewrite H2, H1, app_assoc.
    + by rewrite forallb_app, F1, F2.
Qed.

Lemma grows_append ok st t e :
  ok e = true -> t = trace st ++ [e] -> grows ok st (set_trace t st).
Proof. intros He ->. exists [e]. cbn. by rewrite He. Qed.

(** The primitive statements. *)
Section Primitives.
Context {X : Type} (f : state -> X).
Hypothesis f_trace : forall st t, f (set_trace t st) = f st.

Lemma same_call e : keeps (same f) (call e).
Proof. intros st. symmetry. apply f_trace. Qed.
Lemma same_ask e : keeps (same f) (ask e).
Proof. intros st. symmetry. apply f_trace. Qed.
Lemma same_ask_into e old : keeps (same f) (ask_into e old).
Proof. intros st. symmetry. apply f_trace. Qed.
Lemma same_ask_text e : keeps (same f) (ask_text e).
Proof. intros st. symmetry. apply f_trace. Qed.
Lemma same_ask_bytes e : keeps (same f) (ask_bytes e).
Proof. intros st. symmetry. apply f_trace. Qed.
End Primitives.

Section GrowingPrimitives.
Context (ok : event -> bool) (e : event).
Hypothesis ok_e : ok e = true.

Lemma grows_call : keeps (grows ok) (call e).
Proof. intros st. by apply (grows_append ok st _ e). Qed.
Lemma grows_ask : keeps (grows ok) (ask e).
Proof. intros st. by apply (grows_append ok st _ e). Qed.
Lemma grows_ask_into old : keeps (grows ok) (ask_into e old).
Proof. intros st. by apply (grows_append ok st _ e). Qed.
Lemma grows_ask_text : keeps (grows ok) (ask_text e).
Proof. intros st. by apply (grows_append ok st _ e). Qed.
Lemma grows_ask_bytes : keeps (grows ok) (ask_bytes e).
Proof. intros st. by apply (grows_append ok st _ e). Qed.
End GrowingPrimitives.

Lemma grows_modify ok (f : state -> state) :
  (forall st, trace (f st) = trace st) -> keeps (grows ok) (modify f).
Proof. intros Hf st. exists []. cbn. by rewrite Hf, app_nil_r. Qed.

(** Takes a goal [keeps R c] apart along the syntax of [c], down to the
    primitive statements; a function that has a lemma in the hint
    database [frames] is not opened.  What is left are the statements
    that do not respect [R]. *)
Create HintDb frames discriminated.

Ltac head_of t :=
  lazymatch t with
  | ?f _ => head_of f
  | _ => t
  end.

Ltac frame_prim same_lemma grows_lemma :=
  first [ apply same_lemma; intros; reflexivity
        | apply grows_lemma; reflexivity ].

Ltac frame_step :=
  lazymatch goal with
  | |- keeps _ (ret _) => apply keeps_ret; tc_solve
  | |- keeps _ (get _) => apply keeps_get; tc_solve
  | |- keeps _ (call _) => frame_prim same_call grows_call
  | |- keeps _ (ask _) => frame_prim same_ask grows_ask
  | |- keeps _ (ask_into _ _) => frame_prim same_ask_into grows_ask_into
  | |- keeps _ (ask_text _) => frame_prim same_ask_text grows_ask_text
  | |- keeps _ (ask_bytes _) => frame_prim same_ask_bytes grows_ask_bytes
  | |- keeps (same _) (modify _) => apply keeps_modify; intros; reflexivity
  | |- keeps (grows _) (modify _) => apply grows_modify; intros; reflexivity
  | |- keeps _ (when _ _) => apply keeps_when; [tc_solve | ]
  | |- keeps _ (for_each _ _) => apply keeps_for_each; [tc_solve | intros ]
  | |- keeps _ (bind _ _) => apply keeps_bind; [tc_solve | | intros ]
  | |- keeps _ (if ?b then _ else _) => destruct b
  | |- keeps _ (match ?x with _ => _ end) => destruct x
  | |- keeps _ (let _ := _ in _) => cbv zeta
  | |- keeps _ ?c =>
      first [ solve [auto 1 with frames]
            | let h := head_of c in unfold h ]
  end.

Ltac frame := repeat frame_step.

Lemma Bind_keeps_cache s : keeps (same cache_vars) (Bind s).
Proof. frame. Qed.
#[local] Hint Resolve Bind_keeps_cache : frames.

Lemma SetProgramVariables_keeps_cache s :
  keeps (same cache_vars) (SetProgramVariables s).
Proof. frame. Qed.
#[local] Hint Resolve SetProgramVariables_keeps_cache : frames.

Lemma SetProgramBindings_keeps_cache s :
  keeps (same cache_vars) (SetProgramBindings s).
Proof. frame. Qed.
#[local] Hint Resolve SetProgramBindings_keeps_cache : frames.

Lemma CompileSingleShader_keeps_cache type code macros :
  keeps (same cache_vars) (CompileSingleShader type code macros).
Proof. frame. Qed.
#[local] Hint Resolve CompileSingleShader_keeps_cache : frames.

Lemma CompileShader_keeps_cache sh vcode pcode gcode macros :
  keeps (same cache_vars) (CompileShader sh vcode pcode gcode macros).
Proof. frame. Qed.
#[local] Hint Resolve CompileShader_keeps_cache : frames.

(** ** Counting calls *)

Lemma count_calls_app kind t1 t2 :
  count_calls kind (t1 ++ t2) = (count_calls kind t1 + count_calls kind t2)%nat.
Proof. induction t1 as [|e t1 IH]; cbn; [done | rewrite IH; lia]. Qed.

Lemma count_calls_none kind t :
  Forall (fun e => kind e = false) t -> count_calls kind t = 0%nat.
Proof. induction 1 as [|e t He _ IH]; cbn; [done | by rewrite He, IH]. Qed.

(** ** Binding *)

(** C7.  Binding the program that is tracked as current leaves every
    variable as it was: no call reaches the driver and the shader-change
    counter keeps its value.  Binding any other program makes exactly one
    driver call, [glUseProgram] of that program, makes it the tracked
    current program and adds exactly one to the counter. *)
Theorem Bind_current_or_one_call (s : SHADER) (st : state) :
  (glprogid s = CurrentProgram st -> Bind s st = (tt, st)) /\
  (glprogid s <> CurrentProgram st ->
     trace (Bind s st).2 = trace st ++ [glUseProgram (glprogid s)] /\
     bind_calls (trace (Bind s st).2) = S (bind_calls (trace st)) /\
     CurrentProgram (Bind s st).2 = glprogid s /\
     numShaderChanges (Bind s st).2 = numShaderChanges st + 1).
Proof.
  unfold Bind, bind, get, modify, call, ret; cbn. split.
  - intros Heq. rewrite bool_decide_false by (intros Hne; apply Hne; done).
    reflexivity.
  - intros Hne. rewrite bool_decide_true by congruence. cbn.
    unfold bind_calls. rewrite count_calls_app. cbn.
    repeat split; [apply Nat.add_1_r].
Qed.

(** ** Uploading constants *)

Lemma any_constants_dirty_eq st :
  any_constants_dirty st = (constants_dirty st, st).
Proof.
  unfold any_constants_dirty, constants_dirty, PixelShaderManager_IsDirty,
    VertexShaderManager_IsDirty, GeometryShaderManager_IsDirty, bind, get, ret.
  destruct st as [? ? ? ? ? ? ? ? ? ? ? ? ? ? ? pd vd gd ? ?]; cbn.
  destruct pd, vd; reflexivity.
Qed.

(** The state an upload that is performed ends in. *)
Lemma UploadConstants_dirty st buf :
  constants_dirty st = true ->
  s_buffer st = Some buf ->
  let size := s_ubo_buffer_size st in
  let align := s_ubo_align st in
  let offset := gl_answer E (trace st ++ [StreamBuffer_Map size align]) in
  UploadConstants st =
    Returns tt
      (set_bytesUniformStreamed (bytesUniformStreamed st + size)
         (set_geometry_dirty false
            (set_vertex_dirty false
               (set_pixel_dirty false
                  (set_trace (trace st ++ upload_calls buf size align offset)
                     st))))).
Proof.
  intros Hd Hb. unfold UploadConstants. rewrite any_constants_dirty_eq, Hd, Hb.
  unfold returns, bind, get, ask, call, modify, PixelShaderManager_Clear,
    VertexShaderManager_Clear, GeometryShaderManager_Clear, upload_calls.
  cbn. repeat (rewrite <- app_assoc; cbn). reflexivity.
Qed.

Lemma UploadConstants_clean st :
  constants_dirty st = false -> UploadConstants st = Returns tt st.
Proof.
  intros Hd. unfold UploadConstants. by rewrite any_constants_dirty_eq, Hd.
Qed.

(** C8.  When no constant source is dirty [UploadConstants] changes
    nothing, so map, copy, unmap and bind work is only done when a source
    is dirty; an upload that is performed leaves the three sources clean;
    and the call that follows an [UploadConstants], with nothing in
    between, changes nothing and does no such work. *)
Theorem UploadConstants_uploads_only_when_dirty (st st1 : state) :
  UploadConstants st = Returns tt st1 ->
  (constants_dirty st = false -> st1 = st) /\
  (constants_dirty st = true ->
     pixel_dirty st1 = false /\ vertex_dirty st1 = false /\
     geometry_dirty st1 = false) /\
  UploadConstants st1 = Returns tt st1 /\
  (forall st2, UploadConstants st1 = Returns tt st2 ->
     st2 = st1 /\
     count_calls is_upload_work (trace st2)
       = count_calls is_upload_work (trace st1)).
Proof.
  intros Hrun.
  assert (Hclean : constants_dirty st1 = false).
  { destruct (constants_dirty st) eqn:Hd.
    - destruct (s_buffer st) as [buf|] eqn:Hb.
      + rewrite (UploadConstants_dirty st buf Hd Hb) in Hrun.
        injection Hrun as <-. reflexivity.
      + unfold UploadConstants in Hrun.
        rewrite any_constants_dirty_eq, Hd, Hb in Hrun. discriminate.
    - rewrite (UploadConstants_clean st Hd) in Hrun.
      injection Hrun as <-. exact Hd. }
  split; [|split; [|split]].
  - intros Hd. rewrite (UploadConstants_clean st Hd) in Hrun.
    by injection Hrun.
  - intros _. unfold constants_dirty in Hclean.
    destruct st1 as [? ? ? ? ? ? ? ? ? ? ? ? ? ? ? pd vd gd ? ?]; cbn in *.
    destruct pd, vd, gd; (discriminate || done).
  - apply UploadConstants_clean, Hclean.
  - intros st2 Hrun2.
    rewrite (UploadConstants_clean st1 Hclean) in Hrun2.
    injection Hrun2 as <-. done.
Qed.

(** *** The layout of one upload *)

Lemma Bind_keeps_ubo s : keeps (same ubo_vars) (Bind s).
Proof. frame. Qed.
#[local] Hint Resolve Bind_keeps_ubo : frames.

Lemma SetProgramVariables_keeps_ubo s :
  keeps (same ubo_vars) (SetProgramVariables s).
Proof. frame. Qed.
#[local] Hint Resolve SetProgramVariables_keeps_ubo : frames.

Lemma Read_keeps_ubo key value : keeps (same ubo_vars) (Read key value).
Proof. frame. Qed.
#[local] Hint Resolve Read_keeps_ubo : frames.

Lemma Init_shader_cache_keeps_ubo : keeps (same ubo_vars) Init_shader_cache.
Proof. frame. Qed.

Lemma CreateHeader_keeps_ubo : keeps (same ubo_vars) CreateHeader.
Proof. frame. Qed.

(** What [Init] leaves in the three variables of the stream buffer. *)
Lemma Init_ubo_vars st :
  let t := trace st ++ [glGetIntegerv GL_UNIFORM_BUFFER_OFFSET_ALIGNMENT] in
  let align := if gl_stores E t then gl_answer E t else s_ubo_align st in
  let created :=
    gl_answer E (t ++ [StreamBuffer_Create GL_UNIFORM_BUFFER UBO_LENGTH]) in
  ubo_vars (Init st).2
  = (to_u32 (ubo_buffer_size align), align, Some (mkStreamBuffer created)).
Proof.
  intros t align created. unfold Init, Init_after_stream_buffer.
  unfold bind at 1. destruct (Init_stream_buffer st) as [[] st1] eqn:Hrun1.
  assert (Hst1 : ubo_vars st1
    = (to_u32 (ubo_buffer_size align), align, Some (mkStreamBuffer created))).
  { revert Hrun1. unfold Init_stream_buffer, bind, get, ask_into, ask, modify.
    cbn. intros [= <-]. reflexivity. }
  rewrite <- Hst1. symmetry.
  unfold bind at 1. pose proof (Init_shader_cache_keeps_ubo st1) as Hk2.
  destruct (Init_shader_cache st1) as [[] st2]. cbn in Hk2. rewrite Hk2.
  unfold bind at 1. pose proof (CreateHeader_keeps_ubo st2) as Hk3.
  destruct (CreateHeader st2) as [[] st3]. cbn in Hk3. rewrite Hk3.
  reflexivity.
Qed.

Lemma Init_ubo_ready st : ubo_ready (Init st).2.
Proof.
  pose proof (Init_ubo_vars st) as Hv. cbv zeta in Hv.
  unfold ubo_vars in Hv. injection Hv as Hsize Halign Hbuf.
  split; [rewrite Hbuf; eauto | by rewrite Hsize, Halign].
Qed.

(** [SetShader] and [UploadConstants] leave the three variables of the
    stream buffer alone, so that a state stays ready for uploads. *)
Lemma bind_last_entry_keeps_ubo st r st' :
  bind_last_entry st = Returns r st' -> ubo_vars st' = ubo_vars st.
Proof.
  unfold bind_last_entry.
  destruct (last_entry st) as [k|]; [|discriminate].
  destruct (pshaders st !! k) as [entry|]; [|discriminate].
  unfold returns.
  destruct ((call (GFX_DEBUGGER_PAUSE_AT NEXT_PIXEL_SHADER_CHANGE) ;;;
             Bind (shader entry) ;;; ret (Some k)) st) as [r0 st0] eqn:Hrun.
  intros [= <- <-]. symmetry.
  refine (keeps_run (same ubo_vars) _ _ _ _ _ Hrun). frame.
Qed.

Lemma SetShader_lookup_keeps_ubo p st :
  match SetShader_lookup p st with
  | Found st' => ubo_vars st' = ubo_vars st
  | Missing _ _ st' => ubo_vars st' = ubo_vars st
  | Undefined _ => True
  end.
Proof.
  unfold SetShader_lookup.
  assert (Hid : keeps (same ubo_vars) (GetShaderId p)) by frame.
  specialize (Hid st). destruct (GetShaderId p st) as [uid st0].
  cbn [snd] in Hid. unfold same in Hid.
  destruct (_ && _); [done |].
  change (pshaders (set_last_uid uid st0)) with (pshaders st0).
  destruct (pshaders st0 !! uid); [by rewrite Hid |].
  unfold SetShader_new_entry.
  set (captured := if bEnableShaderDebugging E then _ else _).
  destruct captured as [sh0|]; [|done].
  match goal with
  | |- context [save_shaders ?v ?p' ?g ?s] =>
      assert (Hs : keeps (same ubo_vars) (save_shaders v p' g)) by frame;
      specialize (Hs s); destruct (save_shaders v p' g s) as [[] st2]
  end.
  cbn [snd] in Hs. unfold same in Hs. by rewrite Hid, <- Hs.
Qed.

Lemma SetShader_keeps_ubo p st r st' :
  SetShader p st = Returns r st' -> ubo_vars st' = ubo_vars st.
Proof.
  unfold SetShader. pose proof (SetShader_lookup_keeps_ubo p st) as Hlook.
  destruct (SetShader_lookup p st) as [st0|uid sh st0|f]; [| |discriminate].
  - intros Hrun%bind_last_entry_keeps_ubo. by etrans.
  - unfold SetShader_compile.
    assert (Hc : keeps (same ubo_vars)
                   (CompileShader sh (vcode_of p) (pcode_of p)
                      (gcode_of p uid) [])) by frame.
    specialize (Hc st0).
    destruct (CompileShader _ _ _ _ _ st0) as [[ok sh'] stc].
    cbn [snd] in Hc. unfold same in Hc. destruct ok; cbn.
    + intros Hrun%bind_last_entry_keeps_ubo.
      etrans; [exact Hrun |]. etrans; [|exact Hlook]. symmetry. exact Hc.
    + intros [= <- <-]. etrans; [|exact Hlook]. symmetry. exact Hc.
Qed.

Lemma SetShader_ubo_ready p st r st' :
  SetShader p st = Returns r st' -> ubo_ready st -> ubo_ready st'.
Proof.
  intros Hrun%SetShader_keeps_ubo [Hbuf Hsize]. unfold ubo_vars in Hrun.
  assert (Hs : s_ubo_buffer_size st' = s_ubo_buffer_size st)
    by exact (f_equal (fun v => v.1.1) Hrun).
  assert (Ha : s_ubo_align st' = s_ubo_align st)
    by exact (f_equal (fun v => v.1.2) Hrun).
  assert (Hb : s_buffer st' = s_buffer st) by exact (f_equal snd Hrun).
  split; [rewrite Hb; exact Hbuf | rewrite Hs, Ha; exact Hsize].
Qed.

Lemma UploadConstants_ubo_ready st st' :
  UploadConstants st = Returns tt st' -> ubo_ready st -> ubo_ready st'.
Proof.
  intros Hrun Hready. destruct (constants_dirty st) eqn:Hd.
  - destruct Hready as [[buf Hbuf] Hsize].
    rewrite (UploadConstants_dirty st buf Hd Hbuf) in Hrun.
    injection Hrun as <-. split; [exists buf; exact Hbuf | exact Hsize].
  - rewrite (UploadConstants_clean st Hd) in Hrun. by injection Hrun as <-.
Qed.

(** C9.  In a state that is ready for uploads, as it is after [Init] and
    stays under [SetShader] and [UploadConstants], and whose combined
    size fits the 32-bit variable that holds it, an upload that is
    performed maps exactly the
    sum of the three block sizes, each rounded up to the alignment; copies
    the pixel block to the start of the mapping, the vertex block behind
    the rounded pixel size and the geometry block behind the two rounded
    sizes; and then binds binding points 1, 2 and 3 to the three ranges
    that start at those places, counted from the offset of the mapping,
    with the unrounded length of each block. *)
Theorem UploadConstants_layout (st : state) :
  ubo_ready st ->
  constants_dirty st = true ->
  let align := s_ubo_align st in
  let pixel_rounded := ROUND_UP E (pixel_buffer_size E) align in
  let vertex_rounded := ROUND_UP E (vertex_buffer_size E) align in
  let geometry_rounded := ROUND_UP E (sizeof_GeometryShaderConstants E) align in
  let combined := pixel_rounded + vertex_rounded + geometry_rounded in
  0 <= combined < 2 ^ 32 ->
  exists st1 buf,
    UploadConstants st = Returns tt st1 /\
    s_buffer st = Some buf /\
    let offset :=
      gl_answer E (trace st ++ [StreamBuffer_Map combined align]) in
    trace st1 = trace st ++
      [ StreamBuffer_Map combined align;
        memcpy 0 PixelConstants (pixel_buffer_size E);
        memcpy pixel_rounded VertexConstants (vertex_buffer_size E);
        memcpy (pixel_rounded + vertex_rounded) GeometryConstants
          (sizeof_GeometryShaderConstants E);
        StreamBuffer_Unmap combined;
        glBindBufferRange GL_UNIFORM_BUFFER 1 (m_buffer buf) offset
          (pixel_buffer_size E);
        glBindBufferRange GL_UNIFORM_BUFFER 2 (m_buffer buf)
          (offset + pixel_rounded) (vertex_buffer_size E);
        glBindBufferRange GL_UNIFORM_BUFFER 3 (m_buffer buf)
          (offset + pixel_rounded + vertex_rounded)
          (sizeof_GeometryShaderConstants E) ].
Proof.
  intros [[buf Hbuf] Hsize] Hdirty align pr vr gr combined Hfit.
  assert (Hcombined : s_ubo_buffer_size st = combined).
  { rewrite Hsize. unfold to_u32, ubo_buffer_size.
    apply Z.mod_small. exact Hfit. }
  eexists _, buf. split; [apply (UploadConstants_dirty st buf Hdirty Hbuf) |].
  split; [exact Hbuf |].
  cbn. rewrite Hcombined. reflexivity.
Qed.

(** ** The in-memory cache *)

Lemma grows_no_compile a b :
  grows not_compile_call a b ->
  count_calls is_compile_call (trace b) = count_calls is_compile_call (trace a).
Proof.
  intros [new [-> Hnew]]. rewrite count_calls_app.
  rewrite (count_calls_none _ new); [lia |].
  apply Forall_forall. intros e He.
  rewrite forallb_forall in Hnew. specialize (Hnew e).
  rewrite <- list_elem_of_In in Hnew. specialize (Hnew He).
  unfold not_compile_call in Hnew. by destruct (is_compile_call e).
Qed.

Lemma same_cache_vars a b :
  same cache_vars a b ->
  pshaders b = pshaders a /\ last_entry b = last_entry a /\
  last_uid b = last_uid a.
Proof. unfold same, cache_vars. intros [= -> -> ->]. done. Qed.

Lemma GetShaderId_uid p st : (GetShaderId p st).1 = uid_of p.
Proof.
  unfold GetShaderId, uid_of, bind, when, ret.
  destruct (bEnableShaderDebugging E); reflexivity.
Qed.

Lemma GetShaderId_keeps_cache p : keeps (same cache_vars) (GetShaderId p).
Proof. frame. Qed.

Lemma GetShaderId_grows p : keeps (grows not_compile_call) (GetShaderId p).
Proof. frame. Qed.

Lemma Bind_grows s : keeps (grows not_compile_call) (Bind s).
Proof. frame. Qed.

Lemma save_shaders_keeps_cache v p' g :
  keeps (same cache_vars) (save_shaders v p' g).
Proof. frame. Qed.

(** The returns that bind [last_entry->shader]. *)
Lemma bind_last_entry_Some st k entry :
  last_entry st = Some k ->
  pshaders st !! k = Some entry ->
  exists st',
    bind_last_entry st = Returns (Some k) st' /\
    same cache_vars st st' /\
    grows not_compile_call st st' /\
    numPixelShadersCreated st' = numPixelShadersCreated st.
Proof.
  intros Hl Hk. unfold bind_last_entry. rewrite Hl, Hk.
  unfold returns.
  destruct ((call (GFX_DEBUGGER_PAUSE_AT NEXT_PIXEL_SHADER_CHANGE) ;;;
             Bind (shader entry) ;;; ret (Some k)) st) as [r st'] eqn:Hrun.
  assert (Hr : r = Some k).
  { revert Hrun. unfold bind, call, modify, ret.
    destruct (Bind (shader entry) _). by intros [= <- _]. }
  subst r. exists st'. split; [reflexivity |]. split; [|split].
  - eapply keeps_run; [ | exact Hrun]. frame.
  - eapply keeps_run; [ | exact Hrun]. frame.
  - symmetry.
    refine (keeps_run (same numPixelShadersCreated) _ _ _ _ _ Hrun). frame.
Qed.

Lemma bind_last_entry_Returns st r st' :
  bind_last_entry st = Returns r st' ->
  exists k entry,
    last_entry st = Some k /\ pshaders st !! k = Some entry /\ r = Some k /\
    same cache_vars st st'.
Proof.
  intros Hrun. unfold bind_last_entry in Hrun.
  destruct (last_entry st) as [k|] eqn:Hl; [|discriminate].
  destruct (pshaders st !! k) as [entry|] eqn:Hk; [|discriminate].
  fold (bind_last_entry st) in Hrun.
  destruct (bind_last_entry_Some st k entry Hl Hk) as (st2 & Hrun2 & Hc & _).
  unfold bind_last_entry in Hrun2. rewrite Hl, Hk in Hrun2.
  rewrite Hrun2 in Hrun. injection Hrun as <- <-. eauto 10.
Qed.

Lemma grows_same_trace ok a b : trace b = trace a -> grows ok a b.
Proof. intros Ht. exists []. by rewrite Ht, app_nil_r. Qed.

Lemma save_shaders_grows v p' g :
  keeps (grows not_compile_call) (save_shaders v p' g).
Proof. frame. Qed.

Lemma save_shaders_keeps_created v p' g :
  keeps (same numPixelShadersCreated) (save_shaders v p' g).
Proof. frame. Qed.

Lemma GetShaderId_keeps_created p :
  keeps (same numPixelShadersCreated) (GetShaderId p).
Proof. frame. Qed.

(** *** The first part of [SetShader] *)

Lemma SetShader_new_entry_not_Found p uid st st' :
  SetShader_new_entry p uid st <> Found st'.
Proof.
  unfold SetShader_new_entry.
  destruct (bEnableShaderDebugging E), (gcode_of p uid); try discriminate;
    destruct (save_shaders _ _ _ _); discriminate.
Qed.

Lemma SetShader_new_entry_Missing p uid st uid' sh st' :
  SetShader_new_entry p uid st = Missing uid' sh st' ->
  uid' = uid /\
  pshaders st' = <[uid := set_shader sh new_PCacheEntry]> (pshaders st) /\
  last_entry st' = Some uid /\ last_uid st' = last_uid st /\
  numPixelShadersCreated st' = numPixelShadersCreated st /\
  grows not_compile_call st st'.
Proof.
  unfold SetShader_new_entry.
  set (captured := if bEnableShaderDebugging E then _ else _).
  destruct captured as [sh0|]; [|discriminate].
  match goal with
  | |- context [save_shaders ?v ?p' ?g ?s] =>
      set (st1 := s);
      pose proof (save_shaders_keeps_cache v p' g st1) as Hc;
      pose proof (save_shaders_grows v p' g st1) as Hg;
      pose proof (save_shaders_keeps_created v p' g st1) as Hn;
      destruct (save_shaders v p' g st1) as [[] st2]
  end.
  intros [= -> -> ->]. cbn in Hc, Hg, Hn.
  apply same_cache_vars in Hc as (Hp & Hl & Hu).
  split; [done |]. rewrite Hp, Hl, Hu. subst st1. cbn.
  rewrite insert_insert_eq. repeat split; done.
Qed.

Lemma SetShader_lookup_Found p st st' :
  SetShader_lookup p st = Found st' ->
  grows not_compile_call st st' /\
  pshaders st' = pshaders st /\
  numPixelShadersCreated st' = numPixelShadersCreated st /\
  ((exists k, last_entry st = Some k /\ uid_of p = last_uid st /\
      last_entry st' = Some k /\ last_uid st' = last_uid st)
   \/ (is_Some (pshaders st !! uid_of p) /\
       last_entry st' = Some (uid_of p) /\ last_uid st' = uid_of p)).
Proof.
  unfold SetShader_lookup.
  pose proof (GetShaderId_uid p st) as Hid.
  pose proof (GetShaderId_keeps_cache p st) as Hc.
  pose proof (GetShaderId_grows p st) as Hg.
  pose proof (GetShaderId_keeps_created p st) as Hn.
  destruct (GetShaderId p st) as [uid st0]. cbn in Hid, Hc, Hg, Hn. subst uid.
  apply same_cache_vars in Hc as (Hp & Hl & Hu).
  destruct (bool_decide (is_Some (last_entry st0))
            && bool_decide (uid_of p = last_uid st0)) eqn:Hfast.
  - intros [= <-]. apply andb_true_iff in Hfast as [Hsome Heq].
    apply bool_decide_eq_true in Hsome as [k Hk], Heq.
    repeat split; try done. left. exists k.
    repeat split; congruence.
  - cbn. destruct (pshaders st0 !! uid_of p) as [entry|] eqn:Hlook.
    + intros [= <-]. cbn.
      split; [etrans; [exact Hg | by apply grows_same_trace] |].
      split; [done |]. split; [done |].
      right. rewrite <- Hp. eauto.
    + intros Hnew. by apply SetShader_new_entry_not_Found in Hnew.
Qed.

Lemma SetShader_lookup_Missing p st uid sh st' :
  SetShader_lookup p st = Missing uid sh st' ->
  uid = uid_of p /\
  pshaders st !! uid = None /\
  pshaders st' = <[uid := set_shader sh new_PCacheEntry]> (pshaders st) /\
  last_entry st' = Some uid /\ last_uid st' = uid /\
  numPixelShadersCreated st' = numPixelShadersCreated st /\
  grows not_compile_call st st'.
Proof.
  unfold SetShader_lookup.
  pose proof (GetShaderId_uid p st) as Hid.
  pose proof (GetShaderId_keeps_cache p st) as Hc.
  pose proof (GetShaderId_grows p st) as Hg.
  pose proof (GetShaderId_keeps_created p st) as Hn.
  destruct (GetShaderId p st) as [uid0 st0]. cbn in Hid, Hc, Hg, Hn.
  subst uid0. apply same_cache_vars in Hc as (Hp & Hl & Hu).
  destruct (bool_decide (is_Some (last_entry st0))
            && bool_decide (uid_of p = last_uid st0)); [discriminate |].
  cbn. destruct (pshaders st0 !! uid_of p) as [entry|] eqn:Hlook;
    [discriminate |].
  intros Hnew. apply SetShader_new_entry_Missing in Hnew
    as (-> & Hp' & Hl' & Hu' & Hn' & Hg').
  cbn in Hp', Hu', Hn'. rewrite <- Hp, Hp'.
  split; [done |]. split; [done |]. split; [done |]. split; [done |].
  split; [done |]. split; [congruence |].
  etrans; [exact Hg |]. etrans; [|exact Hg']. by apply grows_same_trace.
Qed.

(** *** The second part of [SetShader] *)

Lemma SetShader_compile_spec p uid sh st :
  last_entry st = Some uid ->
  exists ok sh' stc st',
    CompileShader sh (vcode_of p) (pcode_of p) (gcode_of p uid) [] st
      = ((ok, sh'), stc) /\
    SetShader_compile p uid sh st
      = Returns (if ok then Some uid else None) st' /\
    pshaders st' = <[uid := set_shader sh' new_PCacheEntry]> (pshaders st) /\
    last_entry st' = Some uid /\
    last_uid st' = last_uid st.
Proof.
  intros Hl. unfold SetShader_compile.
  pose proof (CompileShader_keeps_cache sh (vcode_of p) (pcode_of p)
                (gcode_of p uid) [] st) as Hc.
  destruct (CompileShader _ _ _ _ _ st) as [[ok sh'] stc]. cbn in Hc.
  apply same_cache_vars in Hc as (Hp & Hl' & Hu).
  exists ok, sh', stc.
  destruct ok; cbn.
  - match goal with
    | |- context [bind_last_entry ?s] =>
        destruct (bind_last_entry_Some s uid (set_shader sh' new_PCacheEntry))
          as (st' & Hrun & Hsame & _)
    end.
    + cbn. congruence.
    + cbn. apply lookup_insert_eq.
    + exists st'. apply same_cache_vars in Hsame as (Hp2 & Hl2 & Hu2).
      cbn in Hp2, Hl2, Hu2.
      split; [done |]. split; [exact Hrun |].
      split; [congruence |]. split; congruence.
  - eexists. split; [done |]. split; [reflexivity |]. cbn.
    split; [congruence |]. split; congruence.
Qed.

(** *** [SetShader] as a whole *)

(** The outcome of a call that returns, by the way it went. *)
Lemma SetShader_cases p st r st' :
  SetShader p st = Returns r st' ->
  (exists st0 k entry,
     SetShader_lookup p st = Found st0 /\
     last_entry st0 = Some k /\ pshaders st0 !! k = Some entry /\
     r = Some k /\ same cache_vars st0 st')
  \/
  (exists sh st0 ok sh' stc,
     SetShader_lookup p st = Missing (uid_of p) sh st0 /\
     CompileShader sh (vcode_of p) (pcode_of p) (gcode_of p (uid_of p)) [] st0
       = ((ok, sh'), stc) /\
     r = (if ok then Some (uid_of p) else None) /\
     pshaders st' = <[uid_of p := set_shader sh' new_PCacheEntry]> (pshaders st) /\
     last_entry st' = Some (uid_of p) /\
     last_uid st' = uid_of p).
Proof.
  unfold SetShader. intros Hrun.
  destruct (SetShader_lookup p st) as [st0|uid sh st0|f] eqn:Hlook;
    [| |discriminate].
  - left. apply bind_last_entry_Returns in Hrun
      as (k & entry & Hl & Hk & -> & Hsame).
    eauto 10.
  - right. apply SetShader_lookup_Missing in Hlook
      as (-> & Hnone & Hp & Hl & Hu & _ & _).
    destruct (SetShader_compile_spec p (uid_of p) sh st0 Hl)
      as (ok & sh' & stc & st2 & Hcomp & Hrun2 & Hp2 & Hl2 & Hu2).
    rewrite Hrun2 in Hrun. injection Hrun as <- <-.
    exists sh, st0, ok, sh', stc.
    split; [done |]. split; [done |]. split; [done |].
    split; [by rewrite Hp2, Hp, insert_insert_eq |].
    split; congruence.
Qed.

(** After a call that returns, [last_entry] points at a node of the map. *)
Lemma SetShader_last_entry p st r st' :
  SetShader p st = Returns r st' ->
  exists k entry, last_entry st' = Some k /\ pshaders st' !! k = Some entry.
Proof.
  intros Hrun. apply SetShader_cases in Hrun
    as [(st0 & k & entry & _ & Hl & Hk & _ & Hsame)
       |(sh & st0 & ok & sh' & stc & _ & _ & _ & Hp & Hl & _)].
  - apply same_cache_vars in Hsame as (Hp & Hl' & _).
    exists k, entry. split; congruence.
  - exists (uid_of p), (set_shader sh' new_PCacheEntry).
    split; [done |]. rewrite Hp. apply lookup_insert_eq.
Qed.

(** A node of the map is neither removed nor changed by a later call. *)
Lemma SetShader_keeps_entries p st r st' k entry :
  SetShader p st = Returns r st' ->
  pshaders st !! k = Some entry ->
  pshaders st' !! k = Some entry.
Proof.
  intros Hrun Hk. apply SetShader_cases in Hrun
    as [(st0 & k0 & entry0 & Hlook & _ & _ & _ & Hsame)
       |(sh & st0 & ok & sh' & stc & Hlook & _ & _ & Hp & _ & _)].
  - apply SetShader_lookup_Found in Hlook as (_ & Hp & _).
    apply same_cache_vars in Hsame as (Hp' & _). congruence.
  - apply SetShader_lookup_Missing in Hlook as (_ & Hnone & _).
    rewrite Hp. rewrite lookup_insert_ne; [done |]. congruence.
Qed.

Lemma SetShader_cache_wf p st r st' :
  SetShader p st = Returns r st' -> cache_wf st -> cache_wf st'.
Proof.
  intros Hrun Hwf. apply SetShader_cases in Hrun
    as [(st0 & k & entry & Hlook & Hl & Hk & _ & Hsame)
       |(sh & st0 & ok & sh' & stc & _ & _ & _ & Hp & Hl & Hu)].
  - apply same_cache_vars in Hsame as (Hp' & Hl' & Hu').
    apply SetShader_lookup_Found in Hlook as (_ & Hp & _ & Hway).
    unfold cache_wf in *. rewrite Hl', Hl, Hu', Hp'. rewrite Hk.
    split; [|eauto].
    destruct Hway as [(k' & Hk' & Huid & Hl0 & Hu0)|(_ & Hl0 & Hu0)].
    + rewrite Hk' in Hwf. destruct Hwf as [-> _]. congruence.
    + congruence.
  - unfold cache_wf. rewrite Hl, Hu, Hp. split; [done |].
    rewrite lookup_insert_eq. eauto.
Qed.

(** With [last_entry] in order, the pointer handed back is the address of
    the node of the key of the pipeline state. *)
Lemma SetShader_handle p st h st' :
  cache_wf st ->
  SetShader p st = Returns (Some h) st' ->
  h = uid_of p /\ is_Some (pshaders st' !! uid_of p).
Proof.
  intros Hwf Hrun. pose proof Hrun as Hcases. apply SetShader_cases in Hcases
    as [(st0 & k & entry & Hlook & Hl & Hk & [= ->] & Hsame)
       |(sh & st0 & ok & sh' & stc & _ & _ & Hr & Hp & _ & _)].
  - apply same_cache_vars in Hsame as (Hp' & _).
    apply SetShader_lookup_Found in Hlook as (_ & Hp & _ & Hway).
    assert (k = uid_of p) as ->.
    { destruct Hway as [(k' & Hk' & Huid & Hl0 & Hu0)|(_ & Hl0 & Hu0)].
      - unfold cache_wf in Hwf. rewrite Hk' in Hwf. destruct Hwf as [-> _].
        congruence.
      - congruence. }
    split; [done |]. rewrite Hp'. eauto.
  - destruct ok; [|discriminate]. injection Hr as ->.
    split; [done |]. rewrite Hp, lookup_insert_eq. eauto.
Qed.

(** A pipeline state whose key has a node is served from the map: the
    call returns the address of that node, leaves the map alone and asks
    nothing of the compilation pipeline. *)
Lemma SetShader_cached p st entry :
  cache_wf st ->
  pshaders st !! uid_of p = Some entry ->
  exists st',
    SetShader p st = Returns (Some (uid_of p)) st' /\
    pshaders st' = pshaders st /\
    grows not_compile_call st st' /\
    numPixelShadersCreated st' = numPixelShadersCreated st.
Proof.
  intros Hwf Hentry. unfold SetShader.
  destruct (SetShader_lookup p st) as [st0|uid sh st0|f] eqn:Hlook.
  - apply SetShader_lookup_Found in Hlook as (Hg & Hp & Hn & Hway).
    assert (Hl : last_entry st0 = Some (uid_of p)).
    { destruct Hway as [(k' & Hk' & Huid & Hl0 & Hu0)|(_ & Hl0 & Hu0)];
        [|done].
      unfold cache_wf in Hwf. rewrite Hk' in Hwf. destruct Hwf as [-> _].
      congruence. }
    destruct (bind_last_entry_Some st0 (uid_of p) entry Hl)
      as (st' & Hrun & Hsame & Hg' & Hn'); [congruence |].
    apply same_cache_vars in Hsame as (Hp' & _).
    exists st'. split; [done |]. split; [congruence |].
    split; [by etrans | congruence].
  - apply SetShader_lookup_Missing in Hlook as (-> & Hnone & _). congruence.
  - exfalso. revert Hlook. unfold SetShader_lookup.
    pose proof (GetShaderId_uid p st) as Hid.
    pose proof (GetShaderId_keeps_cache p st) as Hc.
    destruct (GetShaderId p st) as [uid st0]. cbn in Hid, Hc. subst uid.
    apply same_cache_vars in Hc as (Hp & _).
    destruct (_ && _); [discriminate |].
    change (pshaders (set_last_uid (uid_of p) st0)) with (pshaders st0).
    rewrite Hp, Hentry. discriminate.
Qed.

Lemma SetShader_seq_keeps ps st st' k entry :
  SetShader_seq ps st = Returns tt st' ->
  cache_wf st ->
  pshaders st !! k = Some entry ->
  cache_wf st' /\ pshaders st' !! k = Some entry.
Proof.
  revert st. induction ps as [|p ps IH]; intros st Hrun Hwf Hk; cbn in Hrun.
  - by injection Hrun as <-.
  - destruct (SetShader p st) as [r st1|f] eqn:Hp; [|discriminate].
    apply (IH st1 Hrun).
    + eapply SetShader_cache_wf; eauto.
    + eapply SetShader_keeps_entries; eauto.
Qed.

Lemma Init_last_entry st : last_entry (Init st).2 = None.
Proof.
  unfold Init, Init_after_stream_buffer, bind.
  destruct (Init_stream_buffer st) as [[] st1].
  destruct (Init_shader_cache st1) as [[] st2].
  destruct (CreateHeader st2) as [[] st3]. reflexivity.
Qed.

Lemma Init_cache_wf st : cache_wf (Init st).2.
Proof. unfold cache_wf. by rewrite Init_last_entry. Qed.

(** C1.  Starting from a state in which [last_entry] is in order, as it
    is after [Init]: when [SetShader] hands back a program for a pipeline
    state, then after any further [SetShader] calls a call with the same
    pipeline state hands back the same pointer, to a map node that still
    holds what it held after the first call, and that call asks nothing
    of the compilation pipeline. *)
Theorem SetShader_same_handle_without_recompiling
    (p : pipeline_state) (others : list pipeline_state)
    (st st1 st2 : state) (h : SHADERUID) :
  cache_wf st ->
  SetShader p st = Returns (Some h) st1 ->
  SetShader_seq others st1 = Returns tt st2 ->
  exists st3,
    SetShader p st2 = Returns (Some h) st3 /\
    is_Some (pshaders st1 !! h) /\
    pshaders st3 !! h = pshaders st1 !! h /\
    grows not_compile_call st2 st3 /\
    count_calls is_compile_call (trace st3)
      = count_calls is_compile_call (trace st2).
Proof.
  intros Hwf Hfirst Hbetween.
  destruct (SetShader_handle p st h st1 Hwf Hfirst) as [-> [entry Hentry]].
  pose proof (SetShader_cache_wf p st _ st1 Hfirst Hwf) as Hwf1.
  destruct (SetShader_seq_keeps others st1 st2 (uid_of p) entry Hbetween Hwf1
              Hentry) as [Hwf2 Hentry2].
  destruct (SetShader_cached p st2 entry Hwf2 Hentry2)
    as (st3 & Hagain & Hmap & Hgrows & _).
  exists st3. split; [exact Hagain |]. split; [eauto |].
  split; [by rewrite Hmap, Hentry2, Hentry |].
  split; [exact Hgrows | by apply grows_no_compile].
Qed.



(** C10.  [GetShaderProgram] follows [last_entry] without looking at it.
    Straight after [Init] the pointer is null and the call dereferences
    a null pointer; after a [SetShader] call that returned, the pointer
    is at a node of the map and the call hands back a copy of that node. *)
Theorem GetShaderProgram_after_Init_dereferences_null :
  (forall st, GetShaderProgram (Init st).2 = Faults NullPointerDereference) /\
  (forall p st r st',
     SetShader p st = Returns r st' ->
     exists k entry,
       last_entry st' = Some k /\ pshaders st' !! k = Some entry /\
       GetShaderProgram st' = Returns entry st').
Proof.
  split.
  - intros st. unfold GetShaderProgram. by rewrite Init_last_entry.
  - intros p st r st' Hrun.
    destruct (SetShader_last_entry p st r st' Hrun) as (k & entry & Hl & Hk).
    exists k, entry. unfold GetShaderProgram. by rewrite Hl, Hk.
Qed.

(** ** Start-up *)

Lemma count_calls_forallb_negb kind t :
  forallb (fun e => negb (kind e)) t = true -> count_calls kind t = 0%nat.
Proof.
  induction t as [|e t IH]; cbn; [done |].
  intros [He Ht]%andb_true_iff. rewrite (IH Ht).
  by destruct (kind e).
Qed.

Lemma Init_after_stream_buffer_no_query :
  keeps (grows not_alignment_query) Init_after_stream_buffer.
Proof. frame. Qed.

(** C5 as the code has it.  [Init] asks the driver for the uniform-buffer
    alignment exactly once, as its first call, and does not look at what
    it gets: whatever the value is, zero included, and also when the
    driver stores nothing and the variable keeps its old value, [Init]
    goes on to size one upload with it and to create the stream buffer. *)
Theorem Init_queries_alignment_once_unchecked (st : state) :
  let t := trace st ++ [glGetIntegerv GL_UNIFORM_BUFFER_OFFSET_ALIGNMENT] in
  let align := if gl_stores E t then gl_answer E t else s_ubo_align st in
  let create := StreamBuffer_Create GL_UNIFORM_BUFFER UBO_LENGTH in
  exists rest,
    trace (Init st).2 = t ++ create :: rest /\
    count_calls is_alignment_query
      (glGetIntegerv GL_UNIFORM_BUFFER_OFFSET_ALIGNMENT :: create :: rest)
      = 1%nat /\
    s_ubo_align (Init st).2 = align /\
    s_ubo_buffer_size (Init st).2 = to_u32 (ubo_buffer_size align) /\
    s_buffer (Init st).2
      = Some (mkStreamBuffer (gl_answer E (t ++ [create]))).
Proof.
  intros t align create.
  pose proof (Init_ubo_vars st) as Hvars. cbv zeta in Hvars.
  unfold ubo_vars in Hvars. injection Hvars as Hsize Halign Hbuf.
  change (Init st) with
    (Init_after_stream_buffer (Init_stream_buffer st).2) in *.
  destruct (Init_after_stream_buffer_no_query (Init_stream_buffer st).2)
    as (rest & Htrace & Hrest).
  exists rest. split; [|split; [|done]].
  - rewrite Htrace. unfold Init_stream_buffer, bind, get, ask_into, ask, modify.
    cbn. by rewrite <- app_assoc.
  - cbn. by rewrite (count_calls_forallb_negb _ _ Hrest).
Qed.

(** ** The compilation pipeline *)

(** What compiling one stage asks after the shader object exists: no
    object is created and nothing is linked, and the result is either the
    name of the object or, after deleting the object, 0. *)
Lemma CompileSingleShader_source_spec type code macros result st :
  let r := CompileSingleShader_source type code macros result st in
  exists new,
    trace r.2 = trace st ++ new /\
    forallb stage_body_call new = true /\
    (r.1 = result \/ (r.1 = 0 /\ glDeleteShader result ∈ new)).
Proof.
  unfold CompileSingleShader_source, bind, get, call, ask, ask_into, ask_text,
    modify, when, ret.
  cbn.
  destruct (negb (_ =? GL_TRUE)) eqn:Hstatus; cbn;
    [| destruct ((1 <? _) && DEBUG_GLSL E); cbn ];
    repeat (rewrite <- app_assoc; cbn);
    (eexists; split; [reflexivity |]; split; [reflexivity |]).
  - right. split; [reflexivity |]. set_solver.
  - by left.
  - by left.
Qed.

Lemma CompileSingleShader_spec type code macros st :
  let r := CompileSingleShader type code macros st in
  let id := gl_answer E (trace st ++ [glCreateShader type]) in
  exists mid,
    trace r.2 = trace st ++ glCreateShader type :: mid /\
    forallb stage_body_call mid = true /\
    (r.1 = id \/ (r.1 = 0 /\ glDeleteShader id ∈ mid)).
Proof.
  intros r id. subst r. unfold CompileSingleShader, bind, ask.
  match goal with
  | |- context [CompileSingleShader_source ?t ?c ?m ?res ?s] =>
      destruct (CompileSingleShader_source_spec t c m res s)
        as (mid & Htrace & Hok & Hres)
  end.
  exists mid. rewrite Htrace. cbn. rewrite <- app_assoc. done.
Qed.

(** A stage the driver reports as not compiled gives 0. *)
Lemma CompileSingleShader_not_compiled type code macros st :
  let id := gl_answer E (trace st ++ [glCreateShader type]) in
  let asked :=
    trace st ++
      [ glCreateShader type;
        glShaderSource id (Z.of_nat (List.length macros) + 2)
          (s_glsl_header st :: macros ++ [code]);
        glCompileShader id;
        glGetShaderiv id GL_COMPILE_STATUS ] in
  gl_answer E asked <> GL_TRUE ->
  (CompileSingleShader type code macros st).1 = 0.
Proof.
  intros id asked Hstatus.
  unfold CompileSingleShader, CompileSingleShader_source, bind, get, call,
    ask, ask_into, ask_text, modify, when, ret.
  cbn. repeat (rewrite <- app_assoc; cbn).
  destruct (negb (_ =? GL_TRUE)) eqn:Hs; cbn.
  - reflexivity.
  - apply negb_false_iff, Z.eqb_eq in Hs. exfalso. apply Hstatus. exact Hs.
Qed.

Lemma split_behind_stage_body mid rest pre type post :
  forallb stage_body_call mid = true ->
  mid ++ rest = pre ++ glCreateShader type :: post ->
  exists pre', pre = mid ++ pre' /\ rest = pre' ++ glCreateShader type :: post.
Proof.
  revert pre. induction mid as [|e mid IH]; intros pre Hmid Hsplit.
  - exists pre. done.
  - cbn in Hmid. apply andb_true_iff in Hmid as [He Hmid].
    destruct pre as [|e' pre]; cbn in Hsplit; injection Hsplit as -> Hsplit.
    + discriminate.
    + destruct (IH pre Hmid Hsplit) as (pre' & -> & ->). by exists pre'.
Qed.

Lemma stage_objects_deleted_body h l :
  forallb stage_body_call l = true -> stage_objects_deleted h l.
Proof.
  intros Hl pre type post Hsplit.
  rewrite <- (app_nil_r l) in Hsplit.
  apply split_behind_stage_body in Hsplit as (pre' & _ & Hnil); [|done].
  by destruct pre'.
Qed.

Lemma stage_objects_deleted_stage h type mid rest :
  forallb stage_body_call mid = true ->
  (gl_answer E (h ++ [glCreateShader type]) <> 0 ->
   glDeleteShader (gl_answer E (h ++ [glCreateShader type])) ∈ mid ++ rest) ->
  stage_objects_deleted (h ++ glCreateShader type :: mid) rest ->
  stage_objects_deleted h (glCreateShader type :: mid ++ rest).
Proof.
  intros Hmid Hthis Hrest pre type' post Hsplit.
  destruct pre as [|e pre]; cbn in Hsplit; injection Hsplit as Hhead Hsplit.
  - intros id. subst id. cbn. rewrite <- Hhead, <- Hsplit. exact Hthis.
  - subst e. apply split_behind_stage_body in Hsplit
      as (pre' & -> & Hsplit); [|done].
    specialize (Hrest pre' type' post Hsplit). cbn in Hrest. cbn.
    by rewrite <- !app_assoc in *.
Qed.

Lemma stage_body_not_link l :
  forallb stage_body_call l = true -> count_calls is_link_call l = 0%nat.
Proof.
  induction l as [|e l IH]; cbn; [done |].
  intros [He Hl]%andb_true_iff. rewrite (IH Hl). by destruct e.
Qed.

(** C6.  When a stage of a compilation request comes back as 0, that is,
    fails to compile: [CompileShader] returns false and leaves the shader
    it was given as it was; no program object is created, nothing is
    attached and nothing is linked; and every shader object created for
    the request, for a stage that compiled as much as for one that did
    not, is deleted before [CompileShader] returns. *)
Theorem CompileShader_failed_stage_deletes_all_stages
    (sh : SHADER) (vcode pcode : string) (gcode : option string)
    (macros : list string) (st : state) :
  let v := CompileSingleShader GL_VERTEX_SHADER vcode macros st in
  let f := CompileSingleShader GL_FRAGMENT_SHADER pcode macros v.2 in
  let g := match gcode with
           | Some code =>
               CompileSingleShader GL_GEOMETRY_SHADER code macros f.2
           | None => (0, f.2)
           end in
  v.1 = 0 \/ f.1 = 0 \/ (is_Some gcode /\ g.1 = 0) ->
  exists new,
    (CompileShader sh vcode pcode gcode macros st).1 = (false, sh) /\
    trace (CompileShader sh vcode pcode gcode macros st).2 = trace st ++ new /\
    count_calls is_link_call new = 0%nat /\
    stage_objects_deleted (trace st) new.
Proof.
  intros v f g Hfail. subst v f g. unfold CompileShader, bind.
  pose proof (CompileSingleShader_spec GL_VERTEX_SHADER vcode macros st) as Hv.
  cbv zeta in Hv.
  destruct (CompileSingleShader GL_VERTEX_SHADER vcode macros st)
    as [vsid st_v].
  cbn [fst snd] in *. destruct Hv as (mid_v & Htv & Hmv & Hrv).
  pose proof (CompileSingleShader_spec GL_FRAGMENT_SHADER pcode macros st_v)
    as Hf.
  cbv zeta in Hf.
  destruct (CompileSingleShader GL_FRAGMENT_SHADER pcode macros st_v)
    as [psid st_f].
  cbn [fst snd] in *. destruct Hf as (mid_f & Htf & Hmf & Hrf).
  rewrite Htv in Hrf, Htf.
  (* the geometry stage, when there is one *)
  assert (Hg : exists gsid st_g part,
    match gcode with
    | Some code => CompileSingleShader GL_GEOMETRY_SHADER code macros st_f
    | None => (0, st_f)
    end = (gsid, st_g) /\
    match gcode with
    | Some code => CompileSingleShader GL_GEOMETRY_SHADER code macros
    | None => ret 0
    end st_f = (gsid, st_g) /\
    trace st_g = trace st_f ++ part /\
    count_calls is_link_call part = 0%nat /\
    forall rest,
      glDeleteShader gsid ∈ rest ->
      forallb stage_body_call rest = true ->
      stage_objects_deleted (trace st_f) (part ++ rest)).
  { destruct gcode as [code|].
    - pose proof (CompileSingleShader_spec GL_GEOMETRY_SHADER code macros st_f)
        as Hg.
      cbv zeta in Hg.
      destruct (CompileSingleShader GL_GEOMETRY_SHADER code macros st_f)
        as [gsid st_g].
      cbn [fst snd] in *. destruct Hg as (mid_g & Htg & Hmg & Hrg).
      exists gsid, st_g, (glCreateShader GL_GEOMETRY_SHADER :: mid_g).
      split; [done |]. split; [done |]. split; [done |].
      split; [cbn; by rewrite stage_body_not_link |].
      intros rest Hdel Hrest. cbn.
      apply stage_objects_deleted_stage; [done | |].
      + intros _. apply elem_of_app.
        destruct Hrg as [<-|[_ Hin]]; [by right | by left].
      + by apply stage_objects_deleted_body.
    - exists 0, st_f, []. split; [done |]. split; [done |].
      split; [by rewrite app_nil_r |].
      split; [done |]. intros rest _ Hrest. cbn.
      by apply stage_objects_deleted_body. }
  destruct Hg as (gsid & st_g & part & Hgeq & Hgrun & Htg & Hlg & Hdg).
  rewrite Hgeq in Hfail. rewrite Hgrun. cbn [fst snd] in *.
  assert (Hcond : (vsid =? 0) || (psid =? 0)
                  || (bool_decide (is_Some gcode) && (gsid =? 0)) = true).
  { destruct Hfail as [->|[->|[Hsome ->]]].
    - done.
    - by rewrite orb_true_r.
    - rewrite bool_decide_true by done. by rewrite orb_true_r. }
  rewrite Hcond. unfold call, modify, ret. cbn.
  set (dels := [glDeleteShader vsid; glDeleteShader psid; glDeleteShader gsid]).
  assert (Hdv : glDeleteShader vsid ∈ dels) by (subst dels; apply list_elem_of_here).
  assert (Hdf : glDeleteShader psid ∈ dels)
    by (subst dels; apply list_elem_of_further, list_elem_of_here).
  assert (Hdgs : glDeleteShader gsid ∈ dels)
    by (subst dels; do 2 apply list_elem_of_further; apply list_elem_of_here).
  exists (glCreateShader GL_VERTEX_SHADER :: mid_v
          ++ glCreateShader GL_FRAGMENT_SHADER :: mid_f ++ part ++ dels).
  split; [done |]. split; [|split].
  - rewrite Htg, Htf. subst dels. cbn. by rewrite <- !app_assoc.
  - cbn. rewrite !count_calls_app. cbn. rewrite !count_calls_app.
    rewrite (stage_body_not_link _ Hmv), (stage_body_not_link _ Hmf), Hlg.
    done.
  - apply stage_objects_deleted_stage; [done | |].
    + intros _. apply elem_of_app.
      destruct Hrv as [<-|[_ Hin]]; [right | by left].
      apply list_elem_of_further, elem_of_app. right.
      apply elem_of_app. by right.
    + apply stage_objects_deleted_stage; [done | |].
      * intros _. apply elem_of_app.
        destruct Hrf as [<-|[_ Hin]]; [right | by left].
        apply elem_of_app. by right.
      * rewrite <- Htf. by apply Hdg.
Qed.

(** ** Replaying the disk cache *)

Lemma SetProgramVariables_keeps_pshaders s :
  keeps (same pshaders) (SetProgramVariables s).
Proof. frame. Qed.

(** A record that loads is stored under its key whether or not the key
    has a node already; a record that does not load changes nothing. *)
Lemma Read_pshaders key value st :
  pshaders (Read key value st).2
  = if Read_loads value st
    then <[key := loaded_entry (Read_program st)]> (pshaders st)
    else pshaders st.
Proof.
  unfold Read, Read_loads, Read_program, bind, ask, call, modify.
  cbn. repeat (rewrite <- app_assoc; cbn).
  destruct (negb (_ =? 0)); cbn; [|reflexivity].
  match goal with
  | |- context [SetProgramVariables ?s ?st1] =>
      pose proof (SetProgramVariables_keeps_pshaders s st1) as Hk;
      destruct (SetProgramVariables s st1) as [[] st2]
  end.
  unfold same in Hk. exact (eq_sym Hk).
Qed.

Lemma replay_last_loaded k records st :
  pshaders (for_each records (fun r => Read r.1 r.2) st).2 !! k
  = match last_loaded k records st with
    | Some pid => Some (loaded_entry pid)
    | None => pshaders st !! k
    end.
Proof.
  revert st. induction records as [|r rest IH]; intros st; cbn [for_each].
  - reflexivity.
  - unfold bind. cbn [last_loaded].
    pose proof (Read_pshaders r.1 r.2 st) as Hread.
    destruct (Read r.1 r.2 st) as [[] st1]. cbn [snd] in *.
    rewrite IH. destruct (last_loaded k rest st1) as [pid|]; [done |].
    rewrite Hread. destruct (Read_loads r.2 st); cbn.
    + destruct (decide (r.1 = k)) as [->|Hne].
      * rewrite bool_decide_true by done. apply lookup_insert_eq.
      * rewrite bool_decide_false by done. by apply lookup_insert_ne.
    + by rewrite andb_false_r.
Qed.

(** C2 as the code has it.  During the replay of the disk cache every
    record that loads is stored under its key, replacing what an earlier
    record of the same key left there: for each key the node made from
    the last record that loads stays, and a key none of whose records
    loads keeps what it had. *)
Theorem OpenAndRead_last_loaded_record_wins (st : state) (k : SHADERUID) :
  pshaders (OpenAndRead Read st).2 !! k
  = match last_loaded k (g_program_disk_cache st)
            (call disk_cache_OpenAndRead st).2 with
    | Some pid => Some (loaded_entry pid)
    | None => pshaders st !! k
    end.
Proof.
  exact (replay_last_loaded k (g_program_disk_cache st)
           (call disk_cache_OpenAndRead st).2).
Qed.

(** ** Tear-down *)

Lemma for_each_Destroy entries st :
  for_each entries (fun kv : SHADERUID * PCacheEntry => Destroy kv.2) st
  = (tt, set_trace
           (trace st ++
              map (fun kv : SHADERUID * PCacheEntry =>
                     glDeleteProgram (glprogid (shader kv.2))) entries) st).
Proof.
  revert st. induction entries as [|kv entries IH]; intros st; cbn.
  - by rewrite app_nil_r.
  - unfold bind, Destroy, call, modify. rewrite IH. cbn.
    by rewrite <- app_assoc.
Qed.

Lemma Shutdown_disk_cache_keeps :
  keeps (same teardown_vars) Shutdown_disk_cache.
Proof. frame. Qed.

Lemma Shutdown_disk_cache_grows :
  keeps (grows (fun _ => true)) Shutdown_disk_cache.
Proof. frame. Qed.

(** The state [Shutdown] ends in, from the state its disk part ends in. *)
Lemma Shutdown_eq st :
  let st1 := (Shutdown_disk_cache st).2 in
  Shutdown st
  = (tt,
     set_s_buffer None
       (set_pshaders ∅
          (set_trace
             (trace st1 ++ glUseProgram 0 :: destroy_calls (pshaders st1)
                ++ Invalidate_pixel_uid_checker
                :: Invalidate_vertex_uid_checker
                :: (if bool_decide (is_Some (s_buffer st1))
                    then [StreamBuffer_delete] else []))
             st1))).
Proof.
  unfold Shutdown, destroy_calls. unfold bind at 1.
  destruct (Shutdown_disk_cache st) as [[] st1]. cbn [snd].
  destruct st1 as [t1 ? ? sb1 ? cp1 ps1 le1 ? ? ? ? ? ? ? ? ? ? ? ?].
  unfold bind, call, modify, get, when. cbn. rewrite for_each_Destroy. cbn.
  destruct (bool_decide (is_Some sb1)); cbn;
    repeat (rewrite <- app_assoc; cbn); reflexivity.
Qed.

(** C4 as the code has it.  [Shutdown] asks the driver to unbind the
    current program, then deletes the program of every node of the map,
    and leaves the map empty.  It writes neither [last_entry] nor the
    tracked current program: both keep the value they had. *)
Theorem Shutdown_destroys_programs_keeps_last_entry (st : state) :
  exists stored rest,
    trace (Shutdown st).2
      = trace st ++ stored ++ glUseProgram 0
          :: destroy_calls (pshaders st) ++ rest /\
    (forall k entry,
       pshaders st !! k = Some entry ->
       glDeleteProgram (glprogid (shader entry))
         ∈ destroy_calls (pshaders st)) /\
    pshaders (Shutdown st).2 = ∅ /\
    last_entry (Shutdown st).2 = last_entry st /\
    CurrentProgram (Shutdown st).2 = CurrentProgram st.
Proof.
  pose proof (Shutdown_eq st) as Heq. cbv zeta in Heq. rewrite Heq. clear Heq.
  pose proof (Shutdown_disk_cache_keeps st) as Hkeep.
  pose proof (Shutdown_disk_cache_grows st) as (stored & Hstored & _).
  destruct (Shutdown_disk_cache st) as [[] st1]. cbn [snd] in *.
  unfold same, teardown_vars in Hkeep. injection Hkeep as Hp Hl Hc Hb.
  exists stored, (Invalidate_pixel_uid_checker :: Invalidate_vertex_uid_checker
     :: if bool_decide (is_Some (s_buffer st)) then [StreamBuffer_delete]
        else []).
  split; [|split; [|split; [|split]]].
  - cbn. rewrite Hstored, <- Hp, <- Hb. by rewrite <- app_assoc.
  - intros k entry Hk. apply list_elem_of_fmap.
    exists (k, entry). split; [done |]. by apply elem_of_map_to_list.
  - reflexivity.
  - cbn. by symmetry.
  - cbn. by symmetry.
Qed.

(** ** The program the driver has as current *)

#[global] Instance tracked_preorder : PreOrder tracked.
Proof. split; unfold tracked; [intros a | intros a b c]; tauto. Qed.

Lemma driver_program_app t e :
  driver_program (t ++ [e])
  = match e with glUseProgram id => id | _ => driver_program t end.
Proof. unfold driver_program. by rewrite fold_left_app. Qed.

Lemma tracked_append st t e :
  is_bind_call e = false -> t = trace st ++ [e] -> tracked st (set_trace t st).
Proof.
  intros He -> Hst. unfold tracking_ok in *.
  change (CurrentProgram st = driver_program (trace st ++ [e])).
  rewrite driver_program_app. destruct e; try discriminate; exact Hst.
Qed.

Section TrackedPrimitives.
Context (e : event).
Hypothesis not_bind : is_bind_call e = false.

Lemma tracked_call : keeps tracked (call e).
Proof. intros st. by apply (tracked_append st _ e). Qed.
Lemma tracked_ask : keeps tracked (ask e).
Proof. intros st. by apply (tracked_append st _ e). Qed.
Lemma tracked_ask_into old : keeps tracked (ask_into e old).
Proof. intros st. by apply (tracked_append st _ e). Qed.
Lemma tracked_ask_text : keeps tracked (ask_text e).
Proof. intros st. by apply (tracked_append st _ e). Qed.
Lemma tracked_ask_bytes : keeps tracked (ask_bytes e).
Proof. intros st. by apply (tracked_append st _ e). Qed.
End TrackedPrimitives.

Lemma tracked_modify (f : state -> state) :
  (forall st, trace (f st) = trace st) ->
  (forall st, CurrentProgram (f st) = CurrentProgram st) ->
  keeps tracked (modify f).
Proof.
  intros Ht Hc st Hst. unfold tracking_ok in *.
  change (CurrentProgram (f st) = driver_program (trace (f st))).
  by rewrite Ht, Hc.
Qed.

Lemma Bind_tracked s : keeps tracked (Bind s).
Proof.
  intros st Hst. unfold Bind, bind, get, modify, call, ret. cbn.
  destruct (bool_decide _); [|exact Hst].
  unfold tracking_ok.
  change (glprogid s = driver_program (trace st ++ [glUseProgram (glprogid s)])).
  by rewrite driver_program_app.
Qed.
#[local] Hint Resolve Bind_tracked : frames.

Ltac track_step :=
  lazymatch goal with
  | |- keeps tracked (call _) => apply tracked_call; reflexivity
  | |- keeps tracked (ask _) => apply tracked_ask; reflexivity
  | |- keeps tracked (ask_into _ _) => apply tracked_ask_into; reflexivity
  | |- keeps tracked (ask_text _) => apply tracked_ask_text; reflexivity
  | |- keeps tracked (ask_bytes _) => apply tracked_ask_bytes; reflexivity
  | |- keeps tracked (modify _) =>
      apply tracked_modify; intros; reflexivity
  | |- _ => frame_step
  end.

Ltac track := repeat track_step.

Lemma SetProgramVariables_tracked s : keeps tracked (SetProgramVariables s).
Proof. track. Qed.
#[local] Hint Resolve SetProgramVariables_tracked : frames.

Lemma CompileShader_tracked sh vcode pcode gcode macros :
  keeps tracked (CompileShader sh vcode pcode gcode macros).
Proof. track. Qed.

Lemma GetShaderId_tracked p : keeps tracked (GetShaderId p).
Proof. track. Qed.

Lemma save_shaders_tracked v p' g : keeps tracked (save_shaders v p' g).
Proof. track. Qed.

(** ** What [SetShader] leaves alone *)

Section SetShaderFrames.
Context (R : state -> state -> Prop) `{!PreOrder R}.
Hypothesis R_last_uid : forall st v, R st (set_last_uid v st).
Hypothesis R_pshaders : forall st v, R st (set_pshaders v st).
Hypothesis R_last_entry : forall st v, R st (set_last_entry v st).
Hypothesis R_created : forall st v, R st (set_numPixelShadersCreated v st).
Hypothesis R_alive : forall st v, R st (set_numPixelShadersAlive v st).
Hypothesis R_pause : forall what, keeps R (call (GFX_DEBUGGER_PAUSE_AT what)).
Hypothesis R_Bind : forall s, keeps R (Bind s).
Hypothesis R_GetShaderId : forall p, keeps R (GetShaderId p).
Hypothesis R_save_shaders : forall v p' g, keeps R (save_shaders v p' g).
Hypothesis R_CompileShader :
  forall sh v p' g, keeps R (CompileShader sh v p' g []).

Lemma bind_last_entry_keeps st r st' :
  bind_last_entry st = Returns r st' -> R st st'.
Proof.
  unfold bind_last_entry.
  destruct (last_entry st) as [k|]; [|discriminate].
  destruct (pshaders st !! k) as [entry|]; [|discriminate].
  unfold returns, bind.
  pose proof (R_pause NEXT_PIXEL_SHADER_CHANGE st) as Hp.
  destruct (call (GFX_DEBUGGER_PAUSE_AT NEXT_PIXEL_SHADER_CHANGE) st)
    as [[] st1].
  pose proof (R_Bind (shader entry) st1) as Hb.
  destruct (Bind (shader entry) st1) as [[] st2].
  intros [= <- <-]. by etrans.
Qed.

Lemma SetShader_lookup_keeps p st :
  match SetShader_lookup p st with
  | Found st' => R st st'
  | Missing _ _ st' => R st st'
  | Undefined _ => True
  end.
Proof.
  unfold SetShader_lookup.
  pose proof (R_GetShaderId p st) as Hid.
  destruct (GetShaderId p st) as [uid st0]. cbn [snd] in Hid.
  destruct (_ && _); [done |].
  pose proof (R_last_uid st0 uid) as Hu.
  set (st1 := set_last_uid uid st0) in *.
  destruct (pshaders st1 !! uid).
  - etrans; [exact Hid |]. etrans; [exact Hu |]. apply R_last_entry.
  - unfold SetShader_new_entry.
    set (captured := if bEnableShaderDebugging E then _ else _).
    destruct captured as [sh0|]; [|done].
    match goal with
    | |- context [save_shaders ?v ?p' ?g ?s] =>
        assert (Hs0 : R st1 s)
          by (etrans; [apply R_pshaders |];
              etrans; [apply R_last_entry |]; apply R_pshaders);
        pose proof (R_save_shaders v p' g s) as Hs;
        destruct (save_shaders v p' g s) as [[] st2]
    end.
    cbn [snd] in Hs.
    etrans; [exact Hid |]. etrans; [exact Hu |]. by etrans.
Qed.

Lemma SetShader_keeps p st r st' :
  SetShader p st = Returns r st' -> R st st'.
Proof.
  unfold SetShader. pose proof (SetShader_lookup_keeps p st) as Hlook.
  destruct (SetShader_lookup p st) as [st0|uid sh st0|f]; [| |discriminate].
  - intros Hrun%bind_last_entry_keeps. by etrans.
  - unfold SetShader_compile.
    pose proof (R_CompileShader sh (vcode_of p) (pcode_of p) (gcode_of p uid)
                  st0) as Hc.
    destruct (CompileShader _ _ _ _ _ st0) as [[ok sh'] stc].
    cbn [snd] in Hc.
    match goal with
    | |- context [set_pshaders ?m stc] =>
        pose proof (R_pshaders stc m) as Hm; set (stm := set_pshaders m stc) in *
    end.
    destruct ok; cbn [negb].
    + intros Hrun%bind_last_entry_keeps.
      etrans; [exact Hlook |]. etrans; [exact Hc |]. etrans; [exact Hm |].
      etrans; [|exact Hrun].
      etrans; [apply R_created |]. apply R_alive.
    + unfold returns, bind.
      pose proof (R_pause NEXT_ERROR stm) as Hp.
      destruct (call (GFX_DEBUGGER_PAUSE_AT NEXT_ERROR) stm) as [[] stp].
      intros [= <- <-].
      etrans; [exact Hlook |]. etrans; [exact Hc |]. by etrans.
Qed.
End SetShaderFrames.

(** X5.  [SetShader] keeps the tracked current program in step with the
    driver: when the tracked program is the one named by the last
    [glUseProgram] before the call, it is so after it. *)
Theorem SetShader_keeps_tracking (p : pipeline_state) (st : state) r st' :
  tracking_ok st ->
  SetShader p st = Returns r st' ->
  tracking_ok st'.
Proof.
  intros Hst Hrun. revert Hst.
  refine (SetShader_keeps tracked _ _ _ _ _ _ _ _ _ _ p st r st' Hrun);
    try (intros; intros H; exact H).
  - intros what. track.
  - apply Bind_tracked.
  - apply GetShaderId_tracked.
  - apply save_shaders_tracked.
  - intros. apply CompileShader_tracked.
Qed.

(** ** Repeating a call *)

Lemma GetShaderId_eq p st :
  exists checks,
    forallb is_debug_call checks = true /\
    GetShaderId p st = (uid_of p, set_trace (trace st ++ checks) st).
Proof.
  unfold GetShaderId, uid_of, bind, when, call, ret.
  destruct (bEnableShaderDebugging E).
  - eexists. apply and_comm. split; [cbn; by rewrite <- !app_assoc |].
    reflexivity.
  - exists []. split; [reflexivity |]. cbn. by rewrite app_nil_r.
Qed.

Lemma Bind_CurrentProgram s st : CurrentProgram (Bind s st).2 = glprogid s.
Proof.
  unfold Bind, bind, get, modify, call, ret. cbn.
  destruct (decide (CurrentProgram st = glprogid s)) as [Heq|Hne].
  - rewrite bool_decide_false by (intros Hne; by apply Hne). exact Heq.
  - by rewrite bool_decide_true.
Qed.

Lemma Bind_current s st : glprogid s = CurrentProgram st -> Bind s st = (tt, st).
Proof.
  intros Heq. unfold Bind, bind, get, ret. cbn.
  by rewrite bool_decide_false by (intros Hne; by apply Hne).
Qed.

(** What a call that hands back a pointer leaves in the variables of the
    cache and in the tracked current program. *)
Lemma bind_last_entry_bound st r st' :
  bind_last_entry st = Returns r st' ->
  exists k entry,
    r = Some k /\ last_entry st = Some k /\ pshaders st !! k = Some entry /\
    CurrentProgram st' = glprogid (shader entry).
Proof.
  unfold bind_last_entry.
  destruct (last_entry st) as [k|]; [|discriminate].
  destruct (pshaders st !! k) as [entry|] eqn:Hk; [|discriminate].
  unfold returns, bind, call, modify, ret. cbn -[Bind].
  pose proof (Bind_CurrentProgram (shader entry)
                (set_trace (trace st ++ [GFX_DEBUGGER_PAUSE_AT NEXT_PIXEL_SHADER_CHANGE]) st)) as Hb.
  destruct (Bind (shader entry) _) as [[] st2]. cbn [snd] in Hb.
  intros [= <- <-]. by exists k, entry.
Qed.

Lemma SetShader_bound p st h st' :
  SetShader p st = Returns (Some h) st' ->
  exists entry,
    last_entry st' = Some h /\ pshaders st' !! h = Some entry /\
    last_uid st' = uid_of p /\
    CurrentProgram st' = glprogid (shader entry).
Proof.
  intros Hrun. pose proof Hrun as Hcases. apply SetShader_cases in Hcases
    as [(st0 & k & entry & Hlook & Hl & Hk & [= ->] & Hsame)
       |(sh & st0 & ok & sh' & stc & Hlook & Hcomp & Hr & Hp & Hl & Hu)].
  - apply same_cache_vars in Hsame as (Hp' & Hl' & Hu').
    unfold SetShader in Hrun. rewrite Hlook in Hrun.
    apply bind_last_entry_bound in Hrun
      as (k' & entry' & _ & Hl2 & Hk2 & Hcur).
    assert (k' = k) as -> by congruence.
    assert (entry' = entry) as -> by congruence.
    exists entry. split; [congruence |]. split; [congruence |].
    split; [|exact Hcur].
    apply SetShader_lookup_Found in Hlook as (_ & _ & _ & Hway).
    destruct Hway as [(k' & Hk' & Huid & Hl0 & Hu0)|(_ & Hl0 & Hu0)];
      congruence.
  - destruct ok; [|discriminate]. injection Hr as ->.
    exists (set_shader sh' new_PCacheEntry).
    split; [done |]. split; [by rewrite Hp, lookup_insert_eq |].
    split; [done |].
    unfold SetShader in Hrun. rewrite Hlook in Hrun.
    unfold SetShader_compile in Hrun. rewrite Hcomp in Hrun. cbn [negb] in Hrun.
    apply bind_last_entry_bound in Hrun
      as (k' & entry' & _ & Hl2 & Hk2 & Hcur).
    cbn in Hl2, Hk2.
    pose proof (CompileShader_keeps_cache sh (vcode_of p) (pcode_of p)
                  (gcode_of p (uid_of p)) [] st0) as Hc.
    rewrite Hcomp in Hc. cbn in Hc.
    apply same_cache_vars in Hc as (_ & Hlc & _).
    apply SetShader_lookup_Missing in Hlook as (_ & _ & _ & Hl0 & _).
    assert (k' = uid_of p) as -> by congruence.
    rewrite lookup_insert_eq in Hk2. by injection Hk2 as <-.
Qed.

(** X1.  When [SetShader] hands back a pointer, [last_entry] is at the map
    node the pointer refers to, so that [GetShaderProgram] returns that
    node, and the tracked current program, which [GetCurrentProgram]
    returns, is the program of that node. *)
Theorem SetShader_binds_what_it_returns
    (p : pipeline_state) (st st' : state) (h : SHADERUID) :
  SetShader p st = Returns (Some h) st' ->
  exists entry,
    GetShaderProgram st' = Returns entry st' /\
    pshaders st' !! h = Some entry /\
    GetCurrentProgram st' = glprogid (shader entry).
Proof.
  intros (entry & Hl & Hk & _ & Hcur)%SetShader_bound.
  exists entry. unfold GetShaderProgram. by rewrite Hl, Hk.
Qed.

(** X2.  Calling [SetShader] again with the pipeline state it has just
    handed back a pointer for hands back the same pointer and changes
    nothing but the history, to which it only adds calls to the debugger
    and the uid checkers: nothing is asked of the driver. *)
Theorem SetShader_repeated_makes_no_driver_call
    (p : pipeline_state) (st st1 : state) (h : SHADERUID) :
  SetShader p st = Returns (Some h) st1 ->
  exists new,
    forallb is_debug_call new = true /\
    SetShader p st1 = Returns (Some h) (set_trace (trace st1 ++ new) st1).
Proof.
  intros (entry & Hl & Hk & Hu & Hcur)%SetShader_bound.
  destruct (GetShaderId_eq p st1) as (checks & Hchecks & Hid).
  exists (checks ++ [GFX_DEBUGGER_PAUSE_AT NEXT_PIXEL_SHADER_CHANGE]).
  split; [by rewrite forallb_app, Hchecks |].
  unfold SetShader, SetShader_lookup. rewrite Hid.
  change (last_entry (set_trace (trace st1 ++ checks) st1))
    with (last_entry st1).
  change (last_uid (set_trace (trace st1 ++ checks) st1)) with (last_uid st1).
  rewrite Hl, Hu.
  rewrite bool_decide_true by eauto. rewrite bool_decide_true by done.
  cbn [andb]. unfold bind_last_entry.
  change (last_entry (set_trace (trace st1 ++ checks) st1))
    with (last_entry st1).
  change (pshaders (set_trace (trace st1 ++ checks) st1))
    with (pshaders st1).
  rewrite Hl, Hk. unfold returns, bind, call, modify. cbn -[Bind].
  rewrite Bind_current by (symmetry; exact Hcur).
  cbn. by rewrite <- app_assoc.
Qed.

(** ** When [SetShader] has no result *)

Lemma SetShader_lookup_absent p st :
  cache_wf st ->
  pshaders st !! uid_of p = None ->
  exists checks,
    forallb is_debug_call checks = true /\
    SetShader_lookup p st
    = SetShader_new_entry p (uid_of p)
        (set_last_uid (uid_of p) (set_trace (trace st ++ checks) st)).
Proof.
  intros Hwf Hnone. destruct (GetShaderId_eq p st) as (checks & Hchecks & Hid).
  exists checks. split; [done |].
  unfold SetShader_lookup. rewrite Hid.
  change (last_entry (set_trace (trace st ++ checks) st)) with (last_entry st).
  change (last_uid (set_trace (trace st ++ checks) st)) with (last_uid st).
  destruct (bool_decide (is_Some (last_entry st))
            && bool_decide (uid_of p = last_uid st)) eqn:Hfast.
  - exfalso. apply andb_true_iff in Hfast as [Hsome Heq].
    apply bool_decide_eq_true in Hsome as [k Hk], Heq.
    unfold cache_wf in Hwf. rewrite Hk in Hwf. destruct Hwf as [-> [e He]].
    congruence.
  - change (pshaders (set_last_uid (uid_of p)
                        (set_trace (trace st ++ checks) st)))
      with (pshaders st).
    by rewrite Hnone.
Qed.

(** X4.  With shader debugging enabled, a [SetShader] call for a key that
    has no node yet, for a pipeline state for which no geometry source is
    generated, reaches the assignment of the buffer of [gcode] to
    [strgprog]; that buffer is null, so the call dereferences a null
    pointer. *)
Theorem SetShader_debugging_without_geometry_source
    (p : pipeline_state) (st : state) :
  cache_wf st ->
  bEnableShaderDebugging E = true ->
  gcode_of p (uid_of p) = None ->
  pshaders st !! uid_of p = None ->
  SetShader p st = Faults NullPointerDereference.
Proof.
  intros Hwf Hdebug Hgcode Hnone.
  destruct (SetShader_lookup_absent p st Hwf Hnone) as (checks & _ & Hlook).
  unfold SetShader. rewrite Hlook. unfold SetShader_new_entry.
  by rewrite Hdebug, Hgcode.
Qed.

(** ** The statistics *)

Lemma same_shader_stats a b :
  same shader_stats a b ->
  numPixelShadersCreated b = numPixelShadersCreated a /\
  numPixelShadersAlive b = numPixelShadersAlive a.
Proof. unfold same, shader_stats. intros [= -> ->]. done. Qed.

Lemma Bind_keeps_stats s : keeps (same shader_stats) (Bind s).
Proof. frame. Qed.
#[local] Hint Resolve Bind_keeps_stats : frames.

Lemma CompileShader_keeps_stats sh vcode pcode gcode macros :
  keeps (same shader_stats) (CompileShader sh vcode pcode gcode macros).
Proof. frame. Qed.

Lemma GetShaderId_keeps_stats p : keeps (same shader_stats) (GetShaderId p).
Proof. frame. Qed.

Lemma save_shaders_keeps_stats v p' g :
  keeps (same shader_stats) (save_shaders v p' g).
Proof. frame. Qed.

Lemma SetShader_lookup_keeps_stats p st :
  match SetShader_lookup p st with
  | Found st' => same shader_stats st st'
  | Missing _ _ st' => same shader_stats st st'
  | Undefined _ => True
  end.
Proof.
  apply SetShader_lookup_keeps; try tc_solve; try (intros; reflexivity).
  - apply GetShaderId_keeps_stats.
  - apply save_shaders_keeps_stats.
Qed.

Lemma bind_last_entry_keeps_stats st r st' :
  bind_last_entry st = Returns r st' -> same shader_stats st st'.
Proof.
  apply bind_last_entry_keeps; try tc_solve.
  - intros what. frame.
  - apply Bind_keeps_stats.
Qed.

(** X3.  The statistics, from a state whose [last_entry] is in order.  A
    pipeline state whose key has a node leaves the map and both counters
    alone.  One whose key has none adds one node; when compilation
    succeeds the created counter goes up by one and the alive counter is
    set to the new size of the map; when it fails neither counter changes
    although the map has grown. *)
Theorem SetShader_statistics
    (p : pipeline_state) (st st' : state) (r : option SHADERUID) :
  cache_wf st ->
  SetShader p st = Returns r st' ->
  match pshaders st !! uid_of p, r with
  | Some _, _ =>
      pshaders st' = pshaders st /\
      numPixelShadersCreated st' = numPixelShadersCreated st /\
      numPixelShadersAlive st' = numPixelShadersAlive st
  | None, Some _ =>
      size (pshaders st') = S (size (pshaders st)) /\
      numPixelShadersCreated st' = numPixelShadersCreated st + 1 /\
      numPixelShadersAlive st' = Z.of_nat (size (pshaders st'))
  | None, None =>
      size (pshaders st') = S (size (pshaders st)) /\
      numPixelShadersCreated st' = numPixelShadersCreated st /\
      numPixelShadersAlive st' = numPixelShadersAlive st
  end.
Proof.
  intros Hwf Hrun. pose proof Hrun as Hcases. apply SetShader_cases in Hcases
    as [(st0 & k & entry & Hlook & Hl & Hk & -> & Hsame)
       |(sh & st0 & ok & sh' & stc & Hlook & Hcomp & -> & Hp & Hl & Hu)].
  - pose proof (SetShader_lookup_keeps_stats p st) as Hstats.
    rewrite Hlook in Hstats.
    unfold SetShader in Hrun. rewrite Hlook in Hrun.
    apply bind_last_entry_keeps_stats in Hrun.
    apply same_shader_stats in Hstats as [Hc0 Ha0], Hrun as [Hc1 Ha1].
    apply same_cache_vars in Hsame as (Hp' & _).
    apply SetShader_lookup_Found in Hlook as (_ & Hp & _ & Hway).
    assert (Hsome : is_Some (pshaders st !! uid_of p)).
    { destruct Hway as [(k' & Hk' & Huid & _)|(Hsome & _)]; [|done].
      unfold cache_wf in Hwf. rewrite Hk' in Hwf. destruct Hwf as [-> Hsome].
      by rewrite Huid. }
    destruct Hsome as [e ->].
    split; [congruence |]. split; congruence.
  - pose proof (SetShader_lookup_keeps_stats p st) as Hstats.
    rewrite Hlook in Hstats. apply same_shader_stats in Hstats as [Hc0 Ha0].
    pose proof (CompileShader_keeps_stats sh (vcode_of p) (pcode_of p)
                  (gcode_of p (uid_of p)) [] st0) as Hcs.
    rewrite Hcomp in Hcs. apply same_shader_stats in Hcs as [Hc1 Ha1].
    cbn [snd] in Hc1, Ha1.
    unfold SetShader in Hrun. rewrite Hlook in Hrun.
    unfold SetShader_compile in Hrun. rewrite Hcomp in Hrun.
    apply SetShader_lookup_Missing in Hlook as (_ & Hnone & _).
    rewrite Hnone.
    assert (Hsize : size (pshaders st') = S (size (pshaders st)))
      by (rewrite Hp; by apply map_size_insert_None).
    destruct ok; cbn [negb] in Hrun.
    + pose proof Hrun as Hb. apply bind_last_entry_keeps_stats in Hb.
      apply same_shader_stats in Hb as [Hc2 Ha2]. cbn in Hc2, Ha2.
      apply bind_last_entry_Returns in Hrun as (_ & _ & _ & _ & _ & Hsame).
      apply same_cache_vars in Hsame as (Hp2 & _). cbn in Hp2.
      split; [done |]. split; [congruence |].
      rewrite Ha2, Hp2. reflexivity.
    + revert Hrun. unfold returns, bind, call, ret. cbn. intros [= <-].
      cbn. split; [done |]. split; congruence.
Qed.

(** ** After [Shutdown] *)

Lemma Shutdown_disk_cache_keeps_last_uid :
  keeps (same last_uid) Shutdown_disk_cache.
Proof. frame. Qed.

Lemma Shutdown_disk_cache_keeps_dirty :
  keeps (same constants_dirty) Shutdown_disk_cache.
Proof. frame. Qed.

Lemma Shutdown_disk_cache_no_bind :
  keeps (grows not_bind_call) Shutdown_disk_cache.
Proof. frame. Qed.

(** X19.  [Shutdown] empties the map without resetting [last_entry]: a
    [SetShader] call after it whose key is the last one resolved follows
    the pointer to a node that is gone. *)
Theorem SetShader_after_Shutdown_dangles
    (p : pipeline_state) (st : state) (k : SHADERUID) :
  last_entry st = Some k ->
  uid_of p = last_uid st ->
  SetShader p (Shutdown st).2 = Faults DanglingPointerDereference.
Proof.
  intros Hl Hu.
  pose proof (Shutdown_eq st) as Heq. cbv zeta in Heq. rewrite Heq. clear Heq.
  pose proof (Shutdown_disk_cache_keeps st) as Hkeep.
  pose proof (Shutdown_disk_cache_keeps_last_uid st) as Hkeepu.
  destruct (Shutdown_disk_cache st) as [[] st1]. cbn [snd] in *.
  unfold same, teardown_vars in Hkeep, Hkeepu. injection Hkeep as _ Hl1 _ _.
  match goal with |- SetShader p ?s = _ => set (st2 := s) end.
  assert (Hl2 : last_entry st2 = Some k) by (subst st2; cbn; congruence).
  assert (Hu2 : last_uid st2 = uid_of p) by (subst st2; cbn; congruence).
  assert (Hp2 : pshaders st2 = ∅) by reflexivity.
  clearbody st2.
  destruct (GetShaderId_eq p st2) as (checks & _ & Hid).
  unfold SetShader, SetShader_lookup. rewrite Hid.
  change (last_entry (set_trace (trace st2 ++ checks) st2))
    with (last_entry st2).
  change (last_uid (set_trace (trace st2 ++ checks) st2)) with (last_uid st2).
  rewrite Hl2, Hu2.
  rewrite bool_decide_true by eauto. rewrite bool_decide_true by done.
  cbn [andb]. unfold bind_last_entry.
  change (last_entry (set_trace (trace st2 ++ checks) st2))
    with (last_entry st2).
  change (pshaders (set_trace (trace st2 ++ checks) st2))
    with (pshaders st2).
  by rewrite Hl2, Hp2, lookup_empty.
Qed.

(** X20.  After [Shutdown] the stream buffer pointer is null:
    [UploadConstants] dereferences it when a constant source is dirty, and
    does nothing when none is. *)
Theorem UploadConstants_after_Shutdown (st : state) :
  UploadConstants (Shutdown st).2
  = if constants_dirty st
    then Faults NullPointerDereference
    else Returns tt (Shutdown st).2.
Proof.
  pose proof (Shutdown_eq st) as Heq. cbv zeta in Heq. rewrite Heq. clear Heq.
  pose proof (Shutdown_disk_cache_keeps_dirty st) as Hkeep.
  destruct (Shutdown_disk_cache st) as [[] st1]. cbn [snd] in *.
  unfold same in Hkeep. rewrite Hkeep.
  match goal with |- UploadConstants ?s = _ => set (st2 := s) end.
  assert (Hd : constants_dirty st2 = constants_dirty st1) by reflexivity.
  assert (Hb : s_buffer st2 = None) by reflexivity.
  clearbody st2. rewrite <- Hd.
  destruct (constants_dirty st2) eqn:Hdirty.
  - unfold UploadConstants. by rewrite any_constants_dirty_eq, Hdirty, Hb.
  - by apply UploadConstants_clean.
Qed.

Lemma driver_program_no_bind t new :
  forallb not_bind_call new = true ->
  driver_program (t ++ new) = driver_program t.
Proof.
  unfold driver_program. rewrite fold_left_app.
  generalize (fold_left (fun cur e => match e with
                                      | glUseProgram id => id
                                      | _ => cur
                                      end) t 0).
  induction new as [|e new IH]; intros cur; cbn; [done |].
  intros [He Hnew]%andb_true_iff. rewrite IH by done.
  by destruct e.
Qed.

Lemma driver_program_bind t id new :
  forallb not_bind_call new = true ->
  driver_program (t ++ glUseProgram id :: new) = id.
Proof.
  intros Hnew.
  change (t ++ glUseProgram id :: new) with (t ++ [glUseProgram id] ++ new).
  rewrite app_assoc, driver_program_no_bind by done.
  by rewrite driver_program_app.
Qed.

Lemma destroy_calls_no_bind m : forallb not_bind_call (destroy_calls m) = true.
Proof.
  unfold destroy_calls. induction (map_to_list m) as [|kv l IH]; cbn; done.
Qed.

Lemma Shutdown_keeps_CurrentProgram st :
  CurrentProgram (Shutdown st).2 = CurrentProgram st.
Proof.
  pose proof (Shutdown_eq st) as Heq. cbv zeta in Heq. rewrite Heq.
  pose proof (Shutdown_disk_cache_keeps st) as Hkeep.
  destruct (Shutdown_disk_cache st) as [[] st1]. cbn [snd] in *.
  unfold same, teardown_vars in Hkeep. injection Hkeep as _ _ Hc _.
  cbn. by symmetry.
Qed.

(** X18.  [Shutdown] asks the driver to unbind but does not write the
    tracked current program: afterwards the driver has no program
    current, and the tracked value agrees with it only if it was 0
    before. *)
Theorem Shutdown_unbinds_behind_the_tracking (st : state) :
  driver_program (trace (Shutdown st).2) = 0 /\
  (tracking_ok (Shutdown st).2 <-> GetCurrentProgram st = 0).
Proof.
  assert (Hdriver : driver_program (trace (Shutdown st).2) = 0).
  { pose proof (Shutdown_eq st) as Heq. cbv zeta in Heq. rewrite Heq.
    cbn [snd]. 
    match goal with
    | |- driver_program (trace (set_s_buffer _ (set_pshaders _ (set_trace ?t _)))) = _ =>
        change (driver_program t = 0)
    end.
    apply driver_program_bind. rewrite forallb_app, destroy_calls_no_bind.
    by destruct (bool_decide _). }
  split; [exact Hdriver |].
  unfold tracking_ok, GetCurrentProgram. rewrite Hdriver.
  by rewrite Shutdown_keeps_CurrentProgram.
Qed.

(** ** [Init] and the tracked program *)

Section BindingLayout.
Hypothesis layout : bSupportsBindingLayout E = true.

Lemma SetProgramVariables_layout s st : SetProgramVariables s st = (tt, st).
Proof. unfold SetProgramVariables. by rewrite layout. Qed.

Lemma SetProgramVariables_no_bind s :
  keeps (grows not_bind_call) (SetProgramVariables s).
Proof.
  intros st. rewrite SetProgramVariables_layout. cbn. reflexivity.
Qed.

Lemma Init_no_bind : keeps (grows not_bind_call) Init.
Proof.
  pose proof SetProgramVariables_no_bind as Hvars.
  assert (Hread : forall key value, keeps (grows not_bind_call) (Read key value)).
  { intros key value. frame. }
  frame.
Qed.
End BindingLayout.

Lemma Init_CurrentProgram st : CurrentProgram (Init st).2 = 0.
Proof.
  unfold Init, Init_after_stream_buffer, bind.
  destruct (Init_stream_buffer st) as [[] st1].
  destruct (Init_shader_cache st1) as [[] st2].
  destruct (CreateHeader st2) as [[] st3]. reflexivity.
Qed.

(** X14.  [Init] sets the tracked current program to 0 without asking the
    driver to unbind.  With binding layouts supported it issues no
    [glUseProgram], so the tracked program agrees with the driver
    afterwards exactly when the driver had no program current before. *)
Theorem Init_tracking_with_binding_layout (st : state) :
  bSupportsBindingLayout E = true ->
  GetCurrentProgram (Init st).2 = 0 /\
  (tracking_ok (Init st).2 <-> driver_program (trace st) = 0).
Proof.
  intros Hlayout. split; [apply Init_CurrentProgram |].
  unfold tracking_ok. rewrite Init_CurrentProgram.
  destruct (Init_no_bind Hlayout st) as (new & -> & Hnew).
  rewrite driver_program_no_bind by done. split; congruence.
Qed.

(** ** What [Shutdown] writes to the disk cache file *)

Lemma store_entry_disk kv st :
  exists added,
    g_program_disk_cache (store_entry kv st).2
      = g_program_disk_cache st ++ added /\
    (added = [] \/
     (in_cache kv.2 = false /\ exists data, added = [(kv.1, data)])).
Proof.
  unfold store_entry, bind, ask, ask_into, ask_bytes, Append, modify, ret.
  cbn. destruct (in_cache kv.2) eqn:Hin; cbn.
  { exists []. by rewrite app_nil_r; auto. }
  destruct (_ || _); cbn.
  { exists []. by rewrite app_nil_r; auto. }
  destruct (negb _); cbn.
  { exists []. by rewrite app_nil_r; auto. }
  eexists. split; [reflexivity |]. right. eauto.
Qed.

Lemma store_entries_disk entries st :
  exists added,
    g_program_disk_cache (for_each entries store_entry st).2
      = g_program_disk_cache st ++ added /\
    added.*1 `sublist_of`
      (filter (fun kv : SHADERUID * PCacheEntry => in_cache kv.2 = false)
         entries).*1.
Proof.
  revert st. induction entries as [|kv entries IH]; intros st; cbn [for_each].
  - exists []. by rewrite app_nil_r.
  - unfold bind. destruct (store_entry_disk kv st) as (a1 & Hd1 & Ha1).
    destruct (store_entry kv st) as [[] st1]. cbn [snd] in *.
    destruct (IH st1) as (a2 & Hd2 & Ha2).
    exists (a1 ++ a2). split; [by rewrite Hd2, Hd1, app_assoc |].
    rewrite filter_cons.
    destruct Ha1 as [->|(Hin & data & ->)]; cbn.
    + destruct (decide _); [by apply sublist_cons | done].
    + rewrite decide_True by done. cbn. by apply sublist_skip.
Qed.

Lemma Shutdown_disk st :
  g_program_disk_cache (Shutdown st).2
  = g_program_disk_cache (Shutdown_disk_cache st).2.
Proof.
  pose proof (Shutdown_eq st) as Heq. cbv zeta in Heq. by rewrite Heq.
Qed.

(** X16.  [Shutdown] only appends to the disk cache file: the records it
    had stay, and the appended ones are for keys whose node is not marked
    as being in the cache, at most one per key, in the order in which the
    map is walked.  With the cache unsupported or shader debugging
    enabled nothing is appended. *)
Theorem Shutdown_appends_only_unsaved (st : state) :
  exists added,
    g_program_disk_cache (Shutdown st).2 = g_program_disk_cache st ++ added /\
    added.*1 `sublist_of` unsaved (pshaders st) /\
    NoDup added.*1 /\
    (bSupportsGLSLCache st && negb (g_Config_bEnableShaderDebugging E) = false ->
     added = []).
Proof.
  assert (Hkeys : NoDup (unsaved (pshaders st))).
  { apply (sublist_NoDup (unsaved (pshaders st))
             (map_to_list (pshaders st)).*1);
      first [ apply NoDup_fst_map_to_list
            | unfold unsaved; apply fmap_sublist, sublist_filter ]. }
  rewrite Shutdown_disk. unfold Shutdown_disk_cache, bind, get, when.
  cbn. destruct (bSupportsGLSLCache st && _).
  - destruct (store_entries_disk (map_to_list (pshaders st)) st)
      as (added & Hd & Ha).
    destruct (for_each _ store_entry st) as [[] st1]. cbn [snd] in *.
    exists added. split; [exact Hd |]. split; [exact Ha |].
    split; [|discriminate].
    apply (sublist_NoDup _ (unsaved (pshaders st)));
      first [exact Ha | exact Hkeys].
  - exists []. cbn. rewrite app_nil_r. split; [done |].
    split; [apply sublist_nil_l |]. split; [constructor | done].
Qed.

Lemma store_entry_retrievable kv st :
  every_program_retrievable ->
  in_cache kv.2 = false ->
  exists data,
    (4 < List.length data)%nat /\
    g_program_disk_cache (store_entry kv st).2
      = g_program_disk_cache st ++ [(kv.1, data)].
Proof.
  intros (Hstores & Herr & Hlink & Hdel & Hlen) Hin.
  unfold store_entry, bind, ask, ask_into, ask_bytes, Append, modify, ret.
  revert Hin. cbn. destruct (in_cache kv.2); [discriminate | intros _].
  rewrite !Hstores. cbn.
  set (id := glprogid (shader kv.2)).
  set (t1 := trace st ++ [glGetError]).
  set (t2 := t1 ++ [glGetProgramiv id GL_LINK_STATUS]).
  set (t3 := t2 ++ [glGetProgramiv id GL_DELETE_STATUS]).
  set (t4 := t3 ++ [glGetProgramiv id GL_PROGRAM_BINARY_LENGTH]).
  set (t5 := t4 ++ [glGetError]).
  assert (H5 : gl_answer E t5 = GL_NO_ERROR) by apply Herr, last_snoc.
  assert (H2 : (gl_answer E t2 =? GL_FALSE) = false)
    by (apply Z.eqb_neq, (Hlink _ id), last_snoc).
  assert (H3 : (gl_answer E t3 =? GL_TRUE) = false)
    by (apply Z.eqb_neq, (Hdel _ id), last_snoc).
  assert (H4 : 0 < gl_answer E t4) by apply (Hlen _ id), last_snoc.
  assert (H4' : (gl_answer E t4 =? 0) = false) by (apply Z.eqb_neq; lia).
  rewrite H5, H2, H3, H4'. cbn.
  set (t6 := t5 ++ [glGetProgramBinary id (gl_answer E t4)]).
  assert (H7 : gl_answer E (t6 ++ [glGetError]) = GL_NO_ERROR)
    by apply Herr, last_snoc.
  rewrite H7. cbn.
  eexists. split; [|reflexivity].
  rewrite length_resize. unfold sizeof_GLenum. lia.
Qed.

Lemma store_entries_retrievable entries st :
  every_program_retrievable ->
  exists added,
    g_program_disk_cache (for_each entries store_entry st).2
      = g_program_disk_cache st ++ added /\
    added.*1
      = (filter (fun kv : SHADERUID * PCacheEntry => in_cache kv.2 = false)
           entries).*1 /\
    Forall (fun r => (4 < List.length r.2)%nat) added.
Proof.
  intros Hdriver.
  revert st. induction entries as [|kv entries IH]; intros st; cbn [for_each].
  - exists []. by rewrite app_nil_r.
  - unfold bind. rewrite filter_cons.
    destruct (in_cache kv.2) eqn:Hin.
    + rewrite decide_False by discriminate.
      destruct (store_entry_disk kv st) as (a1 & Hd1 & [->|(Hf & _)]);
        [|congruence].
      destruct (store_entry kv st) as [[] st1]. cbn [snd] in *.
      destruct (IH st1) as (a2 & Hd2 & Ha2 & Hl2).
      exists a2. rewrite app_nil_r in Hd1. by rewrite Hd2, Hd1.
    + rewrite decide_True by done.
      destruct (store_entry_retrievable kv st Hdriver Hin)
        as (data & Hlen & Hd1).
      destruct (store_entry kv st) as [[] st1]. cbn [snd] in *.
      destruct (IH st1) as (a2 & Hd2 & Ha2 & Hl2).
      exists ((kv.1, data) :: a2).
      split; [rewrite Hd2, Hd1; by rewrite <- app_assoc |].
      split; [cbn; by rewrite Ha2 |]. by constructor.
Qed.

(** X17.  With the cache supported, shader debugging off and a driver that
    reports no error and reports every program as linked, not flagged for
    deletion and with a binary of positive length, [Shutdown] appends
    exactly one record for every node not marked as being in the cache,
    in the order of the map, each longer than the format tag. *)
Theorem Shutdown_stores_every_unsaved_program (st : state) :
  every_program_retrievable ->
  bSupportsGLSLCache st = true ->
  g_Config_bEnableShaderDebugging E = false ->
  exists added,
    g_program_disk_cache (Shutdown st).2 = g_program_disk_cache st ++ added /\
    added.*1 = unsaved (pshaders st) /\
    Forall (fun r => (Z.to_nat sizeof_GLenum < List.length r.2)%nat) added.
Proof.
  intros Hdriver Hcache Hdebug.
  rewrite Shutdown_disk. unfold Shutdown_disk_cache, bind, get, when.
  cbn. destruct (_ && _) eqn:Hcond; cycle 1.
  { change (bSupportsGLSLCache st
            && negb (g_Config_bEnableShaderDebugging E) = false) in Hcond.
    rewrite Hcache, Hdebug in Hcond. discriminate. }
  destruct (store_entries_retrievable (map_to_list (pshaders st)) st Hdriver)
    as (added & Hd & Ha & Hl).
  destruct (for_each _ store_entry st) as [[] st1]. cbn [snd] in *.
  exists added. done.
Qed.

(** ** Nodes that came from the disk cache file *)

#[global] Instance in_cache_stays_preorder : PreOrder in_cache_stays.
Proof. split; unfold in_cache_stays; [intros a | intros a b c]; tauto. Qed.

Lemma in_cache_stays_same {A} (c : St A) :
  keeps (same pshaders) c -> keeps in_cache_stays c.
Proof. intros Hc st Hst. unfold same in Hc. by rewrite <- Hc. Qed.

Lemma Read_in_cache_stays key value : keeps in_cache_stays (Read key value).
Proof.
  intros st Hst. rewrite Read_pshaders.
  destruct (Read_loads value st); [|exact Hst].
  by apply map_Forall_insert_2.
Qed.

Lemma Init_in_cache_stays : keeps in_cache_stays Init.
Proof.
  assert (Hrest : forall A (c : St A),
            keeps (same pshaders) c -> keeps in_cache_stays c)
    by (intros A; apply in_cache_stays_same).
  unfold Init, Init_after_stream_buffer.
  apply keeps_bind; [tc_solve | apply Hrest; frame | intros _].
  apply keeps_bind; [tc_solve | | intros _; apply Hrest; frame].
  unfold Init_shader_cache.
  apply keeps_bind; [tc_solve | apply keeps_get; tc_solve | intros cache].
  apply keeps_when; [tc_solve |].
  apply keeps_bind;
    [tc_solve | apply Hrest; frame | intros Supported].
  apply keeps_bind; [tc_solve | | intros _; apply Hrest; frame].
  destruct (Supported =? 0); [apply Hrest; frame |].
  apply keeps_bind; [tc_solve | apply Hrest; frame | intros present].
  apply keeps_bind; [tc_solve | apply Hrest; frame | intros _].
  unfold OpenAndRead.
  apply keeps_bind; [tc_solve | apply Hrest; frame | intros _].
  apply keeps_bind; [tc_solve | apply keeps_get; tc_solve | intros records].
  apply keeps_for_each; [tc_solve |]. intros r. apply Read_in_cache_stays.
Qed.

Lemma unsaved_all_in_cache m : all_in_cache m -> unsaved m = [].
Proof.
  unfold all_in_cache, unsaved. rewrite map_Forall_to_list.
  induction 1 as [|kv l Hkv _ IH]; [done |].
  rewrite filter_cons. destruct kv as [k e]. cbn in *.
  rewrite decide_False by (rewrite Hkv; discriminate). exact IH.
Qed.

Lemma Shutdown_disk_all_in_cache st :
  all_in_cache (pshaders st) ->
  g_program_disk_cache (Shutdown st).2 = g_program_disk_cache st.
Proof.
  intros Hall. rewrite Shutdown_disk.
  unfold Shutdown_disk_cache, bind, get, when. cbn.
  destruct (bSupportsGLSLCache st && _); [|reflexivity].
  destruct (store_entries_disk (map_to_list (pshaders st)) st)
    as (added & Hd & Ha).
  destruct (for_each _ store_entry st) as [[] st1]. cbn [snd] in *.
  fold (unsaved (pshaders st)) in Ha.
  rewrite (unsaved_all_in_cache _ Hall) in Ha.
  apply sublist_nil_r, fmap_nil_inv in Ha. subst added.
  etrans; [exact Hd |]. apply app_nil_r.
Qed.

Lemma Init_keeps_disk : keeps (same g_program_disk_cache) Init.
Proof. frame. Qed.

(** X15.  Every node that [Init] adds is marked as being in the disk
    cache, and [Shutdown] stores no such node: when all nodes of the map
    are so marked before [Init], a [Shutdown] that follows [Init] leaves
    the disk cache file as it was. *)
Theorem Init_then_Shutdown_writes_nothing (st : state) :
  all_in_cache (pshaders st) ->
  all_in_cache (pshaders (Init st).2) /\
  g_program_disk_cache (Shutdown (Init st).2).2 = g_program_disk_cache st.
Proof.
  intros Hst. pose proof (Init_in_cache_stays st Hst) as Hinit.
  split; [exact Hinit |].
  rewrite (Shutdown_disk_all_in_cache _ Hinit). symmetry.
  apply Init_keeps_disk.
Qed.

(** ** [CompileShader] part by part *)

Lemma bind_bind {A B C} (c : St A) (f : A -> St B) (g : B -> St C) st :
  bind (bind c f) g st = bind c (fun a => bind (f a) g) st.
Proof. unfold bind. by destruct (c st). Qed.

Lemma bind_ret {A B} (a : A) (f : A -> St B) st : bind (ret a) f st = f a st.
Proof. reflexivity. Qed.

Lemma bind_cong {A B} (c : St A) (k1 k2 : A -> St B) st :
  (forall a s, k1 a s = k2 a s) -> bind c k1 st = bind c k2 st.
Proof. intros Hk. unfold bind. by destruct (c st). Qed.

Ltac same_statements :=
  repeat first
    [ reflexivity
    | rewrite bind_bind
    | rewrite bind_ret
    | apply bind_cong; intros ? ?; cbv beta zeta ].

Lemma CompileShader_parts sh vcode pcode gcode macros st :
  CompileShader sh vcode pcode gcode macros st
  = (ids <- CompileShader_stages vcode pcode gcode macros ;;
     if stage_missing gcode ids then
       call (glDeleteShader ids.1.1) ;;;
       call (glDeleteShader ids.1.2) ;;;
       call (glDeleteShader ids.2) ;;;
       ret (false, sh)
     else
       pid <- CompileShader_link sh ids.1.1 ids.1.2 ids.2 ;;
       linkStatus <- CompileShader_link_status pid vcode pcode gcode ;;
       CompileShader_finish (set_glprogid pid sh) pid linkStatus) st.
Proof.
  unfold CompileShader, CompileShader_stages. same_statements.
  unfold stage_missing. cbn [fst snd].
  destruct (_ || _); [reflexivity |].
  unfold CompileShader_link, CompileShader_link_status, CompileShader_finish.
  same_statements.
Qed.

(** *** The stages *)

Lemma split_behind_no_create mid rest pre type post :
  forallb not_create_shader mid = true ->
  mid ++ rest = pre ++ glCreateShader type :: post ->
  exists pre', pre = mid ++ pre' /\ rest = pre' ++ glCreateShader type :: post.
Proof.
  revert pre. induction mid as [|e mid IH]; intros pre Hmid Hsplit.
  - exists pre. done.
  - cbn in Hmid. apply andb_true_iff in Hmid as [He Hmid].
    destruct pre as [|e' pre]; cbn in Hsplit; injection Hsplit as -> Hsplit.
    + discriminate.
    + destruct (IH pre Hmid Hsplit) as (pre' & -> & ->). by exists pre'.
Qed.

Lemma stage_objects_deleted_no_create h l :
  forallb not_create_shader l = true -> stage_objects_deleted h l.
Proof.
  intros Hl pre type post Hsplit.
  rewrite <- (app_nil_r l) in Hsplit.
  apply split_behind_no_create in Hsplit as (pre' & _ & Hnil); [|done].
  by destruct pre'.
Qed.

Lemma CompileShader_stages_spec vcode pcode gcode macros st :
  let r := CompileShader_stages vcode pcode gcode macros st in
  exists part,
    trace r.2 = trace st ++ part /\
    count_calls is_link_call part = 0%nat /\
    forall rest,
      forallb not_create_shader rest = true ->
      glDeleteShader r.1.1.1 ∈ rest ->
      glDeleteShader r.1.1.2 ∈ rest ->
      glDeleteShader r.1.2 ∈ rest ->
      stage_objects_deleted (trace st) (part ++ rest).
Proof.
  unfold CompileShader_stages, bind.
  pose proof (CompileSingleShader_spec GL_VERTEX_SHADER vcode macros st) as Hv.
  cbv zeta in Hv.
  destruct (CompileSingleShader GL_VERTEX_SHADER vcode macros st)
    as [vsid st_v].
  cbn [fst snd] in *. destruct Hv as (mid_v & Htv & Hmv & Hrv).
  pose proof (CompileSingleShader_spec GL_FRAGMENT_SHADER pcode macros st_v)
    as Hf.
  cbv zeta in Hf.
  destruct (CompileSingleShader GL_FRAGMENT_SHADER pcode macros st_v)
    as [psid st_f].
  cbn [fst snd] in *. destruct Hf as (mid_f & Htf & Hmf & Hrf).
  rewrite Htv in Hrf, Htf.
  assert (Hg : exists gsid st_g part,
    match gcode with
    | Some code => CompileSingleShader GL_GEOMETRY_SHADER code macros
    | None => ret 0
    end st_f = (gsid, st_g) /\
    trace st_g = trace st_f ++ part /\
    count_calls is_link_call part = 0%nat /\
    forall rest,
      forallb not_create_shader rest = true ->
      glDeleteShader gsid ∈ rest ->
      stage_objects_deleted (trace st_f) (part ++ rest)).
  { destruct gcode as [code|].
    - pose proof (CompileSingleShader_spec GL_GEOMETRY_SHADER code macros st_f)
        as Hg.
      cbv zeta in Hg.
      destruct (CompileSingleShader GL_GEOMETRY_SHADER code macros st_f)
        as [gsid st_g].
      cbn [fst snd] in *. destruct Hg as (mid_g & Htg & Hmg & Hrg).
      exists gsid, st_g, (glCreateShader GL_GEOMETRY_SHADER :: mid_g).
      split; [done |]. split; [done |].
      split; [cbn; by rewrite stage_body_not_link |].
      intros rest Hrest Hdel. cbn.
      apply stage_objects_deleted_stage; [done | |].
      + intros _. apply elem_of_app.
        destruct Hrg as [<-|[_ Hin]]; [by right | by left].
      + by apply stage_objects_deleted_no_create.
    - exists 0, st_f, []. split; [done |].
      split; [by rewrite app_nil_r |].
      split; [done |]. intros rest Hrest _. cbn.
      by apply stage_objects_deleted_no_create. }
  destruct Hg as (gsid & st_g & part & Hgrun & Htg & Hlg & Hdg).
  rewrite Hgrun. cbn [fst snd ret].
  exists (glCreateShader GL_VERTEX_SHADER :: mid_v
          ++ glCreateShader GL_FRAGMENT_SHADER :: mid_f ++ part).
  split; [|split].
  - rewrite Htg, Htf. cbn. by rewrite <- !app_assoc.
  - cbn. rewrite !count_calls_app. cbn. rewrite !count_calls_app.
    rewrite (stage_body_not_link _ Hmv), (stage_body_not_link _ Hmf), Hlg.
    done.
  - intros rest Hrest Hdv Hdf Hdgs. cbn. rewrite <- !app_assoc. cbn.
    rewrite <- !app_assoc.
    apply stage_objects_deleted_stage; [done | |].
    + intros _. apply elem_of_app.
      destruct Hrv as [<-|[_ Hin]]; [right | by left].
      apply list_elem_of_further, elem_of_app. right.
      apply elem_of_app. by right.
    + apply stage_objects_deleted_stage; [done | |].
      * intros _. apply elem_of_app.
        destruct Hrf as [<-|[_ Hin]]; [right | by left].
        apply elem_of_app. by right.
      * rewrite <- Htf. by apply Hdg.
Qed.

(** *** The program object *)

#[global] Instance only_trace_preorder : PreOrder only_trace.
Proof.
  split; unfold only_trace.
  - intros a. reflexivity.
  - intros a b c Hb Hc. rewrite Hc, Hb. reflexivity.
Qed.

Ltac only_trace_step :=
  lazymatch goal with
  | |- keeps only_trace (call _) => intros ?; reflexivity
  | |- keeps only_trace (ask _) => intros ?; reflexivity
  | |- keeps only_trace (ask_into _ _) => intros ?; reflexivity
  | |- keeps only_trace (ask_text _) => intros ?; reflexivity
  | |- keeps only_trace (ask_bytes _) => intros ?; reflexivity
  | |- _ => frame_step
  end.

Lemma run_only_trace {A} (c : St A) ok st :
  keeps (grows ok) c -> keeps only_trace c ->
  exists new,
    forallb ok new = true /\ (c st).2 = set_trace (trace st ++ new) st.
Proof.
  intros Hg Ho. destruct (Hg st) as (new & Htrace & Hnew).
  exists new. split; [done |]. rewrite <- Htrace. apply Ho.
Qed.

Lemma SetProgramBindings_spec s st :
  exists new,
    forallb plain_call new = true /\
    SetProgramBindings s st = (tt, set_trace (trace st ++ new) st).
Proof.
  destruct (run_only_trace (SetProgramBindings s) plain_call st)
    as (new & Hnew & Heq); [frame | repeat only_trace_step |].
  exists new. split; [done |].
  destruct (SetProgramBindings s st) as [[] st']. cbn in Heq. by rewrite Heq.
Qed.

Lemma CompileShader_link_spec sh vsid psid gsid st :
  let pid := gl_answer E (trace st ++ [glCreateProgram]) in
  exists mid,
    forallb plain_call mid = true /\
    CompileShader_link sh vsid psid gsid st
    = (pid,
       set_trace
         (trace st ++ glCreateProgram :: mid
            ++ [glLinkProgram pid; glDeleteShader vsid; glDeleteShader psid;
                glDeleteShader gsid]) st).
Proof.
  intros pid. unfold CompileShader_link, bind, ask, call, get, when, modify, ret.
  cbn -[SetProgramBindings]. fold pid.
  set (hint := glProgramParameteri pid GL_PROGRAM_BINARY_RETRIEVABLE_HINT
                 GL_TRUE).
  assert (Hshape : forall (attached : list event) s,
    forallb plain_call attached = true ->
    s = set_trace (trace st ++ glCreateProgram :: attached) st ->
    exists mid,
      forallb plain_call mid = true /\
      (let '(_, st'0) := SetProgramBindings (set_glprogid pid sh) s in
       (pid,
        set_trace
          ((((trace st'0 ++ [glLinkProgram pid]) ++ [glDeleteShader vsid])
            ++ [glDeleteShader psid]) ++ [glDeleteShader gsid])
          (set_trace
             (((trace st'0 ++ [glLinkProgram pid]) ++ [glDeleteShader vsid])
              ++ [glDeleteShader psid])
             (set_trace
                ((trace st'0 ++ [glLinkProgram pid]) ++ [glDeleteShader vsid])
                (set_trace (trace st'0 ++ [glLinkProgram pid]) st'0)))))
      = (pid,
         set_trace
           (trace st ++ glCreateProgram :: mid
              ++ [glLinkProgram pid; glDeleteShader vsid; glDeleteShader psid;
                  glDeleteShader gsid]) st)).
  { intros attached s Hattached ->.
    destruct (SetProgramBindings_spec (set_glprogid pid sh)
                (set_trace (trace st ++ glCreateProgram :: attached) st))
      as (b & Hb & ->).
    exists (attached ++ b). split; [by rewrite forallb_app, Hattached, Hb |].
    cbn. repeat (rewrite <- app_assoc; cbn). reflexivity. }
  destruct (negb (gsid =? 0));
    cbn -[SetProgramBindings];
    match goal with
    | |- context [if ?b then _ else _] => destruct b
    end;
    cbn -[SetProgramBindings];
    (eapply Hshape;
     [ | repeat (rewrite <- app_assoc; cbn); reflexivity ]; reflexivity).
Qed.

Lemma forallb_plain l :
  forallb plain_call l = true ->
  forallb not_object_call l = true /\ forallb not_bind_call l = true.
Proof.
  induction l as [|e l IH]; cbn; [done |].
  intros [[He1 He2]%andb_true_iff Hl]%andb_true_iff.
  destruct (IH Hl) as [H1 H2]. by rewrite He1, He2, H1, H2.
Qed.

Lemma not_object_not_create l :
  forallb not_object_call l = true -> forallb not_create_shader l = true.
Proof.
  induction l as [|e l IH]; cbn; [done |].
  intros [He Hl]%andb_true_iff. rewrite (IH Hl). by destruct e.
Qed.

Lemma CompileShader_link_plain sh vsid psid gsid :
  keeps (grows not_bind_call) (CompileShader_link sh vsid psid gsid).
Proof. frame. Qed.

Lemma CompileShader_stages_keeps_current v p g m :
  keeps (same CurrentProgram) (CompileShader_stages v p g m).
Proof. frame. Qed.

Lemma CompileShader_stages_no_bind v p g m :
  keeps (grows not_bind_call) (CompileShader_stages v p g m).
Proof. frame. Qed.

(** *** The link status *)

Lemma CompileShader_link_status_value pid v p g st :
  (CompileShader_link_status pid v p g st).1
  = gl_answer E (trace st ++ [glGetProgramiv pid GL_LINK_STATUS]).
Proof.
  unfold CompileShader_link_status, bind. unfold ask at 1.
  destruct (ask_into _ _ _) as [len s1].
  by destruct (when _ _ s1) as [[] s2].
Qed.

Lemma CompileShader_link_status_plain pid v p g :
  keeps (grows plain_call) (CompileShader_link_status pid v p g).
Proof. frame. Qed.

Lemma CompileShader_link_status_keeps_current pid v p g :
  keeps (same CurrentProgram) (CompileShader_link_status pid v p g).
Proof. frame. Qed.

Lemma CompileShader_link_status_first pid v p g st :
  exists report,
    trace (CompileShader_link_status pid v p g st).2
    = trace st ++ glGetProgramiv pid GL_LINK_STATUS :: report /\
    forallb plain_call report = true.
Proof.
  unfold CompileShader_link_status. unfold bind at 1, ask at 1.
  match goal with
  | |- context [trace (?c ?s).2] =>
      assert (Hk : keeps (grows plain_call) c) by frame;
      destruct (Hk s) as (report & Hreport & Hplain)
  end.
  exists report. split; [|done]. rewrite Hreport. cbn.
  by rewrite <- app_assoc.
Qed.

(** *** The outcome *)

Lemma SetProgramVariables_objects s :
  keeps (grows not_object_call) (SetProgramVariables s).
Proof. frame. Qed.

Lemma CompileShader_finish_spec sh pid status st :
  exists tail,
    (CompileShader_finish sh pid status st).1 = (status =? GL_TRUE, sh) /\
    trace (CompileShader_finish sh pid status st).2 = trace st ++ tail /\
    if status =? GL_TRUE
    then forallb not_object_call tail = true
    else tail = [ERROR_LOG "Program linking failed; see info log";
                 glDeleteProgram pid] /\
         CurrentProgram (CompileShader_finish sh pid status st).2
           = CurrentProgram st.
Proof.
  unfold CompileShader_finish. destruct (status =? GL_TRUE); cbn [negb].
  - unfold bind. destruct (SetProgramVariables_objects sh st)
      as (tail & Htail & Hok).
    destruct (SetProgramVariables sh st) as [[] st']. cbn in *.
    by exists tail.
  - unfold bind, call, ret. cbn. eexists. split; [reflexivity |].
    split; [by rewrite <- app_assoc |]. done.
Qed.

Lemma CompileShader_outcome sh v p g m st :
  let ids := (CompileShader_stages v p g m st).1 in
  let st_s := (CompileShader_stages v p g m st).2 in
  let run := CompileShader sh v p g m st in
  if stage_missing g ids then
    run = ((false, sh),
           set_trace
             (trace st_s ++ [glDeleteShader ids.1.1; glDeleteShader ids.1.2;
                             glDeleteShader ids.2]) st_s)
  else
    let pid := gl_answer E (trace st_s ++ [glCreateProgram]) in
    exists mid report tail status,
      run.1 = (status =? GL_TRUE, set_glprogid pid sh) /\
      trace run.2
        = trace st_s ++ glCreateProgram :: mid
            ++ [glLinkProgram pid; glDeleteShader ids.1.1;
                glDeleteShader ids.1.2; glDeleteShader ids.2]
            ++ glGetProgramiv pid GL_LINK_STATUS :: report ++ tail /\
      forallb plain_call mid = true /\
      forallb plain_call report = true /\
      if status =? GL_TRUE
      then forallb not_object_call tail = true
      else tail = [ERROR_LOG "Program linking failed; see info log";
                   glDeleteProgram pid] /\
           CurrentProgram run.2 = CurrentProgram st_s.
Proof.
  intros ids st_s run.
  assert (Hrun : run = _) by apply CompileShader_parts.
  clearbody run. subst ids st_s. unfold bind at 1 in Hrun.
  destruct (CompileShader_stages v p g m st) as [ids st_s]. cbn [fst snd].
  destruct (stage_missing g ids).
  - rewrite Hrun. unfold bind, call, ret. cbn.
    by repeat (rewrite <- app_assoc; cbn).
  - set (pid := gl_answer E (trace st_s ++ [glCreateProgram])).
    unfold bind at 1 in Hrun.
    destruct (CompileShader_link_spec sh ids.1.1 ids.1.2 ids.2 st_s)
      as (mid & Hmid & Hlink).
    rewrite Hlink in Hrun. fold pid in Hrun. unfold bind at 1 in Hrun.
    match type of Hrun with
    | context [CompileShader_link_status pid v p g ?s] =>
        set (s1 := s) in Hrun;
        pose proof (CompileShader_link_status_first pid v p g s1)
          as (report & Hreport & Hplain);
        pose proof (CompileShader_link_status_keeps_current pid v p g s1)
          as Hcur;
        destruct (CompileShader_link_status pid v p g s1) as [status s2]
    end.
    cbn [snd] in Hreport, Hcur. unfold same in Hcur.
    destruct (CompileShader_finish_spec (set_glprogid pid sh) pid status s2)
      as (tail & Hres & Htail & Hcase).
    rewrite <- Hrun in Hres, Htail, Hcase. clear Hrun.
    exists mid, report, tail, status.
    split; [exact Hres |].
    split; [rewrite Htail, Hreport; subst s1; cbn;
            by repeat (rewrite <- app_assoc; cbn) |].
    split; [exact Hmid |]. split; [exact Hplain |].
    destruct (status =? GL_TRUE); [exact Hcase |].
    destruct Hcase as [-> Hc]. split; [done |].
    etrans; [exact Hc |]. etrans; [symmetry; exact Hcur |]. reflexivity.
Qed.

Lemma forallb_not_bind_count l :
  forallb not_bind_call l = true -> bind_calls l = 0%nat.
Proof. apply count_calls_forallb_negb. Qed.

Lemma plain_not_delete l :
  forallb not_object_call l = true ->
  count_calls is_program_delete l = 0%nat.
Proof.
  induction l as [|e l IH]; cbn; [done |].
  intros [He Hl]%andb_true_iff. rewrite (IH Hl). by destruct e.
Qed.

Lemma CompileShader_stages_no_delete v p g m :
  keeps (grows not_program_delete) (CompileShader_stages v p g m).
Proof. frame. Qed.

(** X8.  Whatever the outcome of [CompileShader], every shader object
    created for the request is deleted before it returns. *)
Theorem CompileShader_deletes_every_stage_object
    (sh : SHADER) (vcode pcode : string) (gcode : option string)
    (macros : list string) (st : state) :
  exists new,
    trace (CompileShader sh vcode pcode gcode macros st).2 = trace st ++ new /\
    stage_objects_deleted (trace st) new.
Proof.
  pose proof (CompileShader_stages_spec vcode pcode gcode macros st) as Hs.
  pose proof (CompileShader_outcome sh vcode pcode gcode macros st) as Ho.
  cbv zeta in Hs, Ho.
  destruct (CompileShader_stages vcode pcode gcode macros st) as [ids st_s].
  cbn [fst snd] in *. destruct Hs as (part & Hpart & _ & Hdel).
  set (dels := [glDeleteShader ids.1.1; glDeleteShader ids.1.2;
                glDeleteShader ids.2]) in *.
  assert (Hdv : glDeleteShader ids.1.1 ∈ dels)
    by (subst dels; apply list_elem_of_here).
  assert (Hdf : glDeleteShader ids.1.2 ∈ dels)
    by (subst dels; apply list_elem_of_further, list_elem_of_here).
  assert (Hdg : glDeleteShader ids.2 ∈ dels)
    by (subst dels; do 2 apply list_elem_of_further; apply list_elem_of_here).
  destruct (stage_missing gcode ids).
  - rewrite Ho. exists (part ++ dels).
    split; [cbn; by rewrite Hpart, <- app_assoc |].
    by apply Hdel.
  - destruct Ho as (mid & report & tail & status & _ & Htrace & Hmid & Hrep
                    & Htail).
    apply forallb_plain in Hmid as [Hmid _], Hrep as [Hrep _].
    apply not_object_not_create in Hmid, Hrep.
    match type of Htrace with
    | _ = _ ++ ?r => exists (part ++ r); split;
        [by rewrite Htrace, Hpart, <- app_assoc |
         apply Hdel; [| | |]]
    end.
    + cbn. rewrite !forallb_app. cbn. rewrite forallb_app, Hmid, Hrep. cbn.
      destruct (status =? GL_TRUE);
        [by apply not_object_not_create | by destruct Htail as [-> _]].
    + apply list_elem_of_further, elem_of_app. right.
      apply elem_of_app. left. by apply list_elem_of_further.
    + apply list_elem_of_further, elem_of_app. right.
      apply elem_of_app. left. by apply list_elem_of_further.
    + apply list_elem_of_further, elem_of_app. right.
      apply elem_of_app. left. by apply list_elem_of_further.
Qed.

(** The calls of the stages, with what the frames say of them. *)
Lemma CompileShader_stages_calls v p g m st :
  exists part,
    trace (CompileShader_stages v p g m st).2 = trace st ++ part /\
    count_calls is_link_call part = 0%nat /\
    forallb not_bind_call part = true /\
    count_calls is_program_delete part = 0%nat /\
    CurrentProgram (CompileShader_stages v p g m st).2 = CurrentProgram st.
Proof.
  destruct (CompileShader_stages_spec v p g m st) as (part & Hpart & Hlink & _).
  destruct (CompileShader_stages_no_bind v p g m st) as (n1 & H1 & Hbind).
  destruct (CompileShader_stages_no_delete v p g m st) as (n2 & H2 & Hdel).
  pose proof (CompileShader_stages_keeps_current v p g m st) as Hcur.
  rewrite Hpart in H1, H2. apply app_inv_head in H1, H2. subst n1 n2.
  exists part. split; [done |]. split; [done |]. split; [done |].
  split; [by apply count_calls_forallb_negb | by symmetry].
Qed.

Lemma CompileShader_false sh v p g m st sh' st' :
  CompileShader sh v p g m st = ((false, sh'), st') ->
  CurrentProgram st' = CurrentProgram st /\
  exists new,
    trace st' = trace st ++ new /\
    forallb not_bind_call new = true /\
    ((sh' = sh /\ count_calls is_link_call new = 0%nat) \/
     (exists pre post,
        new = pre ++ glCreateProgram :: post
                ++ [glDeleteProgram (glprogid sh')] /\
        glprogid sh' = gl_answer E (trace st ++ pre ++ [glCreateProgram]) /\
        sh' = set_glprogid (glprogid sh') sh)).
Proof.
  intros Hrun.
  destruct (CompileShader_stages_calls v p g m st)
    as (part & Hpart & Hlink & Hbind & _ & Hcur).
  pose proof (CompileShader_outcome sh v p g m st) as Ho. cbv zeta in Ho.
  rewrite Hrun in Ho.
  destruct (CompileShader_stages v p g m st) as [ids st_s].
  cbn [fst snd] in *.
  destruct (stage_missing g ids).
  - injection Ho as -> ->. split; [exact Hcur |].
    eexists. split; [cbn; rewrite Hpart, <- app_assoc; reflexivity |].
    split; [by rewrite forallb_app, Hbind |]. left. split; [done |].
    by rewrite count_calls_app, Hlink.
  - destruct Ho as (mid & report & tail & status & Hres & Htrace & Hmid & Hrep
                    & Htail).
    injection Hres as Hstatus ->. rewrite <- Hstatus in Htail.
    destruct Htail as [-> Hcur']. split; [congruence |].
    apply forallb_plain in Hmid as [_ Hmid], Hrep as [_ Hrep].
    set (pid := gl_answer E (trace st_s ++ [glCreateProgram])) in *.
    assert (Hpid : pid = gl_answer E (trace st ++ part ++ [glCreateProgram]))
      by (subst pid; by rewrite Hpart, <- app_assoc).
    clearbody pid.
    eexists. split; [rewrite Htrace, Hpart, <- app_assoc; reflexivity |].
    split.
    { rewrite forallb_app, Hbind. cbn. rewrite forallb_app, Hmid. cbn.
      by rewrite forallb_app, Hrep. }
    right. exists part.
    match type of Htrace with
    | _ = _ ++ _ :: _ ++ ?dels ++ ?query :: _ ++ [?log; _] =>
        exists (mid ++ dels ++ query :: report ++ [log])
    end.
    split; [|split].
    + apply (f_equal (app part)), (f_equal (cons glCreateProgram)).
      rewrite <- !app_assoc. cbn. by rewrite <- !app_assoc.
    + exact Hpid.
    + reflexivity.
Qed.

(** X9.  When [CompileShader] returns false, either it created no
    program, made no link call and left the shader as it was, or its last
    call deletes the program it created, whose name stays in the shader's
    [glprogid]. *)
Theorem CompileShader_failure_leaves_no_program
    (sh sh' : SHADER) (vcode pcode : string) (gcode : option string)
    (macros : list string) (st st' : state) :
  CompileShader sh vcode pcode gcode macros st = ((false, sh'), st') ->
  exists new,
    trace st' = trace st ++ new /\
    ((sh' = sh /\ count_calls is_link_call new = 0%nat) \/
     (exists pre post,
        new = pre ++ glCreateProgram :: post
                ++ [glDeleteProgram (glprogid sh')] /\
        glprogid sh' = gl_answer E (trace st ++ pre ++ [glCreateProgram]) /\
        sh' = set_glprogid (glprogid sh') sh)).
Proof.
  intros (_ & new & Htrace & _ & Hcase)%CompileShader_false. eauto.
Qed.

(** X10.  When [CompileShader] returns true, the shader's [glprogid] is
    the name the driver gave to the program created, that program was
    linked, and no program was deleted. *)
Theorem CompileShader_success_names_linked_program
    (sh sh' : SHADER) (vcode pcode : string) (gcode : option string)
    (macros : list string) (st st' : state) :
  CompileShader sh vcode pcode gcode macros st = ((true, sh'), st') ->
  exists pre post,
    trace st' = trace st ++ pre ++ glCreateProgram :: post /\
    glprogid sh' = gl_answer E (trace st ++ pre ++ [glCreateProgram]) /\
    sh' = set_glprogid (glprogid sh') sh /\
    glLinkProgram (glprogid sh') ∈ post /\
    count_calls is_program_delete (pre ++ glCreateProgram :: post) = 0%nat.
Proof.
  intros Hrun.
  destruct (CompileShader_stages_calls vcode pcode gcode macros st)
    as (part & Hpart & _ & _ & Hdel & _).
  pose proof (CompileShader_outcome sh vcode pcode gcode macros st) as Ho.
  cbv zeta in Ho. rewrite Hrun in Ho.
  destruct (CompileShader_stages vcode pcode gcode macros st) as [ids st_s].
  cbn [fst snd] in *.
  destruct (stage_missing gcode ids); [discriminate |].
  destruct Ho as (mid & report & tail & status & Hres & Htrace & Hmid & Hrep
                  & Htail).
  injection Hres as Hstatus ->. rewrite <- Hstatus in Htail.
  apply forallb_plain in Hmid as [Hmid _], Hrep as [Hrep _].
  set (pid := gl_answer E (trace st_s ++ [glCreateProgram])) in *.
  assert (Hpid : pid = gl_answer E (trace st ++ part ++ [glCreateProgram]))
    by (subst pid; by rewrite Hpart, <- app_assoc).
  clearbody pid.
  exists part. eexists.
  split; [rewrite Htrace, Hpart, <- app_assoc; reflexivity |].
  split; [exact Hpid |].
  split; [reflexivity |]. split.
  - apply elem_of_app. right. apply list_elem_of_here.
  - rewrite count_calls_app, Hdel. cbn. rewrite !count_calls_app. cbn.
    rewrite count_calls_app.
    by rewrite !plain_not_delete.
Qed.

(** ** A compilation that fails, seen from [SetShader] *)

Lemma SetShader_lookup_Missing_shader p st uid sh st' :
  SetShader_lookup p st = Missing uid sh st' ->
  glprogid sh = SHADER_initial_glprogid E.
Proof.
  unfold SetShader_lookup. destruct (GetShaderId p st) as [uid0 st0].
  destruct (_ && _); [discriminate |].
  destruct (pshaders _ !! uid0); [discriminate |].
  unfold SetShader_new_entry.
  destruct (bEnableShaderDebugging E), (gcode_of p uid0);
    try discriminate;
    destruct (save_shaders _ _ _ _); by intros [= _ <- _].
Qed.

Lemma GetShaderId_keeps_current p : keeps (same CurrentProgram) (GetShaderId p).
Proof. frame. Qed.

Lemma GetShaderId_no_bind p : keeps (grows not_bind_call) (GetShaderId p).
Proof. frame. Qed.

Lemma save_shaders_keeps_current v p' g :
  keeps (same CurrentProgram) (save_shaders v p' g).
Proof. frame. Qed.

Lemma save_shaders_no_bind v p' g :
  keeps (grows not_bind_call) (save_shaders v p' g).
Proof. frame. Qed.

Lemma SetShader_lookup_keeps_current p st :
  match SetShader_lookup p st with
  | Found st' => same CurrentProgram st st'
  | Missing _ _ st' => same CurrentProgram st st'
  | Undefined _ => True
  end.
Proof.
  apply SetShader_lookup_keeps; try tc_solve; try (intros; reflexivity).
  - apply GetShaderId_keeps_current.
  - apply save_shaders_keeps_current.
Qed.

Lemma SetShader_lookup_no_bind p st :
  match SetShader_lookup p st with
  | Found st' => grows not_bind_call st st'
  | Missing _ _ st' => grows not_bind_call st st'
  | Undefined _ => True
  end.
Proof.
  apply SetShader_lookup_keeps; try tc_solve;
    try (intros; by apply grows_same_trace).
  - apply GetShaderId_no_bind.
  - apply save_shaders_no_bind.
Qed.

(** How a call that hands back the null pointer went. *)
Lemma SetShader_None p st st' :
  SetShader p st = Returns None st' ->
  exists sh st0 sh' stc,
    SetShader_lookup p st = Missing (uid_of p) sh st0 /\
    CompileShader sh (vcode_of p) (pcode_of p) (gcode_of p (uid_of p)) [] st0
      = ((false, sh'), stc) /\
    st' = set_trace (trace stc ++ [GFX_DEBUGGER_PAUSE_AT NEXT_ERROR])
            (set_pshaders
               (<[uid_of p := set_shader sh' new_PCacheEntry]> (pshaders stc))
               stc).
Proof.
  intros Hrun. pose proof Hrun as Hcases. apply SetShader_cases in Hcases
    as [(st0 & k & entry & _ & _ & _ & [=] & _)
       |(sh & st0 & ok & sh' & stc & Hlook & Hcomp & Hr & _)].
  destruct ok; [discriminate |]. exists sh, st0, sh', stc.
  split; [done |]. split; [done |].
  unfold SetShader in Hrun. rewrite Hlook in Hrun.
  unfold SetShader_compile in Hrun. rewrite Hcomp in Hrun.
  cbn in Hrun. by injection Hrun as <-.
Qed.

(** X6.  A [SetShader] call that hands back the null pointer binds
    nothing: the tracked current program keeps its value and no
    [glUseProgram] is issued. *)
Theorem SetShader_failure_binds_nothing
    (p : pipeline_state) (st st' : state) :
  SetShader p st = Returns None st' ->
  GetCurrentProgram st' = GetCurrentProgram st /\
  bind_calls (trace st') = bind_calls (trace st).
Proof.
  intros (sh & st0 & sh' & stc & Hlook & Hcomp & ->)%SetShader_None.
  pose proof (SetShader_lookup_keeps_current p st) as Hc0.
  rewrite Hlook in Hc0.
  pose proof (SetShader_lookup_no_bind p st) as Hb0.
  rewrite Hlook in Hb0. destruct Hb0 as (new0 & Htrace0 & Hnew0).
  apply CompileShader_false in Hcomp as (Hcur & new & Htrace & Hnew & _).
  unfold GetCurrentProgram. split.
  - change (CurrentProgram stc = CurrentProgram st).
    etrans; [exact Hcur |]. symmetry. exact Hc0.
  - cbn. rewrite Htrace, Htrace0. unfold bind_calls.
    rewrite !count_calls_app. cbn.
    rewrite (count_calls_forallb_negb is_bind_call _ Hnew0).
    rewrite (count_calls_forallb_negb is_bind_call _ Hnew). lia.
Qed.

(** X7.  After a [SetShader] call that handed back the null pointer, the
    next call for the same pipeline state hands back a pointer to the
    node the failure left, and makes the program recorded there the
    tracked current one: a program that was never created, when a stage
    failed, or one that [CompileShader] has deleted, when linking failed. *)
Theorem SetShader_after_failure_binds_dead_program
    (p : pipeline_state) (st st1 : state) :
  SetShader p st = Returns None st1 ->
  exists entry st2,
    pshaders st1 !! uid_of p = Some entry /\
    (glprogid (shader entry) = SHADER_initial_glprogid E \/
     glDeleteProgram (glprogid (shader entry)) ∈ trace st1) /\
    SetShader p st1 = Returns (Some (uid_of p)) st2 /\
    GetCurrentProgram st2 = glprogid (shader entry).
Proof.
  intros (sh & st0 & sh' & stc & Hlook & Hcomp & ->)%SetShader_None.
  pose proof (SetShader_lookup_Missing_shader _ _ _ _ _ Hlook) as Hinit.
  pose proof (CompileShader_keeps_cache sh (vcode_of p) (pcode_of p)
                (gcode_of p (uid_of p)) [] st0) as Hc.
  rewrite Hcomp in Hc. cbn [snd] in Hc.
  apply same_cache_vars in Hc as (_ & Hlc & Huc).
  apply SetShader_lookup_Missing in Hlook as (_ & _ & _ & Hl0 & Hu0 & _).
  apply CompileShader_false in Hcomp as (_ & new & Htrace & _ & Hcase).
  set (entry := set_shader sh' new_PCacheEntry).
  match goal with |- context [SetShader p ?s] => set (st1 := s) end.
  assert (Hentry : pshaders st1 !! uid_of p = Some entry)
    by (subst st1; cbn; apply lookup_insert_eq).
  assert (Hl1 : last_entry st1 = Some (uid_of p))
    by (subst st1; change (last_entry stc = Some (uid_of p)); congruence).
  assert (Hu1 : last_uid st1 = uid_of p)
    by (subst st1; change (last_uid stc = uid_of p); congruence).
  assert (Hwf : cache_wf st1).
  { unfold cache_wf. rewrite Hl1, Hu1, Hentry. eauto. }
  destruct (SetShader_cached p st1 entry Hwf Hentry)
    as (st2 & Hagain & Hmap & _).
  exists entry, st2. split; [exact Hentry |]. split; [|split; [exact Hagain |]].
  - destruct Hcase as [[-> _]|(pre & post & -> & _ & _)]; [by left |].
    right. subst st1. cbn. rewrite Htrace.
    apply elem_of_app. left. apply elem_of_app. right.
    apply elem_of_app. right. apply list_elem_of_further, elem_of_app.
    right. apply list_elem_of_here.
  - apply SetShader_bound in Hagain as (entry' & _ & Hk & _ & Hcur).
    unfold GetCurrentProgram. rewrite Hcur, Hmap, Hentry in *.
    by injection Hk as <-.
Qed.

(** ** The numbering of the dump files *)

Lemma dump_indices_app t1 t2 :
  dump_indices (t1 ++ t2) = dump_indices t1 ++ dump_indices t2.
Proof. apply omap_app. Qed.

#[global] Instance dumps_numbered_preorder : PreOrder dumps_numbered.
Proof.
  split.
  - intros a. exists []. cbn. rewrite app_nil_r. split; [done |].
    split; [done | lia].
  - intros a b c (n1 & Ht1 & Hd1 & Hn1) (n2 & Ht2 & Hd2 & Hn2).
    exists (n1 ++ n2). split; [by rewrite Ht2, Ht1, app_assoc |].
    rewrite dump_indices_app, length_app, Nat2Z.inj_add.
    split; [|lia].
    rewrite seqZ_app by lia. rewrite <- Hd1, <- Hn1, <- Hd2. reflexivity.
Qed.

Lemma dumps_numbered_append st t e :
  is_dump e = false -> t = trace st ++ [e] ->
  dumps_numbered st (set_trace t st).
Proof.
  intros He ->. exists [e]. split; [reflexivity |].
  assert (Hnone : dump_indices [e] = []) by (by destruct e).
  rewrite Hnone. cbn. split; [done |].
  change (num_failures st = num_failures st + 0). lia.
Qed.

Section DumpPrimitives.
Context (e : event).
Hypothesis not_dump : is_dump e = false.

Lemma dumps_call : keeps dumps_numbered (call e).
Proof. intros st. by apply (dumps_numbered_append st _ e). Qed.
Lemma dumps_ask : keeps dumps_numbered (ask e).
Proof. intros st. by apply (dumps_numbered_append st _ e). Qed.
Lemma dumps_ask_into old : keeps dumps_numbered (ask_into e old).
Proof. intros st. by apply (dumps_numbered_append st _ e). Qed.
Lemma dumps_ask_text : keeps dumps_numbered (ask_text e).
Proof. intros st. by apply (dumps_numbered_append st _ e). Qed.
End DumpPrimitives.

Lemma dumps_modify (f : state -> state) :
  (forall st, trace (f st) = trace st) ->
  (forall st, num_failures (f st) = num_failures st) ->
  keeps dumps_numbered (modify f).
Proof.
  intros Ht Hn st. exists [].
  change (trace (f st) = trace st ++ [] /\ @nil Z = [] /\
          num_failures (f st) = num_failures st + 0).
  rewrite Ht, Hn, app_nil_r. split; [done |]. split; [done | lia].
Qed.

Ltac dumps_step :=
  lazymatch goal with
  | |- keeps dumps_numbered (call _) => apply dumps_call; reflexivity
  | |- keeps dumps_numbered (ask _) => apply dumps_ask; reflexivity
  | |- keeps dumps_numbered (ask_into _ _) => apply dumps_ask_into; reflexivity
  | |- keeps dumps_numbered (ask_text _) => apply dumps_ask_text; reflexivity
  | |- keeps dumps_numbered (modify _) =>
      apply dumps_modify; intros; reflexivity
  | |- _ => frame_step
  end.

(** One report: the dump takes the counter as its number and the counter
    goes up by one. *)
Lemma dumps_numbered_report st st' t n before file_stem contents after :
  n = num_failures st ->
  t = trace st ++ before
        ++ DumpFile (DumpName file_stem n) contents :: after ->
  dump_indices before = [] -> dump_indices after = [] ->
  st' = set_num_failures (n + 1) (set_trace t st) ->
  dumps_numbered st st'.
Proof.
  intros -> -> Hb Ha ->.
  exists (before ++ DumpFile (DumpName file_stem (num_failures st)) contents
            :: after).
  split; [reflexivity |].
  rewrite dump_indices_app, Hb.
  change (dump_indices (DumpFile (DumpName file_stem (num_failures st))
                          contents :: after))
    with (num_failures st :: dump_indices after).
  rewrite Ha. cbn. split; [|reflexivity]. done.
Qed.

Lemma dumps_numbered_quiet st st' t new :
  t = trace st ++ new -> dump_indices new = [] ->
  st' = set_trace t st ->
  dumps_numbered st st'.
Proof.
  intros -> Hnew ->. exists new. split; [reflexivity |]. rewrite Hnew. cbn.
  split; [done |]. change (num_failures st = num_failures st + 0). lia.
Qed.

Lemma CompileSingleShader_source_dumps type code macros result :
  keeps dumps_numbered (CompileSingleShader_source type code macros result).
Proof.
  intros st.
  unfold CompileSingleShader_source, bind, get, call, ask, ask_into, ask_text,
    modify, when, ret.
  cbn.
  destruct (_ =? GL_TRUE); cbn;
    [destruct ((1 <? _) && DEBUG_GLSL E); cbn |];
    repeat (rewrite <- app_assoc; cbn).
  - eapply (dumps_numbered_report st _ _ _ [_; _; _; _; _; _] _ _ []);
      [ | | | | reflexivity]; reflexivity.
  - eapply dumps_numbered_quiet; [ | | reflexivity]; reflexivity.
  - eapply (dumps_numbered_report st _ _ _ [_; _; _; _; _; _] _ _ [_; _; _]);
      [ | | | | reflexivity]; reflexivity.
Qed.
#[local] Hint Resolve CompileSingleShader_source_dumps : frames.

Lemma CompileSingleShader_dumps type code macros :
  keeps dumps_numbered (CompileSingleShader type code macros).
Proof. unfold CompileSingleShader. repeat dumps_step. Qed.
#[local] Hint Resolve CompileSingleShader_dumps : frames.

Lemma CompileShader_link_status_dumps pid v p g :
  keeps dumps_numbered (CompileShader_link_status pid v p g).
Proof.
  intros st.
  unfold CompileShader_link_status, bind, get, call, ask, ask_into, ask_text,
    modify, when, ret.
  cbn.
  destruct (_ =? GL_TRUE); cbn;
    [destruct ((1 <? _) && DEBUG_GLSL E); cbn |];
    repeat (rewrite <- app_assoc; cbn).
  - eapply (dumps_numbered_report st _ _ _ [_; _; _; _] _ _ []);
      [ | | | | reflexivity]; reflexivity.
  - eapply dumps_numbered_quiet; [ | | reflexivity]; reflexivity.
  - eapply (dumps_numbered_report st _ _ _ [_; _; _; _] _ _ [_]);
      [ | | | | reflexivity]; reflexivity.
Qed.

Lemma Bind_dumps s : keeps dumps_numbered (Bind s).
Proof. repeat dumps_step. Qed.
#[local] Hint Resolve Bind_dumps : frames.

Lemma CompileShader_dumps sh v p g m :
  keeps dumps_numbered (CompileShader sh v p g m).
Proof.
  intros st. rewrite CompileShader_parts.
  revert st. change (keeps dumps_numbered
    (ids <- CompileShader_stages v p g m ;;
     if stage_missing g ids then
       call (glDeleteShader ids.1.1) ;;;
       call (glDeleteShader ids.1.2) ;;;
       call (glDeleteShader ids.2) ;;;
       ret (false, sh)
     else
       pid <- CompileShader_link sh ids.1.1 ids.1.2 ids.2 ;;
       linkStatus <- CompileShader_link_status pid v p g ;;
       CompileShader_finish (set_glprogid pid sh) pid linkStatus)).
  pose proof CompileShader_link_status_dumps as Hstatus.
  repeat dumps_step.
Qed.

(** X11.  The dump files written during one [CompileShader] are numbered
    consecutively from the value of [num_failures] before the call, so
    that no two share a number, and [num_failures] ends up advanced by
    the number of dumps. *)
Theorem CompileShader_numbers_its_dumps
    (sh : SHADER) (vcode pcode : string) (gcode : option string)
    (macros : list string) (st : state) :
  exists new,
    let st' := (CompileShader sh vcode pcode gcode macros st).2 in
    trace st' = trace st ++ new /\
    dump_indices new
      = seqZ (num_failures st) (Z.of_nat (List.length (dump_indices new))) /\
    NoDup (dump_indices new) /\
    num_failures st'
      = num_failures st + Z.of_nat (List.length (dump_indices new)).
Proof.
  destruct (CompileShader_dumps sh vcode pcode gcode macros st)
    as (new & Htrace & Hdumps & Hcount).
  exists new. cbv zeta. split; [done |]. split; [done |].
  split; [rewrite Hdumps; apply NoDup_seqZ | done].
Qed.

(** X12.  When the driver reports a stage as not compiled,
    [CompileSingleShader] returns 0, adds one to [num_failures], and its
    last four calls are: the dump of header, source and info log under
    the stem of the stage and the old value of [num_failures], the alert,
    the error log entry, and the deletion of the shader object. *)
Theorem CompileSingleShader_failure_is_reported
    (type : shader_type) (code : string) (macros : list string) (st : state) :
  let id := gl_answer E (trace st ++ [glCreateShader type]) in
  let asked :=
    trace st ++
      [ glCreateShader type;
        glShaderSource id (Z.of_nat (List.length macros) + 2)
          (s_glsl_header st :: macros ++ [code]);
        glCompileShader id;
        glGetShaderiv id GL_COMPILE_STATUS ] in
  gl_answer E asked <> GL_TRUE ->
  exists before log,
    (CompileSingleShader type code macros st).1 = 0 /\
    num_failures (CompileSingleShader type code macros st).2
      = num_failures st + 1 /\
    trace (CompileSingleShader type code macros st).2
      = before ++
        [ DumpFile (DumpName (stage_stem type) (num_failures st))
            (s_glsl_header st +:+ code +:+ log);
          PanicAlert ("Failed to compile " +:+ stage_name type +:+ " shader")
            (DumpName (stage_stem type) (num_failures st)) log;
          ERROR_LOG "Shader compilation failed; see info log";
          glDeleteShader id ].
Proof.
  intros id asked Hstatus.
  unfold CompileSingleShader, CompileSingleShader_source, bind, get, call,
    ask, ask_into, ask_text, modify, when, ret.
  cbn. repeat (rewrite <- app_assoc; cbn).
  destruct (negb (_ =? GL_TRUE)) eqn:Hs; cbn.
  - repeat (rewrite <- app_assoc; cbn).
    eexists (trace st ++ [_; _; _; _; _; _; _]), _.
    split; [reflexivity |]. split; [reflexivity |].
    repeat (rewrite <- app_assoc; cbn). reflexivity.
  - apply negb_false_iff, Z.eqb_eq in Hs. exfalso. apply Hstatus. exact Hs.
Qed.

(** ** The programs a replay deletes *)

(** X13.  Replaying one record deletes one program when the record does
    not load, namely the one it created, as its last call, leaving every
    variable as it was; and deletes none when the record loads: the
    program of a node that the record replaces is not deleted. *)
Theorem Read_deletes_only_what_it_rejects
    (key : SHADERUID) (value : list Z) (st : state) :
  exists new,
    trace (Read key value st).2 = trace st ++ new /\
    count_calls is_program_delete new
      = (if Read_loads value st then 0 else 1)%nat /\
    (Read_loads value st = false ->
     (Read key value st).2 = set_trace (trace st ++ new) st /\
     last new = Some (glDeleteProgram (Read_program st))).
Proof.
  unfold Read, Read_loads, Read_program, bind, ask, call, modify.
  cbn. repeat (rewrite <- app_assoc; cbn).
  destruct (negb (_ =? 0)); cbn.
  - match goal with
    | |- context [SetProgramVariables ?s ?st1] =>
        destruct (SetProgramVariables_objects s st1) as (more & Hmore & Hok);
        destruct (SetProgramVariables s st1) as [[] st2]
    end.
    cbn in Hmore. eexists (_ :: _ :: _ :: more).
    split; [etrans; [exact Hmore |]; by rewrite <- app_assoc |].
    split; [cbn; by apply plain_not_delete | discriminate].
  - eexists [_; _; _; _].
    split; [by rewrite <- app_assoc |]. split; [reflexivity |].
    intros _. split; [|reflexivity]. cbn. by rewrite <- app_assoc.
Qed.

(** ** The header of every shader source *)

Lemma prefix_substring_append a b n :
  (String.length a <= n)%nat ->
  String.prefix a (String.substring 0 n (a +:+ b)) = true.
Proof.
  revert n. induction a as [|c a IH]; intros n Hn;
    [by destruct (String.substring _ _ _) |].
  destruct n as [|n]; cbn in Hn; [lia |].
  change (match ascii_dec c c with
          | left _ => String.prefix a (String.substring 0 n (a +:+ b))
          | right _ => false
          end = true).
  destruct (ascii_dec c c); [|done]. apply IH. lia.
Qed.

Lemma length_substring_le n s :
  (String.length (String.substring 0 n s) <= n)%nat.
Proof.
  revert s. induction n as [|n IH]; intros s; [by destruct s |].
  destruct s as [|c s]; cbn; [lia |]. specialize (IH s). lia.
Qed.

Lemma GetGLSLVersionString_length :
  (String.length GetGLSLVersionString <= 15)%nat.
Proof.
  unfold GetGLSLVersionString. cbv zeta.
  repeat destruct (_ =? _); cbn; lia.
Qed.

Lemma Init_header st :
  s_glsl_header (Init st).2
  = String.substring 0 1023
      (fold_right (fun line rest => line +:+ newline +:+ rest) "" header_lines).
Proof.
  unfold Init, Init_after_stream_buffer, bind.
  destruct (Init_stream_buffer st) as [[] st1].
  destruct (Init_shader_cache st1) as [[] st2]. reflexivity.
Qed.

(** X21.  After [Init] the header is at most 1023 characters long and
    starts with the version directive, and [CompileSingleShader] hands it
    to the driver as the first source string. *)
Theorem Init_header_starts_with_version
    (st : state) (type : shader_type) (code : string) (macros : list string) :
  let st0 := (Init st).2 in
  let header := s_glsl_header st0 in
  String.prefix GetGLSLVersionString header = true /\
  (String.length header <= 1023)%nat /\
  exists id count,
    glShaderSource id count (header :: macros ++ [code])
      ∈ trace (CompileSingleShader type code macros st0).2.
Proof.
  intros st0 header.
  assert (Hheader : header = _) by apply Init_header.
  clearbody st0. split; [|split].
  - rewrite Hheader. unfold header_lines. cbv zeta. cbn [fold_right].
    apply prefix_substring_append.
    pose proof GetGLSLVersionString_length. lia.
  - rewrite Hheader. apply length_substring_le.
  - subst header. eexists _, _.
    unfold CompileSingleShader, CompileSingleShader_source, bind, get, call,
      ask, ask_into, ask_text, modify, when, ret.
    cbn.
    destruct (negb (_ =? GL_TRUE)); cbn;
      [| destruct ((1 <? _) && DEBUG_GLSL E); cbn ];
      repeat (rewrite <- app_assoc; cbn);
      (apply elem_of_app; right;
       apply list_elem_of_further, list_elem_of_here).
Qed.

(** ** Uniform blocks and samplers *)

Lemma grows_when_call ok b e :
  (b = true -> ok e = true) -> keeps (grows ok) (when b (call e)).
Proof.
  intros He. destruct b; cbn [when].
  - apply grows_call. by apply He.
  - apply keeps_ret. tc_solve.
Qed.

Ltac found_step :=
  lazymatch goal with
  | |- keeps (grows found_uniform) (when _ (call _)) =>
      apply grows_when_call; intros Hfound; exact Hfound
  | |- _ => frame_step
  end.

Lemma SetProgramVariables_found s :
  keeps (grows found_uniform) (SetProgramVariables s).
Proof. repeat found_step. Qed.

(** X22.  With binding layouts supported [SetProgramVariables] does
    nothing.  Without them it leaves the shader's program as the tracked
    current one; and it binds no uniform block whose index the driver
    gave as -1 and sets no sampler whose location it gave as -1. *)
Theorem SetProgramVariables_skips_what_is_missing (s : SHADER) (st : state) :
  (bSupportsBindingLayout E = true -> SetProgramVariables s st = (tt, st)) /\
  (bSupportsBindingLayout E = false ->
   CurrentProgram (SetProgramVariables s st).2 = glprogid s) /\
  exists new,
    trace (SetProgramVariables s st).2 = trace st ++ new /\
    forallb found_uniform new = true.
Proof.
  split; [|split].
  - intros Hlayout. unfold SetProgramVariables. by rewrite Hlayout.
  - intros Hlayout. unfold SetProgramVariables. rewrite Hlayout. cbn [negb].
    unfold bind at 1. pose proof (Bind_CurrentProgram s st) as Hb.
    destruct (Bind s st) as [[] st1]. cbn [snd] in Hb.
    match goal with
    | |- CurrentProgram (?c st1).2 = _ =>
        assert (Hk : keeps (same CurrentProgram) c) by frame;
        specialize (Hk st1)
    end.
    unfold same in Hk. etrans; [symmetry; exact Hk | exact Hb].
  - apply SetProgramVariables_found.
Qed.

(** ** Locations are bound before the program is linked *)

Lemma for_each_binding (l : list Z) (f : Z -> event) st :
  for_each l (fun i => call (f i)) st
  = (tt, set_trace (trace st ++ map f l) st).
Proof.
  revert st. induction l as [|i l IH]; intros st; cbn.
  - by rewrite app_nil_r.
  - unfold bind, call. rewrite IH. cbn. by rewrite <- app_assoc.
Qed.

Lemma call_bind {A} e (k : unit -> St A) st :
  bind (call e) k st = k tt (set_trace (trace st ++ [e]) st).
Proof. reflexivity. Qed.

Lemma SetProgramBindings_eq s st :
  SetProgramBindings s st
  = (tt, set_trace (trace st ++ binding_calls s) st).
Proof.
  unfold SetProgramBindings, binding_calls.
  destruct (bSupportsDualSourceBlend E); cbn [when];
    repeat first [ rewrite bind_bind | rewrite bind_ret
                 | rewrite call_bind; cbv beta ];
    rewrite for_each_binding; cbn -[seqZ];
    repeat (rewrite <- app_assoc; cbn -[seqZ]); reflexivity.
Qed.

Lemma split_at_link before behind pre id id' post :
  forallb not_link_program before = true ->
  forallb not_link_program behind = true ->
  before ++ glLinkProgram id :: behind = pre ++ glLinkProgram id' :: post ->
  pre = before /\ id' = id /\ post = behind.
Proof.
  revert pre. induction before as [|e before IH]; intros pre Hb Hp Hsplit.
  - destruct pre as [|e' pre]; cbn in Hsplit.
    + by injection Hsplit as -> ->.
    + injection Hsplit as <- Hsplit. exfalso.
      assert (Hin : glLinkProgram id' ∈ behind)
        by (rewrite Hsplit; apply elem_of_app; right; apply list_elem_of_here).
      rewrite forallb_forall in Hp. apply list_elem_of_In in Hin.
      by specialize (Hp _ Hin).
  - cbn in Hb. apply andb_true_iff in Hb as [He Hb].
    destruct pre as [|e' pre]; cbn in Hsplit; injection Hsplit as -> Hsplit.
    + discriminate.
    + destruct (IH pre Hb Hp Hsplit) as (-> & -> & ->). done.
Qed.

Lemma forallb_behind_link l :
  forallb behind_link_call l = true ->
  forallb not_link_program l = true /\
  count_calls is_location_binding l = 0%nat.
Proof.
  induction l as [|e l IH]; cbn; [done |].
  intros [[He1 He2]%andb_true_iff Hl]%andb_true_iff.
  destruct (IH Hl) as [H1 H2]. rewrite He2, H1, H2.
  unfold not_location_binding in He1. by destruct (is_location_binding e).
Qed.

Lemma binding_calls_not_link s :
  forallb not_link_program (binding_calls s) = true.
Proof.
  unfold binding_calls. rewrite !forallb_app.
  destruct (bSupportsDualSourceBlend E); cbn -[seqZ];
    apply forallb_forall; intros e [i [<- _]]%in_map_iff; reflexivity.
Qed.

Lemma CompileShader_link_eq sh vsid psid gsid st :
  let pid := gl_answer E (trace st ++ [glCreateProgram]) in
  exists attached,
    forallb behind_link_call attached = true /\
    CompileShader_link sh vsid psid gsid st
    = (pid,
       set_trace
         (trace st ++ glCreateProgram :: attached
            ++ binding_calls (set_glprogid pid sh)
            ++ glLinkProgram pid
            :: [glDeleteShader vsid; glDeleteShader psid;
                glDeleteShader gsid]) st).
Proof.
  intros pid. unfold CompileShader_link, bind, ask, call, get, when, modify, ret.
  cbn -[SetProgramBindings]. fold pid.
  assert (Hshape : forall (attached : list event) s,
    forallb behind_link_call attached = true ->
    s = set_trace (trace st ++ glCreateProgram :: attached) st ->
    exists attached',
      forallb behind_link_call attached' = true /\
      (let '(_, st'0) := SetProgramBindings (set_glprogid pid sh) s in
       (pid,
        set_trace
          ((((trace st'0 ++ [glLinkProgram pid]) ++ [glDeleteShader vsid])
            ++ [glDeleteShader psid]) ++ [glDeleteShader gsid])
          (set_trace
             (((trace st'0 ++ [glLinkProgram pid]) ++ [glDeleteShader vsid])
              ++ [glDeleteShader psid])
             (set_trace
                ((trace st'0 ++ [glLinkProgram pid]) ++ [glDeleteShader vsid])
                (set_trace (trace st'0 ++ [glLinkProgram pid]) st'0)))))
      = (pid,
         set_trace
           (trace st ++ glCreateProgram :: attached'
              ++ binding_calls (set_glprogid pid sh)
              ++ glLinkProgram pid
              :: [glDeleteShader vsid; glDeleteShader psid;
                  glDeleteShader gsid]) st)).
  { intros attached s Hattached ->. rewrite SetProgramBindings_eq.
    exists attached. split; [done |].
    cbn -[binding_calls]. repeat (rewrite <- app_assoc; cbn -[binding_calls]).
    reflexivity. }
  destruct (negb (gsid =? 0));
    cbn -[SetProgramBindings];
    match goal with
    | |- context [if ?b then _ else _] => destruct b
    end;
    cbn -[SetProgramBindings];
    (eapply Hshape;
     [ | repeat (rewrite <- app_assoc; cbn); reflexivity ]; reflexivity).
Qed.

Lemma CompileShader_stages_behind_link v p g m :
  keeps (grows behind_link_call) (CompileShader_stages v p g m).
Proof. frame. Qed.

Lemma Bind_behind_link s : keeps (grows behind_link_call) (Bind s).
Proof. frame. Qed.
#[local] Hint Resolve Bind_behind_link : frames.

Lemma CompileShader_behind_link sh pid v p g :
  keeps (grows behind_link_call)
    (linkStatus <- CompileShader_link_status pid v p g ;;
     CompileShader_finish sh pid linkStatus).
Proof. frame. Qed.

(** X23.  In [CompileShader] the locations of the vertex attributes and
    of the fragment outputs are bound before the program is linked: all
    the calls of [SetProgramBindings] for the program come before its
    [glLinkProgram], and no location is bound after it. *)
Theorem CompileShader_binds_locations_before_linking
    (sh : SHADER) (vcode pcode : string) (gcode : option string)
    (macros : list string) (st : state) :
  exists new,
    trace (CompileShader sh vcode pcode gcode macros st).2 = trace st ++ new /\
    locations_bound_before_link sh new.
Proof.
  rewrite CompileShader_parts. unfold bind at 1.
  destruct (CompileShader_stages_behind_link vcode pcode gcode macros st)
    as (part & Hpart & Hquiet).
  destruct (CompileShader_stages vcode pcode gcode macros st) as [ids st_s].
  cbn [snd] in Hpart.
  destruct (forallb_behind_link _ Hquiet) as [Hpart_link _].
  destruct (stage_missing gcode ids).
  - unfold bind, call, ret. cbn.
    exists (part ++ [glDeleteShader ids.1.1; glDeleteShader ids.1.2;
                     glDeleteShader ids.2]).
    split; [rewrite Hpart; by repeat (rewrite <- app_assoc; cbn) |].
    intros pre id post Hsplit. exfalso.
    assert (Hall : forallb not_link_program
                     (part ++ [glDeleteShader ids.1.1; glDeleteShader ids.1.2;
                               glDeleteShader ids.2]) = true)
      by (by rewrite forallb_app, Hpart_link).
    rewrite Hsplit, forallb_app in Hall. cbn in Hall.
    by rewrite andb_false_r in Hall.
  - unfold bind at 1.
    destruct (CompileShader_link_eq sh ids.1.1 ids.1.2 ids.2 st_s)
      as (attached & Hattached & ->).
    set (pid := gl_answer E (trace st_s ++ [glCreateProgram])).
    match goal with
    | |- context [trace (?c ?s).2] =>
        destruct (CompileShader_behind_link (set_glprogid pid sh) pid vcode
                    pcode gcode s) as (rest & Hrest & Hbehind)
    end.
    destruct (forallb_behind_link _ Hattached) as [Hattached_link _].
    destruct (forallb_behind_link _ Hbehind) as [Hrest_link Hrest_bind].
    set (dels := [glDeleteShader ids.1.1; glDeleteShader ids.1.2;
                  glDeleteShader ids.2]) in *.
    exists ((part ++ glCreateProgram :: attached
               ++ binding_calls (set_glprogid pid sh))
            ++ glLinkProgram pid :: dels ++ rest).
    split.
    { etrans; [exact Hrest |]. cbn -[binding_calls]. rewrite Hpart.
      repeat (rewrite <- app_assoc; cbn -[binding_calls]). reflexivity. }
    intros pre id post Hsplit.
    apply split_at_link in Hsplit as (-> & -> & ->).
    + split.
      * rewrite count_calls_app, Hrest_bind. reflexivity.
      * intros e He. apply elem_of_app. right.
        apply list_elem_of_further, elem_of_app. by right.
    + rewrite forallb_app, Hpart_link. cbn -[binding_calls].
      by rewrite forallb_app, Hattached_link, binding_calls_not_link.
    + rewrite forallb_app, Hrest_link. reflexivity.
Qed.

End Properties.

(** * The properties at concrete inputs *)

(** Binding program 5 when program 0 is current. *)
Lemma Bind_current_or_one_call_witness :
  trace (Bind (mkSHADER 5 "" "" "") started).2
    = trace started ++ [glUseProgram 5] /\
  bind_calls (trace (Bind (mkSHADER 5 "" "" "") started).2)
    = S (bind_calls (trace started)) /\
  CurrentProgram (Bind (mkSHADER 5 "" "" "") started).2 = 5 /\
  numShaderChanges (Bind (mkSHADER 5 "" "" "") started).2
    = numShaderChanges started + 1.
Proof.
  apply (proj2 (Bind_current_or_one_call (mkSHADER 5 "" "" "") started)).
  vm_compute. lia.
Defined.

(** Two uploads in a row after the pixel constants changed. *)
Lemma UploadConstants_uploads_only_when_dirty_witness :
  let st := set_pixel_dirty true started in
  let st1 := state_after (UploadConstants (E := env_ok) st) st in
  (constants_dirty st = false -> st1 = st) /\
  (constants_dirty st = true ->
     pixel_dirty st1 = false /\ vertex_dirty st1 = false /\
     geometry_dirty st1 = false) /\
  UploadConstants (E := env_ok) st1 = Returns tt st1 /\
  (forall st2, UploadConstants (E := env_ok) st1 = Returns tt st2 ->
     st2 = st1 /\
     count_calls is_upload_work (trace st2)
       = count_calls is_upload_work (trace st1)).
Proof.
  intros st st1.
  apply (UploadConstants_uploads_only_when_dirty (E := env_ok) st st1).
  vm_compute. reflexivity.
Defined.

(** One upload with an alignment of 256 and blocks of 1000, 2500 and 48
    bytes. *)
Lemma UploadConstants_layout_witness :
  let st := set_vertex_dirty true started in
  exists st1 buf,
    UploadConstants (E := env_ok) st = Returns tt st1 /\
    s_buffer st = Some buf /\
    trace st1 = trace st ++
      [ StreamBuffer_Map (1024 + 2560 + 256) 256;
        memcpy 0 PixelConstants 1000;
        memcpy 1024 VertexConstants 2500;
        memcpy (1024 + 2560) GeometryConstants 48;
        StreamBuffer_Unmap (1024 + 2560 + 256);
        glBindBufferRange GL_UNIFORM_BUFFER 1 (m_buffer buf) 4096 1000;
        glBindBufferRange GL_UNIFORM_BUFFER 2 (m_buffer buf) (4096 + 1024)
          2500;
        glBindBufferRange GL_UNIFORM_BUFFER 3 (m_buffer buf)
          (4096 + 1024 + 2560) 48 ].
Proof.
  intros st.
  apply (UploadConstants_layout (E := env_ok) st).
  - vm_compute. split; [eexists |]; reflexivity.
  - vm_compute. reflexivity.
  - vm_compute. split; [discriminate | reflexivity].
Defined.

(** State A, then state B, then state A again. *)
Lemma SetShader_same_handle_without_recompiling_witness :
  exists st3,
    SetShader (E := env_ok) state_A after_A_B = Returns (Some key_A) st3 /\
    is_Some (pshaders after_A !! key_A) /\
    pshaders st3 !! key_A = pshaders after_A !! key_A /\
    grows not_compile_call after_A_B st3 /\
    count_calls is_compile_call (trace st3)
      = count_calls is_compile_call (trace after_A_B).
Proof.
  apply (SetShader_same_handle_without_recompiling (E := env_ok)
           state_A [state_B] started after_A after_A_B key_A).
  - vm_compute. exact I.
  - reflexivity.
  - reflexivity.
Defined.


(** [GetShaderProgram] after the first [SetShader]. *)
Lemma GetShaderProgram_after_Init_dereferences_null_witness :
  exists k entry,
    last_entry after_A = Some k /\ pshaders after_A !! k = Some entry /\
    GetShaderProgram after_A = Returns entry after_A.
Proof.
  apply (proj2 (GetShaderProgram_after_Init_dereferences_null (E := env_ok))
           state_A started (Some key_A) after_A).
  reflexivity.
Defined.

(** Three stages with a driver that compiles nothing. *)
Lemma CompileShader_failed_stage_deletes_all_stages_witness :
  let sh := mkSHADER 0 "" "" "" in
  exists new,
    (CompileShader (E := env_no_compile) sh "vertex" "pixel" (Some "geometry")
       [] started_no_compile).1 = (false, sh) /\
    trace (CompileShader (E := env_no_compile) sh "vertex" "pixel"
             (Some "geometry") [] started_no_compile).2
      = trace started_no_compile ++ new /\
    count_calls is_link_call new = 0%nat /\
    stage_objects_deleted (E := env_no_compile) (trace started_no_compile) new.
Proof.
  intros sh.
  apply (CompileShader_failed_stage_deletes_all_stages (E := env_no_compile)
           sh "vertex" "pixel" (Some "geometry") [] started_no_compile).
  left. vm_compute. reflexivity.
Defined.

(** C2 as claimed fails.  With two records for one key that both load,
    the node of the key after the replay is not the one made from the
    first record: it holds the program of the second. *)
Lemma OpenAndRead_first_record_does_not_win :
  let st := boot true two_records in
  let first := (call disk_cache_OpenAndRead st).2 in
  Read_loads (E := env_ok) [1; 0; 0; 0; 10; 11] first = true /\
  Read_program (E := env_ok) first = 2 /\
  pshaders (OpenAndRead (Read (E := env_ok)) st).2 !! key_A
    = Some (loaded_entry 5) /\
  pshaders (OpenAndRead (Read (E := env_ok)) st).2 !! key_A
    <> Some (loaded_entry (Read_program (E := env_ok) first)) /\
  exists pid,
    pshaders (Init (E := env_ok) st).2 !! key_A = Some (loaded_entry pid) /\
    glProgramBinary pid [1; 0; 0; 0] [20; 21] 2
      ∈ trace (Init (E := env_ok) st).2.
Proof.
  intros st first.
  split; [vm_compute; reflexivity |].
  split; [vm_compute; reflexivity |].
  split; [vm_compute; reflexivity |].
  split; [vm_compute; discriminate |].
  exists 9. split; [vm_compute; reflexivity |].
  vm_compute. repeat first [ apply list_elem_of_here | apply list_elem_of_further ].
Qed.


(** C4 as claimed fails.  After [Init], one [SetShader] and [Shutdown],
    the map is empty and [last_entry] still points at the node that is
    gone. *)
Lemma Shutdown_leaves_last_entry_set :
  pshaders (Shutdown (E := env_ok) after_A).2 = ∅ /\
  last_entry (Shutdown (E := env_ok) after_A).2 = Some key_A /\
  last_entry (Shutdown (E := env_ok) after_A).2 <> None /\
  GetShaderProgram (Shutdown (E := env_ok) after_A).2
    = Faults DanglingPointerDereference.
Proof.
  split; [vm_compute; reflexivity |].
  split; [vm_compute; reflexivity |].
  split; [vm_compute; discriminate |].
  vm_compute. reflexivity.
Qed.

(** C5 as claimed fails.  With a driver that reports an alignment of
    zero, [Init] returns with the stream buffer created and one upload
    sized to zero bytes. *)
Lemma Init_proceeds_with_zero_alignment :
  let st := (Init (E := env_zero_alignment) (boot false [])).2 in
  s_ubo_align st = 0 /\
  s_ubo_buffer_size st = 0 /\
  s_buffer st = Some (mkStreamBuffer 7) /\
  trace st = [ glGetIntegerv GL_UNIFORM_BUFFER_OFFSET_ALIGNMENT;
               StreamBuffer_Create GL_UNIFORM_BUFFER UBO_LENGTH ].
Proof.
  intros st. repeat split; vm_compute; reflexivity.
Qed.

(** The first [SetShader] after [Init]. *)
Lemma SetShader_keeps_tracking_witness : tracking_ok after_A.
Proof.
  apply (SetShader_keeps_tracking (E := env_ok) state_A started (Some key_A)
           after_A).
  - vm_compute. reflexivity.
  - reflexivity.
Defined.

(** What is bound after the first [SetShader]. *)
Lemma SetShader_binds_what_it_returns_witness :
  exists entry,
    GetShaderProgram after_A = Returns entry after_A /\
    pshaders after_A !! key_A = Some entry /\
    GetCurrentProgram after_A = glprogid (shader entry).
Proof.
  apply (SetShader_binds_what_it_returns (E := env_ok) state_A started after_A
           key_A).
  reflexivity.
Defined.

(** State A twice in a row. *)
Lemma SetShader_repeated_makes_no_driver_call_witness :
  exists new,
    forallb is_debug_call new = true /\
    SetShader (E := env_ok) state_A after_A
    = Returns (Some key_A) (set_trace (trace after_A ++ new) after_A).
Proof.
  apply (SetShader_repeated_makes_no_driver_call (E := env_ok) state_A started
           after_A key_A).
  reflexivity.
Defined.

(** State A with shader debugging enabled, from the variables as they
    are when the process starts. *)
Lemma SetShader_debugging_without_geometry_source_witness :
  SetShader (E := env_debugging) state_A (boot false [])
  = Faults NullPointerDereference.
Proof.
  apply (SetShader_debugging_without_geometry_source (E := env_debugging)
           state_A (boot false [])).
  - vm_compute. exact I.
  - reflexivity.
  - reflexivity.
  - reflexivity.
Defined.

(** The counters after the first [SetShader]. *)
Lemma SetShader_statistics_witness :
  match pshaders started !! uid_of (E := env_ok) state_A, Some key_A with
  | Some _, _ =>
      pshaders after_A = pshaders started /\
      numPixelShadersCreated after_A = numPixelShadersCreated started /\
      numPixelShadersAlive after_A = numPixelShadersAlive started
  | None, Some _ =>
      size (pshaders after_A) = S (size (pshaders started)) /\
      numPixelShadersCreated after_A = numPixelShadersCreated started + 1 /\
      numPixelShadersAlive after_A = Z.of_nat (size (pshaders after_A))
  | None, None =>
      size (pshaders after_A) = S (size (pshaders started)) /\
      numPixelShadersCreated after_A = numPixelShadersCreated started /\
      numPixelShadersAlive after_A = numPixelShadersAlive started
  end.
Proof.
  apply (SetShader_statistics (E := env_ok) state_A started after_A
           (Some key_A)).
  - vm_compute. exact I.
  - reflexivity.
Defined.

(** State A, resolved last before [Shutdown], asked for again after it. *)
Lemma SetShader_after_Shutdown_dangles_witness :
  SetShader (E := env_ok) state_A (Shutdown (E := env_ok) before_Shutdown).2
  = Faults DanglingPointerDereference.
Proof.
  apply (SetShader_after_Shutdown_dangles (E := env_ok) state_A before_Shutdown
           key_A); reflexivity.
Defined.

(** [Init] with a disk cache file of two records. *)
Lemma Init_tracking_with_binding_layout_witness :
  GetCurrentProgram (Init (E := env_ok) (boot true two_records)).2 = 0 /\
  (tracking_ok (Init (E := env_ok) (boot true two_records)).2 <->
   driver_program (trace (boot true two_records)) = 0).
Proof.
  apply (Init_tracking_with_binding_layout (E := env_ok)
           (boot true two_records)).
  reflexivity.
Defined.

(** [Shutdown] with one program of this run and one from the file. *)
Lemma Shutdown_stores_every_unsaved_program_witness :
  exists added,
    g_program_disk_cache (Shutdown (E := env_ok) before_Shutdown).2
      = g_program_disk_cache before_Shutdown ++ added /\
    added.*1 = unsaved (pshaders before_Shutdown) /\
    Forall (fun r => (Z.to_nat sizeof_GLenum < List.length r.2)%nat) added.
Proof.
  apply (Shutdown_stores_every_unsaved_program (E := env_ok) before_Shutdown).
  - repeat split; try (intros t id Hlast); try (intros t Hlast); cbn;
      unfold sample_driver; rewrite ?Hlast; done.
  - reflexivity.
  - reflexivity.
Defined.

(** [Init], then [Shutdown], with a disk cache file of two records. *)
Lemma Init_then_Shutdown_writes_nothing_witness :
  all_in_cache (pshaders (Init (E := env_ok) (boot true two_records)).2) /\
  g_program_disk_cache
    (Shutdown (E := env_ok) (Init (E := env_ok) (boot true two_records)).2).2
  = g_program_disk_cache (boot true two_records).
Proof.
  apply (Init_then_Shutdown_writes_nothing (E := env_ok)
           (boot true two_records)).
  apply map_Forall_empty.
Defined.

(** Two stages with a driver that links nothing. *)
Lemma CompileShader_failure_leaves_no_program_witness :
  exists new,
    trace unlinked.2 = trace (boot false []) ++ new /\
    ((unlinked.1.2 = mkSHADER 0 "" "" "" /\
      count_calls is_link_call new = 0%nat) \/
     (exists pre post,
        new = pre ++ glCreateProgram :: post
                ++ [glDeleteProgram (glprogid unlinked.1.2)] /\
        glprogid unlinked.1.2
          = gl_answer env_no_link
              (trace (boot false []) ++ pre ++ [glCreateProgram]) /\
        unlinked.1.2
          = set_glprogid (glprogid unlinked.1.2) (mkSHADER 0 "" "" ""))).
Proof.
  apply (CompileShader_failure_leaves_no_program (E := env_no_link)
           (mkSHADER 0 "" "" "") unlinked.1.2 "vertex" "pixel" None []
           (boot false []) unlinked.2).
  vm_compute. reflexivity.
Defined.

(** Two stages with a driver that links everything. *)
Lemma CompileShader_success_names_linked_program_witness :
  exists pre post,
    trace linked.2 = trace (boot false []) ++ pre ++ glCreateProgram :: post /\
    glprogid linked.1.2
      = gl_answer env_ok (trace (boot false []) ++ pre ++ [glCreateProgram]) /\
    linked.1.2 = set_glprogid (glprogid linked.1.2) (mkSHADER 0 "" "" "") /\
    glLinkProgram (glprogid linked.1.2) ∈ post /\
    count_calls is_program_delete (pre ++ glCreateProgram :: post) = 0%nat.
Proof.
  apply (CompileShader_success_names_linked_program (E := env_ok)
           (mkSHADER 0 "" "" "") linked.1.2 "vertex" "pixel" None []
           (boot false []) linked.2).
  vm_compute. reflexivity.
Defined.

(** State A with a driver that compiles nothing. *)
Lemma SetShader_failure_binds_nothing_witness :
  GetCurrentProgram failed_A = GetCurrentProgram (boot false []) /\
  bind_calls (trace failed_A) = bind_calls (trace (boot false [])).
Proof.
  apply (SetShader_failure_binds_nothing (E := env_no_compile) state_A
           (boot false []) failed_A).
  vm_compute. reflexivity.
Defined.

(** State A again after the failure. *)
Lemma SetShader_after_failure_binds_dead_program_witness :
  exists entry st2,
    pshaders failed_A !! uid_of (E := env_no_compile) state_A = Some entry /\
    (glprogid (shader entry) = SHADER_initial_glprogid env_no_compile \/
     glDeleteProgram (glprogid (shader entry)) ∈ trace failed_A) /\
    SetShader (E := env_no_compile) state_A failed_A
      = Returns (Some (uid_of (E := env_no_compile) state_A)) st2 /\
    GetCurrentProgram st2 = glprogid (shader entry).
Proof.
  apply (SetShader_after_failure_binds_dead_program (E := env_no_compile)
           state_A (boot false []) failed_A).
  vm_compute. reflexivity.
Defined.

(** A vertex stage with a driver that compiles nothing. *)
Lemma CompileSingleShader_failure_is_reported_witness :
  exists before log,
    (CompileSingleShader (E := env_no_compile) GL_VERTEX_SHADER "vertex" []
       (boot false [])).1 = 0 /\
    num_failures
      (CompileSingleShader (E := env_no_compile) GL_VERTEX_SHADER "vertex" []
         (boot false [])).2
      = num_failures (boot false []) + 1 /\
    trace
      (CompileSingleShader (E := env_no_compile) GL_VERTEX_SHADER "vertex" []
         (boot false [])).2
      = before ++
        [ DumpFile (DumpName "bad_vs" 0) ("" +:+ "vertex" +:+ log);
          PanicAlert "Failed to compile vertex shader" (DumpName "bad_vs" 0)
            log;
          ERROR_LOG "Shader compilation failed; see info log";
          glDeleteShader 1 ].
Proof.
  apply (CompileSingleShader_failure_is_reported (E := env_no_compile)
           GL_VERTEX_SHADER "vertex" [] (boot false [])).
  vm_compute. discriminate.
Defined.
